(** * BreedAI: a shallow embedding of the front-end logic

    The repository is a React/TypeScript prototype.  Every component is
    embedded as a record of its state hooks together with its handlers;
    a handler maps a state to the next one.  Calls of props are returned
    as a list of effects, in program order; toasts are kept in the state,
    in the order they were shown.  What the browser decides (a file
    choice, a permission, a random draw, the clock) is an argument of the
    handler.  Asynchronous code ([setTimeout], [await]) runs on the timer
    queue of [EventLoop].

    Conventions.
    - A JavaScript string is a Rocq [string]: the bytes of the UTF-8
      encoding of the source literal.  All keywords of the source lie in
      the Basic Multilingual Plane, for which substring search on UTF-16
      code units and on well-formed UTF-8 bytes agree.
    - A JavaScript number that the code or the browser produces (a mock
      percentage, a draw of [Math.random], a coordinate) is a rational
      ([Q]); array indices and lengths are [nat], times in milliseconds
      and integer codes are [Z].  The argument of [getConfidenceLevel],
      which a caller may choose freely, is a [JS.Number]: a finite value,
      [NaN] or one of the infinities.
    - A union of string literals ([AppState], the status of a batch item)
      is a [string], as it is at run time.
    - [String.prototype.toLowerCase], [String.prototype.trim] and
      [Number.prototype.toFixed] are parameters of the components that
      call them; [JS.toLowerCaseAscii] and [JS.trimAscii] are executable
      instances for ASCII text.
    - Timers fire when they are due, and [Date.now()] in a timer is its
      due time.  The state updates of one timer callback or continuation
      are followed by one render of the component. *)

From Stdlib Require Import String Ascii List Bool Arith ZArith QArith Qround Lia Lqa.
From Stdlib Require Import DecimalString Sorted.
Import ListNotations.

Local Open Scope string_scope.
Local Open Scope list_scope.

(* ================================================================== *)
(** * Part I: definitions                                             *)
(* ================================================================== *)

(** ** The JavaScript primitives the components rely on *)
Module JS.

(** [sub] occurs in [s] starting at its first character. *)
Definition startsWith (s sub : string) : bool := String.prefix sub s.

(** [String.prototype.includes]: [sub] occurs somewhere in [s]. *)
Fixpoint includes (s sub : string) : bool :=
  startsWith s sub ||
  match s with
  | EmptyString => false
  | String _ rest => includes rest sub
  end.

(** Template-literal rendering of a non-negative integer. *)
Definition natToString (n : nat) : string :=
  NilEmpty.string_of_uint (Nat.to_uint n).

(** Comparison operators on numbers. *)
Definition geb (x y : Q) : bool := Qle_bool y x.
Definition gtb (x y : Q) : bool := negb (Qle_bool x y).
Definition ltb (x y : Q) : bool := negb (Qle_bool y x).

(** A JS number: a finite value, as the rational it denotes, or one of
    the three values that are not finite. *)
Inductive Number :=
| Finite (q : Q)
| NaN
| PosInfinity
| NegInfinity.

(** [x >= y] for a number [x] and a finite [y]; every comparison with
    [NaN] is false. *)
Definition numGeb (x : Number) (y : Q) : bool :=
  match x with
  | Finite q => geb q y
  | PosInfinity => true
  | NaN | NegInfinity => false
  end.

(** What [x >= y] and [x < y] say of a number [x] and a finite [y]. *)
Definition atLeast (x : Number) (y : Q) : Prop :=
  match x with
  | Finite q => (y <= q)%Q
  | PosInfinity => True
  | NaN | NegInfinity => False
  end.

Definition below (x : Number) (y : Q) : Prop :=
  match x with
  | Finite q => (q < y)%Q
  | NegInfinity => True
  | NaN | PosInfinity => False
  end.

(** [Math.floor], and [Math.floor(r * n)] as an array index. *)
Definition floorIndex (r : Q) (n : nat) : Z :=
  Qfloor (r * inject_Z (Z.of_nat n)).

(** ASCII instance of [toLowerCase]. *)
Definition lowerAscii (c : ascii) : ascii :=
  let n := nat_of_ascii c in
  if (65 <=? n)%nat && (n <=? 90)%nat then ascii_of_nat (n + 32) else c.

Fixpoint toLowerCaseAscii (s : string) : string :=
  match s with
  | EmptyString => EmptyString
  | String c rest => String (lowerAscii c) (toLowerCaseAscii rest)
  end.

(** ASCII instance of [trim]: strips space, tab, LF, VT, FF and CR. *)
Definition isSpaceAscii (c : ascii) : bool :=
  let n := nat_of_ascii c in
  (n =? 32)%nat || ((9 <=? n)%nat && (n <=? 13)%nat).

Fixpoint trimStart (s : string) : string :=
  match s with
  | EmptyString => EmptyString
  | String c rest => if isSpaceAscii c then trimStart rest else s
  end.

Fixpoint trimEnd (s : string) : string :=
  match s with
  | EmptyString => EmptyString
  | String c rest =>
      match trimEnd rest with
      | EmptyString => if isSpaceAscii c then EmptyString else String c EmptyString
      | rest' => String c rest'
      end
  end.

Definition trimAscii (s : string) : string := trimEnd (trimStart s).

(** [Array.prototype.map] with the index passed to the callback. *)
Fixpoint mapi_from {A B : Type} (f : A -> nat -> B) (i : nat) (l : list A) : list B :=
  match l with
  | [] => []
  | x :: rest => f x i :: mapi_from f (S i) rest
  end.

Definition mapi {A B : Type} (f : A -> nat -> B) (l : list A) : list B :=
  mapi_from f 0 l.

(** [l] is [l'] with some elements left out, the others in order. *)
Inductive subsequence {A : Type} : list A -> list A -> Prop :=
| subsequence_nil : subsequence [] []
| subsequence_skip (x : A) (l l' : list A) : subsequence l l' -> subsequence l (x :: l')
| subsequence_keep (x : A) (l l' : list A) : subsequence l l' -> subsequence (x :: l) (x :: l').

(** A [File] as far as the components look at it. *)
Record File := { fileName : string; fileType : string }.

(** The toast hook: a call is recorded with its title, its description,
    whether its variant is [destructive], and its duration where the
    source gives one. *)
Record Toast := { title : string; description : string;
                  destructive : bool; duration : option Z }.

(** A string state that may be [null]; the empty string is falsy too. *)
Definition truthy (o : option string) : option string :=
  match o with
  | Some EmptyString => None
  | other => other
  end.

End JS.

(** ** Timers: the browser's macrotask queue

    A task runs to completion against the component state and registers
    timers, each a delay and the task to run then.  Timers fire in order
    of their due time, and in registration order among equal due times.
    [St] is the component state, [Task] its callbacks and continuations. *)
Section EventLoop.

Variables St Task : Type.

(** [exec task now st]: the state after the task and the timers it
    registered, in registration order. *)
Variable exec : Task -> Z -> St -> St * list (Z * Task).

Record Timer := { fireAt : Z; callback : Task }.

Record Loop := { now : Z; state : St; timers : list Timer }.

Fixpoint insertTimer (t : Timer) (q : list Timer) : list Timer :=
  match q with
  | [] => [t]
  | u :: rest =>
      if (fireAt u <=? fireAt t)%Z then u :: insertTimer t rest
      else t :: q
  end.

Definition register (at_ : Z) (q : list Timer) (new : list (Z * Task)) : list Timer :=
  fold_left (fun q' dt => insertTimer {| fireAt := at_ + fst dt; callback := snd dt |} q')
            new q.

(** Run one task now (a user event, a mount) outside the queue. *)
Definition dispatch (task : Task) (l : Loop) : Loop :=
  let '(st', new) := exec task (now l) (state l) in
  {| now := now l; state := st'; timers := register (now l) (timers l) new |}.

(** Fire the earliest timer; [None] when the queue is empty. *)
Definition tick (l : Loop) : option Loop :=
  match timers l with
  | [] => None
  | t :: rest =>
      let at_ := Z.max (now l) (fireAt t) in
      let '(st', new) := exec (callback t) at_ (state l) in
      Some {| now := at_; state := st'; timers := register at_ rest new |}
  end.

Fixpoint run (fuel : nat) (l : Loop) : Loop :=
  match fuel with
  | O => l
  | S fuel' =>
      match tick l with
      | None => l
      | Some l' => run fuel' l'
      end
  end.

Definition quiescent (l : Loop) : bool :=
  match timers l with [] => true | _ => false end.

(** The queue is in firing order and nothing in it is overdue. *)
Definition dueBefore (a b : Timer) : Prop := (fireAt a <= fireAt b)%Z.

Definition ordered (l : Loop) : Prop :=
  StronglySorted dueBefore (timers l) /\
  Forall (fun t => (now l <= fireAt t)%Z) (timers l).

(** How many timers of [q] are due at [T]. *)
Definition dueAt (T : Z) (q : list Timer) : nat :=
  length (filter (fun u => (fireAt u =? T)%Z) q).

End EventLoop.

Arguments fireAt {Task} _.
Arguments callback {Task} _.
Arguments now {St Task} _.
Arguments state {St Task} _.
Arguments timers {St Task} _.
Arguments quiescent {St Task} _.
Arguments ordered {St Task} _.
Arguments dueAt {Task} _ _.
Arguments dueBefore {Task} _ _.

(** ** BreedResults.tsx *)
Module BreedResults.

Record BreedPrediction := {
  name : string;
  hindiName : string;
  confidence : Q;
  characteristics : list string;
  region : string
}.

Record ConfidenceInfo := { level : string; label : string; className : string }.

Definition getConfidenceLevel (confidence : JS.Number) : ConfidenceInfo :=
  if JS.numGeb confidence 80 then
    {| level := "high"; label := "High Confidence"; className := "confidence-high" |}
  else if JS.numGeb confidence 60 then
    {| level := "medium"; label := "Medium Confidence"; className := "confidence-medium" |}
  else
    {| level := "low"; label := "Low Confidence"; className := "confidence-low" |}.

(** The legend of the "About Confidence Scores" card, as the ranges of
    whole percentages its three lines name: 80 and above, 60 to 79,
    below 60. *)
Definition legend (percent : Z) : string :=
  if (80 <=? percent)%Z then "high"
  else if (60 <=? percent)%Z && (percent <=? 79)%Z then "medium"
  else "low".

End BreedResults.

(** ** MultiAngleCapture.tsx *)
Module MultiAngleCapture.

Record CapturedImage := {
  id : string;
  url : string;
  file : JS.File;
  angle : string;
  timestamp : Z
}.

Record Angle := { angleId : string; angleName : string;
                  angleDescription : string; angleHindi : string }.

Definition requiredAngles : list Angle :=
  [ {| angleId := "front"; angleName := "Front View";
       angleDescription := "Face-on view of the animal"; angleHindi := "सामने का दृश्य" |};
    {| angleId := "side"; angleName := "Side Profile";
       angleDescription := "Complete side profile"; angleHindi := "बगल का दृश्य" |};
    {| angleId := "rear"; angleName := "Rear View";
       angleDescription := "Back view of the animal"; angleHindi := "पीछे का दृश्य" |};
    {| angleId := "features"; angleName := "Key Features";
       angleDescription := "Close-up of distinctive features"; angleHindi := "मुख्य विशेषताएं" |} ].

Record State := {
  currentAngleIndex : Z;
  capturedImages : list CapturedImage;
  isStreamActive : bool;
  capturedImage : option string;
  error : option string
}.

Definition initial : State :=
  {| currentAngleIndex := 0; capturedImages := []; isStreamActive := false;
     capturedImage := None; error := None |}.

(** Calls of the two props. *)
Inductive Effect :=
| OnComplete (images : list CapturedImage)
| OnBack.

(** [requiredAngles[currentAngleIndex]]; [None] stands for [undefined]. *)
Definition currentAngle (st : State) : option Angle :=
  if (currentAngleIndex st <? 0)%Z then None
  else nth_error requiredAngles (Z.to_nat (currentAngleIndex st)).

Definition lastAngleIndex : Z := Z.of_nat (length requiredAngles) - 1.

(** The index update shared by [confirmCapture] and [handleFileUpload]. *)
Definition advance (st : State) : Z :=
  if (currentAngleIndex st <? lastAngleIndex)%Z then currentAngleIndex st + 1
  else currentAngleIndex st.

Fixpoint findIndexFrom (p : Angle -> bool) (i : Z) (l : list Angle) : Z :=
  match l with
  | [] => -1
  | a :: rest => if p a then i else findIndexFrom p (i + 1) rest
  end.

(** What the user and the browser can do to the component.  The
    outcomes of browser calls are part of the event: whether
    [getUserMedia] granted a stream, the object URL of a blob, the
    file chosen in the upload input, the clock. *)
Inductive Event :=
| StartCamera (granted : bool)
| StopCamera
| CapturePhoto (blobUrl : option string)
| ConfirmCapture (blob : option JS.File) (clock : Z)
| RetakePhoto (granted : bool)
| HandleFileUpload (chosen : option JS.File) (objectUrl : string) (clock : Z)
| RemoveImage (angle_id : string)
| GoToPreviousAngle
| GoToNextAngle
| HandleComplete
| ClickBack.

(** The [<video>] element, and with it [videoRef.current], exists only
    while the preview shows the live stream; the hidden canvas always
    exists. *)
Definition videoMounted (st : State) : bool :=
  match capturedImage st with
  | Some _ => false
  | None => isStreamActive st
  end.

Definition startCamera (granted : bool) (st : State) : State :=
  if granted then
    {| currentAngleIndex := currentAngleIndex st; capturedImages := capturedImages st;
       isStreamActive := if videoMounted st then true else isStreamActive st;
       capturedImage := capturedImage st; error := None |}
  else
    {| currentAngleIndex := currentAngleIndex st; capturedImages := capturedImages st;
       isStreamActive := isStreamActive st; capturedImage := capturedImage st;
       error := Some "Camera access denied. Please allow camera permission or upload images instead." |}.

Definition stopCamera (st : State) : State :=
  {| currentAngleIndex := currentAngleIndex st; capturedImages := capturedImages st;
     isStreamActive := false; capturedImage := capturedImage st; error := error st |}.

Definition capturePhoto (blobUrl : option string) (st : State) : State :=
  if videoMounted st then
    match blobUrl with
    | Some u =>
        stopCamera
          {| currentAngleIndex := currentAngleIndex st; capturedImages := capturedImages st;
             isStreamActive := isStreamActive st; capturedImage := Some u; error := error st |}
    | None => st
    end
  else st.

Definition confirmCapture (blob : option JS.File) (clock : Z) (st : State) : State :=
  match JS.truthy (capturedImage st), blob, currentAngle st with
  | Some u, Some f, Some a =>
      {| currentAngleIndex := advance st;
         capturedImages := capturedImages st ++
           [ {| id := angleId a; url := u; file := f; angle := angleName a; timestamp := clock |} ];
         isStreamActive := isStreamActive st; capturedImage := None; error := error st |}
  | _, _, _ => st
  end.

Definition retakePhoto (granted : bool) (st : State) : State :=
  startCamera granted
    {| currentAngleIndex := currentAngleIndex st; capturedImages := capturedImages st;
       isStreamActive := isStreamActive st; capturedImage := None; error := error st |}.

Definition handleFileUpload (chosen : option JS.File) (objectUrl : string) (clock : Z)
                            (st : State) : State :=
  match chosen, currentAngle st with
  | Some f, Some a =>
      if JS.startsWith (JS.fileType f) "image/" then
        {| currentAngleIndex := advance st;
           capturedImages := capturedImages st ++
             [ {| id := angleId a; url := objectUrl; file := f; angle := angleName a;
                  timestamp := clock |} ];
           isStreamActive := isStreamActive st; capturedImage := capturedImage st;
           error := error st |}
      else st
  | _, _ => st
  end.

Definition removeImage (angle_id : string) (st : State) : State :=
  {| currentAngleIndex :=
       findIndexFrom (fun a => String.eqb (angleId a) angle_id) 0 requiredAngles;
     capturedImages :=
       filter (fun img => negb (String.eqb (id img) angle_id)) (capturedImages st);
     isStreamActive := isStreamActive st; capturedImage := capturedImage st;
     error := error st |}.

Definition goToPreviousAngle (st : State) : State :=
  if (0 <? currentAngleIndex st)%Z then
    {| currentAngleIndex := currentAngleIndex st - 1; capturedImages := capturedImages st;
       isStreamActive := isStreamActive st; capturedImage := capturedImage st;
       error := error st |}
  else st.

Definition goToNextAngle (st : State) : State :=
  {| currentAngleIndex := advance st; capturedImages := capturedImages st;
     isStreamActive := isStreamActive st; capturedImage := capturedImage st;
     error := error st |}.

(** Minimum 2 angles required. *)
Definition handleComplete (st : State) : list Effect :=
  if (2 <=? length (capturedImages st))%nat then [OnComplete (capturedImages st)] else [].

(** The [disabled] attribute of the completion button. *)
Definition completeDisabled (st : State) : bool :=
  (length (capturedImages st) <? 2)%nat.

Definition step (st : State) (e : Event) : State * list Effect :=
  match e with
  | StartCamera granted => (startCamera granted st, [])
  | StopCamera => (stopCamera st, [])
  | CapturePhoto blobUrl => (capturePhoto blobUrl st, [])
  | ConfirmCapture blob clock => (confirmCapture blob clock st, [])
  | RetakePhoto granted => (retakePhoto granted st, [])
  | HandleFileUpload chosen objectUrl clock => (handleFileUpload chosen objectUrl clock st, [])
  | RemoveImage angle_id => (removeImage angle_id st, [])
  | GoToPreviousAngle => (goToPreviousAngle st, [])
  | GoToNextAngle => (goToNextAngle st, [])
  | HandleComplete => (st, handleComplete st)
  | ClickBack => (st, [OnBack])
  end.

(** A session: the state after the events and every effect performed,
    each with the state it was performed in. *)
Fixpoint session (st : State) (es : list Event) : State * list (State * Effect) :=
  match es with
  | [] => (st, [])
  | e :: rest =>
      let '(st', effs) := step st e in
      let '(final, log) := session st' rest in
      (final, map (fun eff => (st, eff)) effs ++ log)
  end.

End MultiAngleCapture.

(** ** LoadingAnalysis.tsx *)
Module LoadingAnalysis.

Record AnalysisStep := {
  stepId : nat;
  stepTitle : string;
  stepDescription : string;
  hindiDescription : string;
  stepDuration : Z
}.

Definition analysisSteps : list AnalysisStep :=
  [ {| stepId := 1; stepTitle := "Processing Image";
       stepDescription := "Analyzing image quality and features";
       hindiDescription := "छवि की गुणवत्ता का विश्लेषण";
       stepDuration := 2000 |};
    {| stepId := 2; stepTitle := "AI Model Analysis";
       stepDescription := "Running breed classification model";
       hindiDescription := "नस्ल वर्गीकरण मॉडल चलाया जा रहा है";
       stepDuration := 3000 |};
    {| stepId := 3; stepTitle := "Matching Database";
       stepDescription := "Comparing with breed database";
       hindiDescription := "नस्ल डेटाबेस से तुलना";
       stepDuration := 2000 |} ].

(** What the effect does that is visible from outside a task. *)
Inductive Action :=
| SetCurrentStep (i : nat)
| SetProgress (p : Q)
| OnComplete.

(** The props, the two state hooks, [totalProgress] (the variable of
    [runAnalysis] that its closures share) and the log of actions, each
    with the time it happened at. *)
Record State := {
  image : string;
  currentStep : nat;
  progress : Q;
  totalProgress : Q;
  log : list (Z * Action)
}.

Inductive Task :=
| RunAnalysis
| AnimateProgress (i : nat) (stepStart stepEnd : Q) (startTime : Z)
| StepElapsed (i : nat)
| Complete.

Definition setCurrentStep (t : Z) (i : nat) (st : State) : State :=
  {| image := image st; currentStep := i; progress := progress st;
     totalProgress := totalProgress st; log := log st ++ [(t, SetCurrentStep i)] |}.

Definition setProgress (t : Z) (p : Q) (st : State) : State :=
  {| image := image st; currentStep := currentStep st; progress := p;
     totalProgress := totalProgress st; log := log st ++ [(t, SetProgress p)] |}.

Definition setTotalProgress (p : Q) (st : State) : State :=
  {| image := image st; currentStep := currentStep st; progress := progress st;
     totalProgress := p; log := log st |}.

Definition onComplete (t : Z) (st : State) : State :=
  {| image := image st; currentStep := currentStep st; progress := progress st;
     totalProgress := totalProgress st; log := log st ++ [(t, OnComplete)] |}.

(** [((i + 1) / analysisSteps.length) * 100] *)
Definition stepEndOf (i : nat) : Q :=
  Qred ((inject_Z (Z.of_nat (i + 1)) / inject_Z (Z.of_nat (length analysisSteps))) * 100).

Definition animateProgress (i : nat) (stepStart stepEnd : Q) (startTime : Z)
                           (t : Z) (st : State) : State * list (Z * Task) :=
  match nth_error analysisSteps i with
  | None => (st, [])
  | Some step =>
      let elapsed := inject_Z (t - startTime) in
      let ratio := elapsed / inject_Z (stepDuration step) in
      let stepProgress := if Qle_bool ratio 1 then ratio else 1 in
      let currentProgress := Qred (stepStart + (stepEnd - stepStart) * stepProgress) in
      let st1 := setProgress t currentProgress st in
      if JS.ltb stepProgress 1
      then (st1, [(50%Z, AnimateProgress i stepStart stepEnd startTime)])
      else (setTotalProgress stepEnd st1, [])
  end.

(** The [for] loop of [runAnalysis] entered at index [i], up to its
    next [await]; past the last step, the two closing statements. *)
Definition iteration (i : nat) (t : Z) (st : State) : State * list (Z * Task) :=
  match nth_error analysisSteps i with
  | Some step =>
      let st1 := setCurrentStep t i st in
      let stepStart := totalProgress st1 in
      let stepEnd := stepEndOf i in
      let '(st2, animation) := animateProgress i stepStart stepEnd t t st1 in
      (st2, animation ++ [(stepDuration step, StepElapsed i)])
  | None =>
      (setProgress t 100 st, [(500%Z, Complete)])
  end.

Definition exec (task : Task) (t : Z) (st : State) : State * list (Z * Task) :=
  match task with
  | RunAnalysis => iteration 0 t (setTotalProgress 0 st)
  | AnimateProgress i stepStart stepEnd startTime =>
      animateProgress i stepStart stepEnd startTime t st
  | StepElapsed i => iteration (S i) t st
  | Complete => (onComplete t st, [])
  end.

(** The component right after its effect has run, mounted at time 0. *)
Definition mount (img : string) : Loop State Task :=
  dispatch State Task exec RunAnalysis
    {| now := 0;
       state := {| image := img; currentStep := 0; progress := 0;
                   totalProgress := 0; log := [] |};
       timers := [] |}.

Definition runFor (fuel : nat) (img : string) : Loop State Task :=
  run State Task exec fuel (mount img).

Definition isProgress (a : Action) : bool :=
  match a with
  | SetProgress _ => true
  | _ => false
  end.

Definition isOnComplete (a : Action) : bool :=
  match a with
  | OnComplete => true
  | _ => false
  end.

(** The log without the progress animation, which only moves the bar. *)
Definition milestones (l : Loop State Task) : list (Z * Action) :=
  filter (fun e => negb (isProgress (snd e))) (log (state l)).

(** The values the progress bar was set to, in order. *)
Definition progressValues (l : Loop State Task) : list (Z * Q) :=
  flat_map (fun e => match snd e with
                     | SetProgress p => [(fst e, p)]
                     | _ => []
                     end) (log (state l)).

Definition completions (l : Loop State Task) : list Z :=
  map fst (filter (fun e => isOnComplete (snd e)) (log (state l))).

(** The timers of a whole analysis: 140 animation frames, 3 step
    timers and the completion timer. *)
Definition timersOfARun : nat := 144.

(** What a whole analysis did: the step changes and the completion,
    the last value of the bar, the times of the calls of [onComplete],
    the clock, and whether the queue is empty. *)
Definition summary (img : string) :=
  let l := runFor timersOfARun img in
  (milestones l, last (progressValues l) (0%Z, 0%Q), completions l, now l, quiescent l).

End LoadingAnalysis.

(** ** The page component [BreedAI] (the index page) *)
Module BreedAI.

Import BreedResults.

(** [type AppState = "home" | "capture" | ...]: the type is erased at
    run time, where the mode is a string. *)
Definition AppState := string.

Definition AppState_values : list AppState :=
  [ "home"; "capture"; "multi-angle"; "batch"; "analytics"; "location";
    "voice"; "analyzing"; "results"; "database"; "confirmed" ].

(** Mock data for demonstration *)
Definition mockPredictions : list BreedPrediction :=
  [ {| name := "Gir"; hindiName := "गीर"; confidence := 87;
       characteristics := ["Drought resistant"; "High milk yield";
                           "Distinctive forehead"; "White patches"];
       region := "Gujarat, Rajasthan" |};
    {| name := "Sahiwal"; hindiName := "साहीवाल"; confidence := 72;
       characteristics := ["Heat tolerant"; "Good milk producer"; "Docile nature"];
       region := "Punjab, Haryana" |};
    {| name := "Red Sindhi"; hindiName := "लाल सिंधी"; confidence := 64;
       characteristics := ["Heat resistant"; "Good grazer"; "Hardy breed"];
       region := "Maharashtra, Karnataka" |} ].

Record State := {
  currentState : AppState;
  capturedImage : option string;
  confirmedBreed : option BreedPrediction;
  toasts : list JS.Toast
}.

Definition initial : State :=
  {| currentState := "home"; capturedImage := None; confirmedBreed := None; toasts := [] |}.

Definition setCurrentState (mode : AppState) (st : State) : State :=
  {| currentState := mode; capturedImage := capturedImage st;
     confirmedBreed := confirmedBreed st; toasts := toasts st |}.

Definition setCapturedImage (img : option string) (st : State) : State :=
  {| currentState := currentState st; capturedImage := img;
     confirmedBreed := confirmedBreed st; toasts := toasts st |}.

Definition setConfirmedBreed (b : option BreedPrediction) (st : State) : State :=
  {| currentState := currentState st; capturedImage := capturedImage st;
     confirmedBreed := b; toasts := toasts st |}.

Definition toast (t : JS.Toast) (st : State) : State :=
  {| currentState := currentState st; capturedImage := capturedImage st;
     confirmedBreed := confirmedBreed st; toasts := toasts st ++ [t] |}.

Definition handleImageCapture (file : JS.File) (imageUrl : string) (st : State) : State :=
  setCurrentState "analyzing" (setCapturedImage (Some imageUrl) st).

Definition handleAnalysisComplete (st : State) : State :=
  setCurrentState "results" st.

Definition handleBreedConfirm (breed : BreedPrediction) (st : State) : State :=
  toast {| JS.title := "Breed Confirmed!";
           JS.description := name breed ++ " (" ++ hindiName breed ++
                             ") has been confirmed and will be sent to BPA.";
           JS.destructive := false; JS.duration := Some 4000%Z |}
        (setCurrentState "confirmed" (setConfirmedBreed (Some breed) st)).

Definition handleBreedCorrect (st : State) : State :=
  setCurrentState "capture"
    (toast {| JS.title := "Feedback Recorded";
              JS.description :=
                "Your correction has been noted. This helps improve our AI model.";
              JS.destructive := false; JS.duration := None |} st).

Definition handleStartOver (st : State) : State :=
  setCurrentState "home" (setConfirmedBreed None (setCapturedImage None st)).

(** The [onComplete] prop handed to [MultiAngleCapture]:
    [images[0]?.url || null], then the mode. *)
Definition multiAngleOnComplete (images : list MultiAngleCapture.CapturedImage)
                                (st : State) : State :=
  setCurrentState "analyzing"
    (setCapturedImage (JS.truthy (option_map MultiAngleCapture.url (hd_error images))) st).

(** The buttons whose handler is an inline [() => setCurrentState(..)]. *)
Inductive Button :=
| QuickAnalysis | MultiAngleAnalysis | BatchProcessingButton | ViewAnalytics
| LocationServices | VoiceCommandsButton | BreedDatabaseButton
| BackToHome | MultiAngleBack | BatchBack | ResultsBack | ViewBreedDatabase.

Definition target (b : Button) : AppState :=
  match b with
  | QuickAnalysis => "capture"
  | MultiAngleAnalysis => "multi-angle"
  | BatchProcessingButton => "batch"
  | ViewAnalytics => "analytics"
  | LocationServices => "location"
  | VoiceCommandsButton => "voice"
  | BreedDatabaseButton => "database"
  | BackToHome => "home"
  | MultiAngleBack => "home"
  | BatchBack => "home"
  | ResultsBack => "capture"
  | ViewBreedDatabase => "database"
  end.

(** Every callback of the component that changes its state. *)
Inductive Callback :=
| Click (b : Button)
| HandleImageCapture (file : JS.File) (imageUrl : string)
| HandleAnalysisComplete
| HandleBreedConfirm (breed : BreedPrediction)
| HandleBreedCorrect
| HandleStartOver
| MultiAngleOnComplete (images : list MultiAngleCapture.CapturedImage).

(** A callback is a closure over the setters only, so it does the same
    whenever it is called, also after its screen is gone (the timer of
    [LoadingAnalysis] that calls [onComplete] is never cleared). *)
Definition step (st : State) (c : Callback) : State :=
  match c with
  | Click b => setCurrentState (target b) st
  | HandleImageCapture file imageUrl => handleImageCapture file imageUrl st
  | HandleAnalysisComplete => handleAnalysisComplete st
  | HandleBreedConfirm breed => handleBreedConfirm breed st
  | HandleBreedCorrect => handleBreedCorrect st
  | HandleStartOver => handleStartOver st
  | MultiAngleOnComplete images => multiAngleOnComplete images st
  end.

Definition steps (st : State) (cs : list Callback) : State := fold_left step cs st.

(** What [renderContent] returns: the child component and the props
    that carry data; [Nothing] is [null]. *)
Inductive Screen :=
| HomeScreen
| MultiAngleScreen
| BatchScreen
| AnalyticsScreen
| LocationScreen
| VoiceScreen
| CaptureScreen
| LoadingScreen (image : string)
| ResultsScreen (image : string) (predictions : list BreedPrediction)
| DatabaseScreen
| ConfirmedScreen (breed : option BreedPrediction)
| Nothing.

Definition renderContent (st : State) : Screen :=
  let mode := currentState st in
  if mode =? "home" then HomeScreen
  else if mode =? "multi-angle" then MultiAngleScreen
  else if mode =? "batch" then BatchScreen
  else if mode =? "analytics" then AnalyticsScreen
  else if mode =? "location" then LocationScreen
  else if mode =? "voice" then VoiceScreen
  else if mode =? "capture" then CaptureScreen
  else if mode =? "analyzing" then
    match JS.truthy (capturedImage st) with
    | Some img => LoadingScreen img
    | None => Nothing
    end
  else if mode =? "results" then
    match JS.truthy (capturedImage st) with
    | Some img => ResultsScreen img mockPredictions
    | None => Nothing
    end
  else if mode =? "database" then DatabaseScreen
  else if mode =? "confirmed" then ConfirmedScreen (confirmedBreed st)
  else Nothing.

(** The callbacks the screen of a state offers to the user or to the
    child component it renders. *)
Definition offered (st : State) (c : Callback) : bool :=
  match c, renderContent st with
  | Click BackToHome, _ => negb (currentState st =? "home")
  | Click QuickAnalysis, HomeScreen
  | Click MultiAngleAnalysis, HomeScreen
  | Click BatchProcessingButton, HomeScreen
  | Click ViewAnalytics, HomeScreen
  | Click LocationServices, HomeScreen
  | Click VoiceCommandsButton, HomeScreen
  | Click BreedDatabaseButton, HomeScreen => true
  | Click MultiAngleBack, MultiAngleScreen => true
  | MultiAngleOnComplete _, MultiAngleScreen => true
  | Click BatchBack, BatchScreen => true
  | HandleImageCapture _ _, CaptureScreen => true
  | HandleAnalysisComplete, LoadingScreen _ => true
  | Click ResultsBack, ResultsScreen _ _ => true
  | HandleBreedConfirm _, ResultsScreen _ _ => true
  | HandleBreedCorrect, ResultsScreen _ _ => true
  | HandleStartOver, ConfirmedScreen _ => true
  | Click ViewBreedDatabase, ConfirmedScreen _ => true
  | _, _ => false
  end.

(** States the user can bring about through the screens. *)
Inductive reachable : State -> Prop :=
| reachable_initial : reachable initial
| reachable_step st c : reachable st -> offered st c = true -> reachable (step st c).

(** Each callback of [cs] is offered by the screen it is called on. *)
Fixpoint offeredAlong (st : State) (cs : list Callback) : bool :=
  match cs with
  | [] => true
  | c :: rest => offered st c && offeredAlong (step st c) rest
  end.

(** The number of modes of [AppState_values] that equal the current one. *)
Definition activeModes (st : State) : nat :=
  length (filter (fun mode => currentState st =? mode) AppState_values).

End BreedAI.

(** ** VoiceCommands.tsx *)
Module VoiceCommands.

Record Command := {
  id : string;
  english : string;
  hindi : string;
  action : string;
  description : string
}.

Definition voiceCommands : list Command :=
  [ {| id := "take_photo"; english := "take photo"; hindi := "फोटो लें";
       action := "takePhoto"; description := "Capture a new image" |};
    {| id := "confirm_breed"; english := "confirm breed"; hindi := "नस्ल की पुष्टि";
       action := "confirmBreed"; description := "Confirm the identified breed" |};
    {| id := "retake_photo"; english := "retake photo"; hindi := "दोबारा फोटो लें";
       action := "retakePhoto"; description := "Capture image again" |};
    {| id := "need_correction"; english := "need correction"; hindi := "सुधार चाहिए";
       action := "needCorrection"; description := "Report incorrect identification" |};
    {| id := "start_camera"; english := "start camera"; hindi := "कैमरा शुरू करें";
       action := "startCamera"; description := "Activate camera" |};
    {| id := "go_back"; english := "go back"; hindi := "वापस जाएं";
       action := "goBack"; description := "Navigate to previous screen" |};
    {| id := "help"; english := "help"; hindi := "मदद";
       action := "showHelp"; description := "Show available commands" |} ].

Inductive Language := En | Hi.

Record State := {
  isListening : bool;
  isEnabled : bool;
  isSpeechSupported : bool;
  lastCommand : option string;
  confidence : Q;
  language : Language;
  voiceEnabled : bool
}.

(** The surroundings of a call: whether the optional [onCommand] prop
    was given and whether the window has [speechSynthesis]. *)
Record Env := { hasOnCommand : bool; hasSpeechSynthesis : bool }.

Record Utterance := { text : string; lang : string; rate : Q; volume : Q }.

Inductive Effect :=
| OnCommand (action : string)
| SpeechSynthesisSpeak (u : Utterance)
| ShowToast (t : JS.Toast).

Definition speak (env : Env) (st : State) (txt : string) (l : Language) : list Effect :=
  if negb (voiceEnabled st) || negb (hasSpeechSynthesis env) then []
  else [ SpeechSynthesisSpeak
           {| text := txt;
              lang := match l with Hi => "hi-IN" | En => "en-US" end;
              rate := 9 # 10; volume := 8 # 10 |} ].

Section WithStringPrimitives.

Variables toLowerCase trim : string -> string.

Definition normalize (transcript : string) : string :=
  trim (toLowerCase transcript).

(** The predicate handed to [voiceCommands.find]. *)
Definition matches (normalizedTranscript : string) (cmd : Command) : bool :=
  JS.includes normalizedTranscript (toLowerCase (english cmd)) ||
  JS.includes normalizedTranscript (hindi cmd).

Definition processCommand (env : Env) (st : State)
                          (transcript : string) (conf : Q) : State * list Effect :=
  let normalizedTranscript := normalize transcript in
  let matchedCommand := find (matches normalizedTranscript) voiceCommands in
  match matchedCommand with
  | Some cmd =>
      if JS.gtb conf (7 # 10) then
        let st' := {| isListening := isListening st; isEnabled := isEnabled st;
                      isSpeechSupported := isSpeechSupported st;
                      lastCommand := Some (english cmd); confidence := conf;
                      language := language st; voiceEnabled := voiceEnabled st |} in
        let feedback := match language st with
                        | Hi => (hindi cmd ++ " - आदेश मिला")%string
                        | En => (english cmd ++ " - command received")%string
                        end in
        (st',
         (if hasOnCommand env then [OnCommand (action cmd)] else []) ++
         speak env st feedback (language st) ++
         [ ShowToast {| JS.title := "Voice Command";
                        JS.description := ("Executed: " ++ description cmd)%string;
                        JS.destructive := false; JS.duration := None |} ])
      else
        (st, speak env st (match language st with
                           | Hi => "समझ नहीं आया, कृपया दोहराएं"
                           | En => "Sorry, I didn't understand that"
                           end) (language st))
  | None =>
      (st, speak env st (match language st with
                         | Hi => "समझ नहीं आया, कृपया दोहराएं"
                         | En => "Sorry, I didn't understand that"
                         end) (language st))
  end.

(** The actions [processCommand] hands to [onCommand]. *)
Definition dispatched (env : Env) (st : State) (transcript : string) (conf : Q)
  : list string :=
  flat_map (fun e => match e with OnCommand a => [a] | _ => [] end)
           (snd (processCommand env st transcript conf)).

End WithStringPrimitives.

End VoiceCommands.

(** ** BreedDatabase.tsx *)
Module BreedDatabase.

Record Breed := {
  id : string;
  name : string;
  hindiName : string;
  type : string;
  region : string;
  characteristics : list string;
  avgWeight : string;
  milkYield : string;
  color : string
}.

Definition breedDatabase : list Breed :=
  [ {| id := "1"; name := "Gir"; hindiName := "गीर"; type := "cattle";
       region := "Gujarat, Rajasthan";
       characteristics := ["Drought resistant"; "High milk yield"; "Distinctive forehead"];
       avgWeight := "350-400 kg"; milkYield := "10-15 L/day";
       color := "Light to dark red with white patches" |};
    {| id := "2"; name := "Sahiwal"; hindiName := "साहीवाल"; type := "cattle";
       region := "Punjab, Haryana";
       characteristics := ["Heat tolerant"; "Good milk producer"; "Docile nature"];
       avgWeight := "300-400 kg"; milkYield := "8-12 L/day";
       color := "Light to medium brown" |};
    {| id := "3"; name := "Red Sindhi"; hindiName := "लाल सिंधी"; type := "cattle";
       region := "Maharashtra, Karnataka";
       characteristics := ["Heat resistant"; "Good grazer"; "Hardy breed"];
       avgWeight := "300-350 kg"; milkYield := "6-10 L/day";
       color := "Dark red to light red" |};
    {| id := "4"; name := "Murrah"; hindiName := "मुर्रा"; type := "buffalo";
       region := "Haryana, Punjab, UP";
       characteristics := ["High milk yield"; "Strong build"; "Curved horns"];
       avgWeight := "500-600 kg"; milkYield := "12-18 L/day";
       color := "Jet black" |};
    {| id := "5"; name := "Nili Ravi"; hindiName := "नीली रावी"; type := "buffalo";
       region := "Punjab, Haryana";
       characteristics := ["High milk yield"; "Wall eyes"; "White markings"];
       avgWeight := "450-550 kg"; milkYield := "15-20 L/day";
       color := "Black with white markings" |};
    {| id := "6"; name := "Jaffarabadi"; hindiName := "जाफराबादी"; type := "buffalo";
       region := "Gujarat";
       characteristics := ["Large size"; "Curved horns"; "Good draft animal"];
       avgWeight := "600-800 kg"; milkYield := "8-12 L/day";
       color := "Black" |} ].

Section WithStringPrimitives.

Variable toLowerCase : string -> string.

Definition matchesSearch (searchTerm : string) (breed : Breed) : bool :=
  JS.includes (toLowerCase (name breed)) (toLowerCase searchTerm) ||
  JS.includes (hindiName breed) searchTerm ||
  JS.includes (toLowerCase (region breed)) (toLowerCase searchTerm).

Definition matchesType (selectedType : string) (breed : Breed) : bool :=
  (selectedType =? "all") || (type breed =? selectedType).

Definition filteredBreeds (searchTerm selectedType : string) : list Breed :=
  filter (fun breed => matchesSearch searchTerm breed && matchesType selectedType breed)
         breedDatabase.

End WithStringPrimitives.

End BreedDatabase.

(** ** BatchProcessing.tsx *)
Module BatchProcessing.

Record Result := { breed : string; confidence : Q; timestamp : Z }.

Record BatchItem := {
  id : string;
  fileName : string;
  imageUrl : string;
  status : string;
  progress : Z;
  result : option Result;
  error : option string
}.

Record MockResult := { mockBreed : string; mockConfidence : Q }.

Definition mockBreedResults : list MockResult :=
  [ {| mockBreed := "Gir"; mockConfidence := 87 |};
    {| mockBreed := "Sahiwal"; mockConfidence := 82 |};
    {| mockBreed := "Murrah"; mockConfidence := 91 |};
    {| mockBreed := "Red Sindhi"; mockConfidence := 76 |};
    {| mockBreed := "Nili Ravi"; mockConfidence := 89 |} ].

(** The state hooks, the toasts shown so far, and how many times
    [Math.random] and [URL.createObjectURL] have been called. *)
Record State := {
  batchItems : list BatchItem;
  isProcessing : bool;
  currentProcessingIndex : nat;
  toasts : list JS.Toast;
  draws : nat;
  urls : nat
}.

Definition initial : State :=
  {| batchItems := []; isProcessing := false; currentProcessingIndex := 0;
     toasts := []; draws := 0; urls := 0 |}.

Definition setBatchItems (f : list BatchItem -> list BatchItem) (st : State) : State :=
  {| batchItems := f (batchItems st); isProcessing := isProcessing st;
     currentProcessingIndex := currentProcessingIndex st; toasts := toasts st;
     draws := draws st; urls := urls st |}.

Definition setIsProcessing (b : bool) (st : State) : State :=
  {| batchItems := batchItems st; isProcessing := b;
     currentProcessingIndex := currentProcessingIndex st; toasts := toasts st;
     draws := draws st; urls := urls st |}.

Definition setCurrentProcessingIndex (f : nat -> nat) (st : State) : State :=
  {| batchItems := batchItems st; isProcessing := isProcessing st;
     currentProcessingIndex := f (currentProcessingIndex st); toasts := toasts st;
     draws := draws st; urls := urls st |}.

Definition toast (t : JS.Toast) (st : State) : State :=
  {| batchItems := batchItems st; isProcessing := isProcessing st;
     currentProcessingIndex := currentProcessingIndex st; toasts := toasts st ++ [t];
     draws := draws st; urls := urls st |}.

Definition drawn (n : nat) (st : State) : State :=
  {| batchItems := batchItems st; isProcessing := isProcessing st;
     currentProcessingIndex := currentProcessingIndex st; toasts := toasts st;
     draws := draws st + n; urls := urls st |}.

Definition urlMade (st : State) : State :=
  {| batchItems := batchItems st; isProcessing := isProcessing st;
     currentProcessingIndex := currentProcessingIndex st; toasts := toasts st;
     draws := draws st; urls := urls st + 1 |}.

(** The three object spreads of [processNextItem]. *)
Definition withStatus (s : string) (item : BatchItem) : BatchItem :=
  {| id := id item; fileName := fileName item; imageUrl := imageUrl item;
     status := s; progress := progress item; result := result item; error := error item |}.

Definition withProgress (p : Z) (item : BatchItem) : BatchItem :=
  {| id := id item; fileName := fileName item; imageUrl := imageUrl item;
     status := status item; progress := p; result := result item; error := error item |}.

Definition finished (success : bool) (randomResult : MockResult) (clock : Z)
                    (item : BatchItem) : BatchItem :=
  {| id := id item; fileName := fileName item; imageUrl := imageUrl item;
     status := if success then "completed" else "error";
     progress := progress item;
     result := if success
               then Some {| breed := mockBreed randomResult;
                            confidence := mockConfidence randomResult;
                            timestamp := clock |}
               else None;
     error := if success then None
              else Some "Failed to process image. Please try again." |}.

(** [prev.map((item, index) => index === i ? f(item) : item)] *)
Definition updateAt (i : nat) (f : BatchItem -> BatchItem)
                    (prev : list BatchItem) : list BatchItem :=
  JS.mapi (fun item index => if (index =? i)%nat then f item else item) prev.

(** [array[i]] for a number [i]; [None] is [undefined]. *)
Definition at_ {A : Type} (l : list A) (i : Z) : option A :=
  if (i <? 0)%Z then None else nth_error l (Z.to_nat i).

Definition completeToast : JS.Toast :=
  {| JS.title := "Batch Processing Complete";
     JS.description := "All images have been processed successfully!";
     JS.destructive := false; JS.duration := None |}.

Inductive Task :=
| AddImagesToBatch (files : option (list JS.File))
| RemoveItem (item_id : string)
| ClearBatch
| StartBatchProcessing
| PauseProcessing
| ResumeProcessing
| ProcessNextItem (index : nat) (items : list BatchItem)
| AfterDelay (index : nat) (progressValue : Z).

Section WithEnvironment.

(** The [k]-th value of [Math.random], the URL that the [k]-th call of
    [URL.createObjectURL] returns, and the text of a number in a
    template literal. *)
Variable random : nat -> Q.
Variable createObjectURL : nat -> JS.File -> string.
Variable numberToString : Q -> string.

(** The item made for an image file, with the [k]-th draw in its id and
    the [u]-th object URL. *)
Definition newItem (clock : Z) (file : JS.File) (k u : nat) : BatchItem :=
  {| id := ("batch-" ++ numberToString (inject_Z clock) ++ "-" ++
            numberToString (random k))%string;
     fileName := JS.fileName file;
     imageUrl := createObjectURL u file;
     status := "pending";
     progress := 0;
     result := None;
     error := None |}.

Definition addFile (clock : Z) (st : State) (file : JS.File) : State :=
  if JS.startsWith (JS.fileType file) "image/" then
    setBatchItems (fun prev => prev ++ [newItem clock file (draws st) (urls st)])
                  (urlMade (drawn 1 st))
  else st.

Definition addImagesToBatch (files : option (list JS.File)) (clock : Z)
                            (st : State) : State :=
  match files with
  | None => st
  | Some fs =>
      toast {| JS.title := "Images Added";
               JS.description :=
                 (JS.natToString (length fs) ++ " images added to batch queue")%string;
               JS.destructive := false; JS.duration := None |}
            (fold_left (addFile clock) fs st)
  end.

Definition removeItem (item_id : string) (st : State) : State :=
  setBatchItems (filter (fun item => negb (id item =? item_id))) st.

Definition clearBatch (st : State) : State :=
  setCurrentProcessingIndex (fun _ => 0%nat) (setBatchItems (fun _ => []) st).

Definition startBatchProcessing (st : State) : State :=
  if (length (batchItems st) =? 0)%nat then
    toast {| JS.title := "No Images"; JS.description := "Please add images to process";
             JS.destructive := true; JS.duration := None |} st
  else setCurrentProcessingIndex (fun _ => 0%nat) (setIsProcessing true st).

Definition pauseProcessing (st : State) : State := setIsProcessing false st.

Definition resumeProcessing (st : State) : State := setIsProcessing true st.

(** The end of [processNextItem], after the progress loop: two
    draws, the outcome written to the item, the index moved on.
    With no mock result at the drawn index, reading [breed] of
    [undefined] throws on the success path and nothing is written. *)
Definition complete (index : nat) (clock : Z) (st : State) : State :=
  let r1 := random (draws st) in
  let r2 := random (S (draws st)) in
  let st1 := drawn 2 st in
  let success := JS.gtb r2 (1 # 10) in
  match at_ mockBreedResults (JS.floorIndex r1 (length mockBreedResults)) with
  | Some randomResult =>
      setCurrentProcessingIndex S
        (setBatchItems (updateAt index (finished success randomResult clock)) st1)
  | None =>
      if success then st1
      else
        setCurrentProcessingIndex S
          (setBatchItems
             (updateAt index (finished false {| mockBreed := ""; mockConfidence := 0 |} clock))
             st1)
  end.

(** The progress loop entered with [progress = p]: the next [await]
    of 150 ms, or past 100 the end of the function. *)
Definition progressLoop (index : nat) (p : Z) (clock : Z) (st : State)
  : State * list (Z * Task) :=
  if (p <=? 100)%Z then (st, [(150%Z, AfterDelay index p)])
  else (complete index clock st, []).

Definition processNextItem (index : nat) (items : list BatchItem) (clock : Z)
                           (st : State) : State * list (Z * Task) :=
  if (length items <=? index)%nat then
    (toast completeToast (setIsProcessing false st), [])
  else
    progressLoop index 0 clock
      (setBatchItems (updateAt index (withStatus "processing")) st).

Definition afterDelay (index : nat) (p : Z) (clock : Z) (st : State)
  : State * list (Z * Task) :=
  progressLoop index (p + 10) clock
    (setBatchItems (updateAt index (withProgress p)) st).

(** The statement in the body of the component, run at every render:
    [if (isProcessing && currentProcessingIndex < batchItems.length)
       setTimeout(processNextItem, 100)].  The callback closes over
    the index and the queue of that render. *)
Definition render (st : State) : list (Z * Task) :=
  if isProcessing st && (currentProcessingIndex st <? length (batchItems st))%nat
  then [(100%Z, ProcessNextItem (currentProcessingIndex st) (batchItems st))]
  else [].

Definition body (task : Task) (clock : Z) (st : State) : State * list (Z * Task) :=
  match task with
  | AddImagesToBatch files => (addImagesToBatch files clock st, [])
  | RemoveItem item_id => (removeItem item_id st, [])
  | ClearBatch => (clearBatch st, [])
  | StartBatchProcessing => (startBatchProcessing st, [])
  | PauseProcessing => (pauseProcessing st, [])
  | ResumeProcessing => (resumeProcessing st, [])
  | ProcessNextItem index items => processNextItem index items clock st
  | AfterDelay index p => afterDelay index p clock st
  end.

(** A task, then the render its state updates cause (updates made in
    one task are batched into one render). *)
Definition exec (task : Task) (clock : Z) (st : State) : State * list (Z * Task) :=
  let '(st', registered) := body task clock st in
  (st', registered ++ render st').

Definition mounted : Loop State Task :=
  {| now := 0; state := initial; timers := [] |}.

(** The user adds [files] and presses "Start Processing". *)
Definition started (files : list JS.File) : Loop State Task :=
  dispatch State Task exec StartBatchProcessing
    (dispatch State Task exec (AddImagesToBatch (Some files)) mounted).

Definition runFor (fuel : nat) (files : list JS.File) : Loop State Task :=
  run State Task exec fuel (started files).

End WithEnvironment.

Definition isCompleteToast (t : JS.Toast) : bool :=
  JS.title t =? "Batch Processing Complete".

(** A timer of the component that does not take the first branch of
    [processNextItem]: a continuation of the progress loop, or a call
    whose closure has its index inside its queue. *)
Definition pastTheGuard (t : Timer Task) : Prop :=
  match callback t with
  | ProcessNextItem index items => (index < length items)%nat
  | AfterDelay _ _ => True
  | _ => False
  end.

(** Processing is on, the completion toast has not been shown, and no
    pending timer will show it. *)
Definition stillProcessing (l : Loop State Task) : Prop :=
  isProcessing (state l) = true /\
  filter isCompleteToast (toasts (state l)) = [] /\
  Forall pastTheGuard (timers l).

(** The files that [addImagesToBatch] lets through. *)
Definition isImage (f : JS.File) : bool := JS.startsWith (JS.fileType f) "image/".

(** The progress values of the queue items, in queue order. *)
Definition progressBars (l : Loop State Task) : list Z :=
  map progress (batchItems (state l)).

(** The invocations of [processNextItem] for [index] that are waiting
    in their progress loop. *)
Definition inFlight (index : nat) (q : list (Timer Task)) : list Z :=
  flat_map (fun t => match callback t with
                     | AfterDelay i p => if (i =? index)%nat then [p] else []
                     | _ => []
                     end) q.

End BatchProcessing.

(** ** GeolocationFeatures.tsx *)
Module GeolocationFeatures.

Record LocationData := {
  latitude : Q;
  longitude : Q;
  accuracy : Q;
  timestamp : Z;
  address : option string;
  district : option string;
  state : option string;
  country : option string
}.

Record State := {
  location : option LocationData;
  isLoading : bool;
  error : option string;
  manualLocation : string;
  selectedState : string;
  toasts : list JS.Toast
}.

(** Whether [navigator.geolocation] exists and whether the optional
    [onLocationUpdate] prop was given. *)
Record Env := { hasGeolocation : bool; hasOnLocationUpdate : bool }.

Record Coords := { coordsLatitude : Q; coordsLongitude : Q; coordsAccuracy : Q }.

(** How [getCurrentPosition] ends: with a position, or with an error
    whose [code] is 1, 2 or 3 for a [GeolocationPositionError]; [None]
    is an error without a code. *)
Inductive Outcome :=
| Resolved (coords : Coords)
| Rejected (code : option Z).

Inductive Effect :=
| OnLocationUpdate (l : LocationData).

Definition setLocation (l : option LocationData) (st : State) : State :=
  {| location := l; isLoading := isLoading st; error := error st;
     manualLocation := manualLocation st; selectedState := selectedState st;
     toasts := toasts st |}.

Definition setIsLoading (b : bool) (st : State) : State :=
  {| location := location st; isLoading := b; error := error st;
     manualLocation := manualLocation st; selectedState := selectedState st;
     toasts := toasts st |}.

Definition setError (e : option string) (st : State) : State :=
  {| location := location st; isLoading := isLoading st; error := e;
     manualLocation := manualLocation st; selectedState := selectedState st;
     toasts := toasts st |}.

Definition setSelectedState (s : string) (st : State) : State :=
  {| location := location st; isLoading := isLoading st; error := error st;
     manualLocation := manualLocation st; selectedState := s;
     toasts := toasts st |}.

Definition toast (t : JS.Toast) (st : State) : State :=
  {| location := location st; isLoading := isLoading st; error := error st;
     manualLocation := manualLocation st; selectedState := selectedState st;
     toasts := toasts st ++ [t] |}.

(** [`${Math.round(x)}`] *)
Definition roundToString (x : Q) : string :=
  let n := Qfloor (x + (1 # 2)) in
  if (n <? 0)%Z then ("-" ++ JS.natToString (Z.to_nat (- n)))%string
  else JS.natToString (Z.to_nat n).

Record MockAddress := {
  mockAddress : string;
  mockDistrict : string;
  mockState : string;
  mockCountry : string
}.

Definition errorMessageOf (code : option Z) : string :=
  match code with
  | Some 1%Z => "Location access denied. Please enable location permissions."
  | Some 2%Z => "Location unavailable. Please check your GPS settings."
  | Some 3%Z => "Location request timed out. Please try again."
  | _ => "Failed to get location"
  end.

Section WithFormatting.

(** [Number.prototype.toFixed] *)
Variable toFixed : Q -> nat -> string.

(** Mock reverse geocoding function *)
Definition reverseGeocode (lat lng : Q) (st : State) : State * MockAddress :=
  let mockData :=
    {| mockAddress := ("Latitude: " ++ toFixed lat 4 ++ ", Longitude: " ++
                       toFixed lng 4)%string;
       mockDistrict := "Sample District";
       mockState := if JS.gtb lat 26 then "Punjab"
                    else if JS.gtb lat 23 then "Gujarat" else "Maharashtra";
       mockCountry := "India" |} in
  (setSelectedState (mockState mockData) st, mockData).

(** [{ ...locationData, ...mockAddress }] *)
Definition merge (l : LocationData) (m : MockAddress) : LocationData :=
  {| latitude := latitude l; longitude := longitude l; accuracy := accuracy l;
     timestamp := timestamp l;
     address := Some (mockAddress m); district := Some (mockDistrict m);
     state := Some (mockState m); country := Some (mockCountry m) |}.

(** The [try] block after the position has arrived. *)
Definition onPosition (env : Env) (coords : Coords) (clock : Z) (st : State)
  : State * list Effect :=
  let locationData :=
    {| latitude := coordsLatitude coords; longitude := coordsLongitude coords;
       accuracy := coordsAccuracy coords; timestamp := clock;
       address := None; district := None; state := None; country := None |} in
  let '(st1, mock) := reverseGeocode (latitude locationData) (longitude locationData) st in
  let updatedLocation := merge locationData mock in
  (toast {| JS.title := "Location Updated";
            JS.description := ("Location captured with " ++
                               roundToString (accuracy locationData) ++ "m accuracy")%string;
            JS.destructive := false; JS.duration := None |}
         (setLocation (Some updatedLocation) st1),
   if hasOnLocationUpdate env then [OnLocationUpdate updatedLocation] else []).

(** The [catch] block. *)
Definition onError (code : option Z) (st : State) : State :=
  let errorMessage := errorMessageOf code in
  toast {| JS.title := "Location Error"; JS.description := errorMessage;
           JS.destructive := true; JS.duration := None |}
        (setError (Some errorMessage) st).

(** A whole call, from the click or the mount to the [finally] block. *)
Definition getCurrentLocation (env : Env) (outcome : Outcome) (clock : Z) (st : State)
  : State * list Effect :=
  if negb (hasGeolocation env) then
    (setError (Some "Geolocation is not supported by this browser") st, [])
  else
    let st1 := setError None (setIsLoading true st) in
    match outcome with
    | Resolved coords =>
        let '(st2, effects) := onPosition env coords clock st1 in
        (setIsLoading false st2, effects)
    | Rejected code =>
        (setIsLoading false (onError code st1), [])
    end.

End WithFormatting.

(** The toasts a call added. *)
Definition newToasts (before after : State) : list JS.Toast :=
  skipn (length (toasts before)) (toasts after).

Section Reports.

Variable toFixed : Q -> nat -> string.

(** The success report: the stored location has the coordinates and the
    accuracy of the position, the clock, the address text made of the two
    coordinates with four digits, the district "Sample District", the
    state the latitude chooses (above 26 "Punjab", above 23 "Gujarat",
    otherwise "Maharashtra") and the country "India"; one "Location
    Updated" toast that names the rounded accuracy; loading is over. *)
Definition reportsSuccess (coords : Coords) (clock : Z) (before after : State) : Prop :=
  exists region : string,
    ((26 < coordsLatitude coords)%Q -> region = "Punjab") /\
    ((coordsLatitude coords <= 26)%Q -> (23 < coordsLatitude coords)%Q ->
     region = "Gujarat") /\
    ((coordsLatitude coords <= 23)%Q -> region = "Maharashtra") /\
  location after =
    Some {| latitude := coordsLatitude coords; longitude := coordsLongitude coords;
            accuracy := coordsAccuracy coords; timestamp := clock;
            address := Some ("Latitude: " ++ toFixed (coordsLatitude coords) 4 ++
                             ", Longitude: " ++ toFixed (coordsLongitude coords) 4)%string;
            district := Some "Sample District";
            state := Some region;
            country := Some "India" |} /\
  newToasts before after =
    [ {| JS.title := "Location Updated";
         JS.description := ("Location captured with " ++
                            roundToString (coordsAccuracy coords) ++ "m accuracy")%string;
         JS.destructive := false; JS.duration := None |} ] /\
  isLoading after = false.

(** The failure report: the stored location is kept, the error is the
    message of the code, one destructive "Location Error" toast with that
    message; loading is over. *)
Definition reportsFailure (code : option Z) (before after : State) : Prop :=
  location after = location before /\
  error after = Some (errorMessageOf code) /\
  newToasts before after =
    [ {| JS.title := "Location Error"; JS.description := errorMessageOf code;
         JS.destructive := true; JS.duration := None |} ] /\
  isLoading after = false.

End Reports.

End GeolocationFeatures.

(** ** Concrete inputs used to exercise the definitions *)
Module Examples.

Definition photo : JS.File := {| JS.fileName := "cow.jpg"; JS.fileType := "image/jpeg" |}.
Definition notes : JS.File := {| JS.fileName := "notes.txt"; JS.fileType := "text/plain" |}.

(** Two uploads, then the completion button. *)
Definition twoUploads : list MultiAngleCapture.Event :=
  [ MultiAngleCapture.HandleFileUpload (Some photo) "blob:front" 1;
    MultiAngleCapture.HandleFileUpload (Some photo) "blob:side" 2;
    MultiAngleCapture.HandleComplete ].

Definition afterTwoUploads : MultiAngleCapture.State :=
  fst (MultiAngleCapture.session MultiAngleCapture.initial (firstn 2 twoUploads)).

(** The fourth breed of the database. *)
Definition murrah : BreedDatabase.Breed :=
  {| BreedDatabase.id := "4"; BreedDatabase.name := "Murrah";
     BreedDatabase.hindiName := "मुर्रा"; BreedDatabase.type := "buffalo";
     BreedDatabase.region := "Haryana, Punjab, UP";
     BreedDatabase.characteristics := ["High milk yield"; "Strong build"; "Curved horns"];
     BreedDatabase.avgWeight := "500-600 kg"; BreedDatabase.milkYield := "12-18 L/day";
     BreedDatabase.color := "Jet black" |}.

(** A recognition result: the user asks to retake the photo. *)
Definition heard : string := "  Please RETAKE photo ".

Definition voiceEnv : VoiceCommands.Env :=
  {| VoiceCommands.hasOnCommand := true; VoiceCommands.hasSpeechSynthesis := true |}.

Definition voiceState : VoiceCommands.State :=
  {| VoiceCommands.isListening := true; VoiceCommands.isEnabled := true;
     VoiceCommands.isSpeechSupported := true; VoiceCommands.lastCommand := None;
     VoiceCommands.confidence := 0; VoiceCommands.language := VoiceCommands.En;
     VoiceCommands.voiceEnabled := true |}.

(** A browser without [navigator.geolocation], one with it, and the
    component as it is mounted. *)
Definition noGeolocation : GeolocationFeatures.Env :=
  {| GeolocationFeatures.hasGeolocation := false;
     GeolocationFeatures.hasOnLocationUpdate := false |}.

Definition withGeolocation : GeolocationFeatures.Env :=
  {| GeolocationFeatures.hasGeolocation := true;
     GeolocationFeatures.hasOnLocationUpdate := false |}.

Definition locationMounted : GeolocationFeatures.State :=
  {| GeolocationFeatures.location := None; GeolocationFeatures.isLoading := false;
     GeolocationFeatures.error := None; GeolocationFeatures.manualLocation := "";
     GeolocationFeatures.selectedState := ""; GeolocationFeatures.toasts := [] |}.

(** A position near Ludhiana, north of latitude 26, with an accuracy of
    12.4 m. *)
Definition ludhiana : GeolocationFeatures.Coords :=
  {| GeolocationFeatures.coordsLatitude := 309 # 10;
     GeolocationFeatures.coordsLongitude := 7585 # 100;
     GeolocationFeatures.coordsAccuracy := 124 # 10 |}.

(** A stand-in for [toFixed] where its digits do not matter. *)
Definition noDigits (x : Q) (digits : nat) : string := "0.0000".

Definition afterUnsupported : GeolocationFeatures.State :=
  fst (GeolocationFeatures.getCurrentLocation noDigits noGeolocation
         (GeolocationFeatures.Rejected None) 0 locationMounted).

(** A batch queue holding one item at the end of its progress loop, and
    draws that are all one half: the third mock result, and a success. *)
Definition pendingItem : BatchProcessing.BatchItem :=
  {| BatchProcessing.id := "batch-1-0.5"; BatchProcessing.fileName := "cow.jpg";
     BatchProcessing.imageUrl := "blob:cow"; BatchProcessing.status := "processing";
     BatchProcessing.progress := 100; BatchProcessing.result := None;
     BatchProcessing.error := None |}.

Definition oneItemQueue : BatchProcessing.State :=
  {| BatchProcessing.batchItems := [pendingItem]; BatchProcessing.isProcessing := true;
     BatchProcessing.currentProcessingIndex := 0; BatchProcessing.toasts := [];
     BatchProcessing.draws := 0; BatchProcessing.urls := 1 |}.

Definition halves (k : nat) : Q := 1 # 2.

Definition blobUrl (k : nat) (f : JS.File) : string := "blob:cow".

Definition numberText (x : Q) : string := "0".

(** A state of the page in which an image is being analysed. *)
Definition analysing : BreedAI.State :=
  BreedAI.steps BreedAI.initial
    [ BreedAI.Click BreedAI.QuickAnalysis; BreedAI.HandleImageCapture photo "blob:cow" ].

End Examples.

(** ** CameraCapture.tsx *)
Module CameraCapture.

Record State := {
  isStreamActive : bool;
  capturedImage : option string;
  error : option string
}.

Definition initial : State :=
  {| isStreamActive := false; capturedImage := None; error := None |}.

(** Calls of the [onImageCapture] prop. *)
Inductive Effect :=
| OnImageCapture (imageFile : JS.File) (imageUrl : string).

(** The buttons and the upload input, with what the browser answers:
    whether [getUserMedia] granted a stream, the object URL of the blob
    of the canvas ([None] when there is no 2d context or no blob),
    whether [toBlob] gave a blob, the clock, the chosen file and its
    object URL. *)
Inductive Event :=
| StartCamera (granted : bool)
| CapturePhoto (blobUrl : option string)
| ConfirmCapture (blob : bool) (clock : Z)
| RetakePhoto (granted : bool)
| HandleFileUpload (chosen : option JS.File) (objectUrl : string).

(** The [<video>] element, and with it [videoRef.current], is rendered
    only when no image is captured and the stream is active. *)
Definition videoMounted (st : State) : bool :=
  match capturedImage st with
  | Some _ => false
  | None => isStreamActive st
  end.

Definition startCamera (granted : bool) (st : State) : State :=
  if granted then
    {| isStreamActive := if videoMounted st then true else isStreamActive st;
       capturedImage := capturedImage st; error := None |}
  else
    {| isStreamActive := isStreamActive st; capturedImage := capturedImage st;
       error := Some "Camera access denied. Please allow camera permission or upload an image instead." |}.

Definition stopCamera (st : State) : State :=
  {| isStreamActive := false; capturedImage := capturedImage st; error := error st |}.

Definition capturePhoto (blobUrl : option string) (st : State) : State :=
  if videoMounted st then
    match blobUrl with
    | Some u =>
        stopCamera {| isStreamActive := isStreamActive st; capturedImage := Some u;
                      error := error st |}
    | None => st
    end
  else st.

(** [new File([blob], `cattle-${Date.now()}.jpg`, { type: "image/jpeg" })];
    the clock is a non-negative integer. *)
Definition capturedFile (clock : Z) : JS.File :=
  {| JS.fileName := ("cattle-" ++ JS.natToString (Z.to_nat clock) ++ ".jpg")%string;
     JS.fileType := "image/jpeg" |}.

Definition confirmCapture (blob : bool) (clock : Z) (st : State) : list Effect :=
  match JS.truthy (capturedImage st) with
  | Some u => if blob then [OnImageCapture (capturedFile clock) u] else []
  | None => []
  end.

Definition retakePhoto (granted : bool) (st : State) : State :=
  startCamera granted
    {| isStreamActive := isStreamActive st; capturedImage := None; error := error st |}.

Definition handleFileUpload (chosen : option JS.File) (objectUrl : string) : list Effect :=
  match chosen with
  | Some f =>
      if JS.startsWith (JS.fileType f) "image/" then [OnImageCapture f objectUrl] else []
  | None => []
  end.

Definition step (st : State) (e : Event) : State * list Effect :=
  match e with
  | StartCamera granted => (startCamera granted st, [])
  | CapturePhoto blobUrl => (capturePhoto blobUrl st, [])
  | ConfirmCapture blob clock => (st, confirmCapture blob clock st)
  | RetakePhoto granted => (retakePhoto granted st, [])
  | HandleFileUpload chosen objectUrl => (st, handleFileUpload chosen objectUrl)
  end.

(** The state after the events and the effects performed, each with
    the event that caused it. *)
Fixpoint session (st : State) (es : list Event) : State * list (Event * Effect) :=
  match es with
  | [] => (st, [])
  | e :: rest =>
      let '(st', effs) := step st e in
      let '(final, log) := session st' rest in
      (final, map (fun eff => (e, eff)) effs ++ log)
  end.

End CameraCapture.

(** ** MultiAngleCapture.tsx: the screen *)
Module MultiAngleUI.

Import MultiAngleCapture.

Definition isAngleCaptured (angle_id : string) (st : State) : bool :=
  existsb (fun img => id img =? angle_id) (capturedImages st).

(** The remove button exists on the cards of the captured images only;
    every other event can come at any time. *)
Definition fromTheScreen (st : State) (e : Event) : bool :=
  match e with
  | RemoveImage angle_id => isAngleCaptured angle_id st
  | _ => true
  end.

Fixpoint allFromTheScreen (st : State) (es : list Event) : bool :=
  match es with
  | [] => true
  | e :: rest => fromTheScreen st e && allFromTheScreen (fst (step st e)) rest
  end.

Definition angleIds : list string := map angleId requiredAngles.

(** [(capturedImages.length / requiredAngles.length) * 100], the value
    of the progress bar. *)
Definition progress (st : State) : Q :=
  (inject_Z (Z.of_nat (length (capturedImages st))) /
   inject_Z (Z.of_nat (length requiredAngles))) * 100.

(** The upload input handing over one file. *)
Definition upload (entry : JS.File * string * Z) : Event :=
  let '(f, u, clock) := entry in HandleFileUpload (Some f) u clock.

(** The index is one of the four angles, and every image carries the
    id and the name of one of them. *)
Definition wellPlaced (st : State) : Prop :=
  (0 <= currentAngleIndex st <= lastAngleIndex)%Z /\
  Forall (fun img => exists a, In a requiredAngles /\
                               id img = angleId a /\ angle img = angleName a)
         (capturedImages st).

End MultiAngleUI.

(** ** BreedResults.tsx: the component *)
Module BreedResultsView.

Import BreedResults.

(** [useState(predictions[0])]: [None] is [undefined]. *)
Definition initial (predictions : list BreedPrediction) : option BreedPrediction :=
  hd_error predictions.

Inductive Event :=
| SelectAlternative (i : nat)
| ClickConfirm
| ClickCorrect
| ClickBack.

Inductive Effect :=
| OnConfirm (selectedBreed : option BreedPrediction)
| OnCorrect
| OnBack.

(** The cards of "Other Possibilities" are [predictions.slice(1)]; a
    click on the [i]-th selects it. *)
Definition step (predictions : list BreedPrediction) (selectedBreed : option BreedPrediction)
                (e : Event) : option BreedPrediction * list Effect :=
  match e with
  | SelectAlternative i =>
      match nth_error (tl predictions) i with
      | Some prediction => (Some prediction, [])
      | None => (selectedBreed, [])
      end
  | ClickConfirm => (selectedBreed, [OnConfirm selectedBreed])
  | ClickCorrect => (selectedBreed, [OnCorrect])
  | ClickBack => (selectedBreed, [OnBack])
  end.

Fixpoint session (predictions : list BreedPrediction) (selectedBreed : option BreedPrediction)
                 (es : list Event) : option BreedPrediction * list Effect :=
  match es with
  | [] => (selectedBreed, [])
  | e :: rest =>
      let '(selected', effs) := step predictions selectedBreed e in
      let '(final, log) := session predictions selected' rest in
      (final, effs ++ log)
  end.

End BreedResultsView.

(** ** GeolocationFeatures.tsx: recommendations, accuracy, manual entry *)
Module GeolocationPanel.

(** Mock regional breed data.  Only the own keys of the object literal
    are looked up: the states of the component are these keys and
    "Unknown". *)
Definition regionalBreedRecommendations : list (string * list string) :=
  [ ("Gujarat", ["Gir"; "Kankrej"; "Dangi"]);
    ("Punjab", ["Sahiwal"; "Murrah Buffalo"; "Nili Ravi Buffalo"]);
    ("Haryana", ["Sahiwal"; "Murrah Buffalo"; "Hariana"]);
    ("Maharashtra", ["Red Sindhi"; "Gaolao"; "Khillar"]);
    ("Rajasthan", ["Gir"; "Kankrej"; "Rathi"]);
    ("Uttar Pradesh", ["Murrah Buffalo"; "Sahiwal"; "Gangatiri"]);
    ("Karnataka", ["Red Sindhi"; "Amritmahal"; "Hallikar"]);
    ("Tamil Nadu", ["Kangayam"; "Umblachery"; "Pulikulam"]) ].

Fixpoint lookup (key : string) (table : list (string * list string)) : option (list string) :=
  match table with
  | [] => None
  | (k, v) :: rest => if k =? key then Some v else lookup key rest
  end.

Definition getRecommendedBreeds (st : GeolocationFeatures.State) : list string :=
  match GeolocationFeatures.location st with
  | None => []
  | Some l =>
      match JS.truthy (GeolocationFeatures.state l) with
      | None => []
      | Some s =>
          match lookup s regionalBreedRecommendations with
          | Some breeds => breeds
          | None => []
          end
      end
  end.

Record AccuracyLevel := { level : string; color : string; text : string }.

Definition getAccuracyLevel (accuracy : Q) : AccuracyLevel :=
  if Qle_bool accuracy 10 then
    {| level := "excellent"; color := "bg-success"; text := "Excellent" |}
  else if Qle_bool accuracy 50 then
    {| level := "good"; color := "bg-primary"; text := "Good" |}
  else if Qle_bool accuracy 100 then
    {| level := "fair"; color := "bg-warning"; text := "Fair" |}
  else
    {| level := "poor"; color := "bg-destructive"; text := "Poor" |}.

(** Which branch of the "Current Location" card is rendered:
    [error ? ... : location ? ... : ...]. *)
Inductive Card :=
| ErrorBanner (message : string)
| LocationDetected (l : GeolocationFeatures.LocationData)
| NoLocation (loading : bool).

Definition currentLocationCard (st : GeolocationFeatures.State) : Card :=
  match JS.truthy (GeolocationFeatures.error st) with
  | Some message => ErrorBanner message
  | None =>
      match GeolocationFeatures.location st with
      | Some l => LocationDetected l
      | None => NoLocation (GeolocationFeatures.isLoading st)
      end
  end.

Definition setManualLocation (s : string) (st : GeolocationFeatures.State)
  : GeolocationFeatures.State :=
  {| GeolocationFeatures.location := GeolocationFeatures.location st;
     GeolocationFeatures.isLoading := GeolocationFeatures.isLoading st;
     GeolocationFeatures.error := GeolocationFeatures.error st;
     GeolocationFeatures.manualLocation := s;
     GeolocationFeatures.selectedState := GeolocationFeatures.selectedState st;
     GeolocationFeatures.toasts := GeolocationFeatures.toasts st |}.

(** The values of the [<select>]: the empty one and the keys of the
    table. *)
Definition stateOptions : list string := "" :: map fst regionalBreedRecommendations.

Section WithTrim.

Variable trim : string -> string.

Definition handleManualLocationSubmit (env : GeolocationFeatures.Env) (clock : Z)
                                      (st : GeolocationFeatures.State)
  : GeolocationFeatures.State * list GeolocationFeatures.Effect :=
  if trim (GeolocationFeatures.manualLocation st) =? "" then (st, [])
  else
    let mockLocation :=
      {| GeolocationFeatures.latitude := 0; GeolocationFeatures.longitude := 0;
         GeolocationFeatures.accuracy := 0; GeolocationFeatures.timestamp := clock;
         GeolocationFeatures.address := Some (GeolocationFeatures.manualLocation st);
         GeolocationFeatures.district := None;
         GeolocationFeatures.state :=
           Some (if GeolocationFeatures.selectedState st =? "" then "Unknown"
                 else GeolocationFeatures.selectedState st);
         GeolocationFeatures.country := None |} in
    (GeolocationFeatures.toast
       {| JS.title := "Manual Location Set";
          JS.description := ("Location set to: " ++
                             GeolocationFeatures.manualLocation st)%string;
          JS.destructive := false; JS.duration := None |}
       (GeolocationFeatures.setLocation (Some mockLocation) st),
     if GeolocationFeatures.hasOnLocationUpdate env
     then [GeolocationFeatures.OnLocationUpdate mockLocation] else []).

(** The [disabled] attribute of "Set Manual Location". *)
Definition manualSubmitDisabled (st : GeolocationFeatures.State) : bool :=
  (trim (GeolocationFeatures.manualLocation st) =? "") ||
  (GeolocationFeatures.selectedState st =? "").

End WithTrim.

End GeolocationPanel.

(** ** BatchProcessing.tsx: the queue under any use *)
Module BatchQueue.

Import BatchProcessing.

(** The tasks that a click or the upload input starts; the other two
    are started by timers only. *)
Definition userTask (task : Task) : bool :=
  match task with
  | ProcessNextItem _ _ | AfterDelay _ _ => false
  | _ => true
  end.

(** The timers the component sets: a call of [processNextItem] whose
    closure has its index inside its queue, or a step of a progress loop
    at a multiple of 10 up to 100. *)
Definition componentTimer (t : Timer Task) : Prop :=
  match callback t with
  | ProcessNextItem index items => (index < length items)%nat
  | AfterDelay _ p => (0 <= p <= 100)%Z /\ (p mod 10 = 0)%Z
  | _ => False
  end.

Definition isMockResult (r : Result) : Prop :=
  exists m, In m mockBreedResults /\ breed r = mockBreed m /\
            confidence r = mockConfidence m.

(** What an item of the queue looks like: its progress is a multiple
    of 10 up to 100; a pending item has neither result nor error, a
    completed one has one of the mock results and no error, a failed one
    has the error message and no result. *)
Definition wellFormed (item : BatchItem) : Prop :=
  (0 <= progress item <= 100)%Z /\ (progress item mod 10 = 0)%Z /\
  ((status item = "pending" /\ result item = None /\ error item = None) \/
   status item = "processing" \/
   (status item = "completed" /\ error item = None /\
    exists r, result item = Some r /\ isMockResult r) \/
   (status item = "error" /\ result item = None /\
    error item = Some "Failed to process image. Please try again.")).

(** The number of timers a pending timer still stands for once nothing
    new is started: itself and the rest of its progress loop. *)
Definition remaining (task : Task) : nat :=
  match task with
  | ProcessNextItem _ _ => 12
  | AfterDelay _ p => S (Z.to_nat ((100 - p) / 10))
  | _ => 1
  end.

Definition pendingWork (q : list (Timer Task)) : nat :=
  list_sum (map (fun t => remaining (callback t)) q).

(** [exportResults]: the rows made from the completed items.  A field
    read through [?.] is [None] when it is [undefined]. *)
Record ExportRow := {
  rowFileName : string;
  rowBreed : option string;
  rowConfidence : option Q;
  rowTimestamp : option Z;
  rowFarmName : string;
  rowSurveyorName : string
}.

Definition completedItems (st : State) : list BatchItem :=
  filter (fun item => status item =? "completed") (batchItems st).

Definition exportRows (farmName surveyorName : string) (st : State) : list ExportRow :=
  map (fun item =>
         {| rowFileName := fileName item;
            rowBreed := option_map breed (result item);
            rowConfidence := option_map confidence (result item);
            rowTimestamp := option_map timestamp (result item);
            rowFarmName := farmName;
            rowSurveyorName := surveyorName |})
      (completedItems st).

Section Csv.

(** The text of a number and of an optional one in a template literal,
    and [Date.prototype.toISOString]. *)
Variable numberToString : Q -> string.
Variable toISOString : Z -> string.

Definition quote : string := String (ascii_of_nat 34) EmptyString.

Definition newline : string := String (ascii_of_nat 10) EmptyString.

Definition shown (o : option string) : string :=
  match o with
  | Some s => s
  | None => "undefined"
  end.

Definition csvLine (r : ExportRow) : string :=
  (quote ++ rowFileName r ++ quote ++ "," ++
   quote ++ shown (rowBreed r) ++ quote ++ "," ++
   shown (option_map numberToString (rowConfidence r)) ++ "," ++
   quote ++ shown (option_map toISOString (rowTimestamp r)) ++ quote ++ "," ++
   quote ++ rowFarmName r ++ quote ++ "," ++
   quote ++ rowSurveyorName r ++ quote)%string.

Definition csvLines (rows : list ExportRow) : list string :=
  "File Name,Breed,Confidence (%),Timestamp,Farm Name,Surveyor Name" :: map csvLine rows.

(** [lines.join('\n')] *)
Definition csvContent (rows : list ExportRow) : string :=
  String.concat newline (csvLines rows).

End Csv.

(** What a timer cannot change in an item. *)
Definition identity (item : BatchItem) : string * string * string :=
  (id item, fileName item, imageUrl item).

(** A render without a change of the queue state, as after
    [setFarmName] or [setSurveyorName]: the statement in the body of the
    component runs again. *)
Definition rerender (l : Loop State Task) : Loop State Task :=
  {| now := now l; state := state l;
     timers := register Task (now l) (timers l) (render (state l)) |}.

Section WithEnvironment.

Variable random : nat -> Q.
Variable createObjectURL : nat -> JS.File -> string.
Variable numberToString : Q -> string.

(** The component after any use: the user acts, types into one of
    the two text inputs (which renders the component again), time passes
    (to a moment at which no timer is overdue), timers fire. *)
Inductive reaches : Loop State Task -> Prop :=
| reaches_mounted : reaches mounted
| reaches_user (l : Loop State Task) (task : Task) :
    reaches l -> userTask task = true ->
    reaches (dispatch State Task (exec random createObjectURL numberToString) task l)
| reaches_typing (l : Loop State Task) :
    reaches l -> reaches (rerender l)
| reaches_wait (l : Loop State Task) (t : Z) :
    reaches l -> (now l <= t)%Z ->
    Forall (fun timer => (t <= fireAt timer)%Z) (timers l) ->
    reaches {| now := t; state := state l; timers := timers l |}
| reaches_tick (l l' : Loop State Task) :
    reaches l ->
    tick State Task (exec random createObjectURL numberToString) l = Some l' ->
    reaches l'.

End WithEnvironment.

End BatchQueue.

(** ** LoadingAnalysis.tsx: what the progress bar shows *)
Module ProgressBar.

(** The moments at which the bar is set to less than it showed: the
    time, the value before and the value after. *)
Fixpoint drops (values : list (Z * Q)) : list (Z * Q * Q) :=
  match values with
  | [] => []
  | (_, before) :: rest =>
      match rest with
      | [] => []
      | (t, after) :: _ =>
          if JS.ltb after before then (t, before, after) :: drops rest else drops rest
      end
  end.

End ProgressBar.

(** ** LoadingAnalysis.tsx: the effect and its cleanup *)
Module AnalysisEffect.

(** The effect with the handles of its timers.  [Mount] is the run of
    the effect, which calls [runAnalysis]; [Fire h callback] is the timer
    with handle [h]. *)
Inductive Task :=
| Mount
| Fire (handle : nat) (callback : LoadingAnalysis.Task).

(** The component, the two variables of the effect that hold handles
    ([None] is [undefined]), and the handle the next [setTimeout]
    returns. *)
Record State := {
  component : LoadingAnalysis.State;
  stepTimer : option nat;
  progressTimer : option nat;
  nextHandle : nat
}.

(** One call of [setTimeout]: [progressTimer = setTimeout(animateProgress, 50)],
    [stepTimer = setTimeout(resolve, step.duration)], and
    [setTimeout(onComplete, 500)], whose handle is dropped. *)
Definition setTimeout (st : State) (dt : Z * LoadingAnalysis.Task) : State * (Z * Task) :=
  let h := nextHandle st in
  ({| component := component st;
      stepTimer := match snd dt with
                   | LoadingAnalysis.StepElapsed _ => Some h
                   | _ => stepTimer st
                   end;
      progressTimer := match snd dt with
                       | LoadingAnalysis.AnimateProgress _ _ _ _ => Some h
                       | _ => progressTimer st
                       end;
      nextHandle := S h |},
   (fst dt, Fire h (snd dt))).

Fixpoint setTimeouts (st : State) (new : list (Z * LoadingAnalysis.Task))
  : State * list (Z * Task) :=
  match new with
  | [] => (st, [])
  | dt :: rest =>
      let '(st1, t) := setTimeout st dt in
      let '(st2, ts) := setTimeouts st1 rest in
      (st2, t :: ts)
  end.

Definition work (task : Task) : LoadingAnalysis.Task :=
  match task with
  | Mount => LoadingAnalysis.RunAnalysis
  | Fire _ callback => callback
  end.

Definition exec (task : Task) (t : Z) (st : State) : State * list (Z * Task) :=
  let '(c, new) := LoadingAnalysis.exec (work task) t (component st) in
  setTimeouts {| component := c; stepTimer := stepTimer st;
                 progressTimer := progressTimer st; nextHandle := nextHandle st |}
              new.

(** The component right after its effect has run, mounted at time 0. *)
Definition mount (img : string) : Loop State Task :=
  dispatch State Task exec Mount
    {| now := 0;
       state := {| component := {| LoadingAnalysis.image := img;
                                   LoadingAnalysis.currentStep := 0;
                                   LoadingAnalysis.progress := 0;
                                   LoadingAnalysis.totalProgress := 0;
                                   LoadingAnalysis.log := [] |};
                   stepTimer := None; progressTimer := None; nextHandle := 1 |};
       timers := [] |}.

Definition runFor (fuel : nat) (img : string) : Loop State Task :=
  run State Task exec fuel (mount img).

Definition holds (variable : option nat) (h : nat) : bool :=
  match variable with
  | Some h' => (h =? h')%nat
  | None => false
  end.

(** The timers that the cleanup clears:
    [clearTimeout(stepTimer); clearTimeout(progressTimer)]. *)
Definition cleared (st : State) (t : Timer Task) : bool :=
  match callback t with
  | Fire h _ => holds (stepTimer st) h || holds (progressTimer st) h
  | Mount => false
  end.

(** The cleanup of the effect, run when the component is unmounted. *)
Definition cleanup (l : Loop State Task) : Loop State Task :=
  {| now := now l; state := state l;
     timers := filter (fun t => negb (cleared (state l) t)) (timers l) |}.

(** The times at which [onComplete] was called. *)
Definition completions (l : Loop State Task) : list Z :=
  map fst (filter (fun e => LoadingAnalysis.isOnComplete (snd e))
                  (LoadingAnalysis.log (component (state l)))).

(** The same loop without the handles. *)
Definition erase (l : Loop State Task)
  : Loop LoadingAnalysis.State LoadingAnalysis.Task :=
  {| now := now l; state := component (state l);
     timers := map (fun t => {| fireAt := fireAt t; callback := work (callback t) |})
                   (timers l) |}.

Definition isStep (t : Timer Task) : bool :=
  match callback t with
  | Fire _ (LoadingAnalysis.StepElapsed _) => true
  | _ => false
  end.

Definition isCompletion (t : Timer Task) : bool :=
  match callback t with
  | Fire _ LoadingAnalysis.Complete => true
  | _ => false
  end.

Definition isFrame (t : Timer Task) : bool :=
  match callback t with
  | Fire _ (LoadingAnalysis.AnimateProgress _ _ _ _) => true
  | _ => false
  end.

(** An unmount now would cancel the analysis: [onComplete] has not
    been called, and every pending timer is a frame of the animation or a
    step timer that the cleanup clears. *)
Definition cancellable (l : Loop State Task) : bool :=
  match completions l with
  | [] => forallb (fun t => isFrame t || (isStep t && cleared (state l) t)) (timers l)
  | _ => false
  end.

(** What an unmount now leads to, checked by running the cleanup: before
    7000 ms the analysis is cancellable; from 7000 ms on the timers left
    by the cleanup run dry within two of them and [onComplete] has been
    called once, at 7500 ms. *)
Definition verdict (l : Loop State Task) : bool :=
  if (now l <? 7000)%Z then cancellable l
  else
    let l' := run State Task exec 2 (cleanup l) in
    quiescent l' &&
    match completions l' with
    | [t] => (t =? 7500)%Z
    | _ => false
    end.

(** What the render needs: a step to show and a bar within its range. *)
Definition withinBounds (l : Loop State Task) : bool :=
  (LoadingAnalysis.currentStep (component (state l)) <?
   length LoadingAnalysis.analysisSteps)%nat &&
  Qle_bool 0 (LoadingAnalysis.progress (component (state l))) &&
  Qle_bool (LoadingAnalysis.progress (component (state l))) 100.

(** A check before each of the first [fuel] timers and after the last
    of them. *)
Fixpoint along (check : Loop State Task -> bool) (fuel : nat) (l : Loop State Task)
  : list bool :=
  check l ::
  match fuel with
  | O => []
  | S fuel' =>
      match tick State Task exec l with
      | None => []
      | Some l' => along check fuel' l'
      end
  end.

(** The page when the user leaves the analysis screen with "Back to
    Home": the component is unmounted, its cleanup runs, the timers that
    are left fire, and each call of [onComplete], which is
    [handleAnalysisComplete], reaches the page. *)
Definition leave (fuel : nat) (page : BreedAI.State) (l : Loop State Task) : BreedAI.State :=
  fold_left (fun p _ => BreedAI.step p BreedAI.HandleAnalysisComplete)
            (skipn (length (completions l))
                   (completions (run State Task exec fuel (cleanup l))))
            (BreedAI.step page (BreedAI.Click BreedAI.BackToHome)).

End AnalysisEffect.

(** ** More concrete inputs *)
Module Scenarios.

(** Two uploads, the first one removed again, a third upload. *)
Definition uploadRemoveUpload : list MultiAngleCapture.Event :=
  [ MultiAngleCapture.HandleFileUpload (Some Examples.photo) "blob:front" 1;
    MultiAngleCapture.HandleFileUpload (Some Examples.photo) "blob:side" 2;
    MultiAngleCapture.RemoveImage "front";
    MultiAngleCapture.HandleFileUpload (Some Examples.photo) "blob:front2" 3 ].

(** Five files for four angles. *)
Definition fiveFiles : list (JS.File * string * Z) :=
  [ (Examples.photo, "blob:1", 1%Z); (Examples.photo, "blob:2", 2%Z);
    (Examples.photo, "blob:3", 3%Z); (Examples.photo, "blob:4", 4%Z);
    (Examples.photo, "blob:5", 5%Z) ].

(** A position between the latitudes 23 and 26. *)
Definition ahmedabad : GeolocationFeatures.Coords :=
  {| GeolocationFeatures.coordsLatitude := 2302 # 100;
     GeolocationFeatures.coordsLongitude := 7257 # 100;
     GeolocationFeatures.coordsAccuracy := 12 |}.

(** A batch that is paused while its first item is in its progress
    loop. *)
Definition pausedBatch : Loop BatchProcessing.State BatchProcessing.Task :=
  dispatch _ _ (BatchProcessing.exec Examples.halves Examples.blobUrl Examples.numberText)
    BatchProcessing.PauseProcessing
    (BatchProcessing.runFor Examples.halves Examples.blobUrl Examples.numberText 3
       [Examples.photo]).

(** The paused batch once its calls in flight have run dry. *)
Definition drainedBatch : Loop BatchProcessing.State BatchProcessing.Task :=
  run _ _ (BatchProcessing.exec Examples.halves Examples.blobUrl Examples.numberText)
      (BatchQueue.pendingWork (timers pausedBatch)) pausedBatch.

(** Draws that differ, 0, 0.1, 0.2, ..., and a number text that shows
    their first digit, so that the ids of a batch are "batch-0-0",
    "batch-0-1", ... *)
Definition tenths (k : nat) : Q := Z.of_nat (k mod 10) # 10.

Definition tenthText (x : Q) : string := JS.natToString (Z.to_nat (Qfloor (x * 10))).

(** Stand-ins for the text of a date. *)
Definition isoText (clock : Z) : string := "1970-01-01T00:00:01.750Z".

(** The second of the mock predictions. *)
Definition sahiwal : BreedResults.BreedPrediction :=
  {| BreedResults.name := "Sahiwal"; BreedResults.hindiName := "साहीवाल";
     BreedResults.confidence := 72;
     BreedResults.characteristics := ["Heat tolerant"; "Good milk producer"; "Docile nature"];
     BreedResults.region := "Punjab, Haryana" |}.

End Scenarios.

(* ================================================================== *)
(** * Part II: properties                                             *)
(* ================================================================== *)

(** ** Strings, numbers and lists *)

Lemma startsWith_spec (s sub : string) :
  JS.startsWith s sub = true <-> exists rest, s = (sub ++ rest)%string.
Proof.
  unfold JS.startsWith. revert s.
  induction sub as [|c sub IH]; intros [|d s]; simpl.
  - split; [intros _; exists EmptyString; reflexivity | reflexivity].
  - split; [intros _; exists (String d s); reflexivity | reflexivity].
  - split; [discriminate | intros [rest H]; discriminate].
  - destruct (ascii_dec c d) as [->|Hne].
    + rewrite IH. split; intros [rest H]; exists rest.
      * now rewrite H.
      * now injection H.
    + split; [discriminate | intros [rest H]; injection H; congruence].
Qed.

Lemma includes_unfold (s sub : string) :
  JS.includes s sub =
  JS.startsWith s sub ||
  match s with
  | EmptyString => false
  | String _ rest => JS.includes rest sub
  end.
Proof. destruct s; reflexivity. Qed.

(** [includes] finds exactly the substrings. *)
Lemma includes_spec (s sub : string) :
  JS.includes s sub = true <->
  exists before after, s = (before ++ sub ++ after)%string.
Proof.
  induction s as [|c s IH]; rewrite includes_unfold, orb_true_iff.
  - split.
    + intros [H|H]; [|discriminate].
      apply startsWith_spec in H as [rest H]. exists EmptyString, rest. exact H.
    + intros [before [after H]]. left. apply startsWith_spec.
      destruct before; simpl in H; [now exists after | discriminate].
  - rewrite IH, startsWith_spec. split.
    + intros [[rest H]|[before [after H]]].
      * exists EmptyString, rest. exact H.
      * exists (String c before), after. simpl. now rewrite H.
    + intros [before [after H]]. destruct before as [|d before]; simpl in H.
      * left. now exists after.
      * right. exists before, after. now injection H.
Qed.

Lemma includes_empty (s : string) : JS.includes s EmptyString = true.
Proof. destruct s; reflexivity. Qed.

Lemma geb_spec (x y : Q) : JS.geb x y = true <-> (y <= x)%Q.
Proof. apply Qle_bool_iff. Qed.

Lemma gtb_spec (x y : Q) : JS.gtb x y = true <-> (y < x)%Q.
Proof.
  unfold JS.gtb. rewrite negb_true_iff. split.
  - intros H. apply Qnot_le_lt. intros Hle. apply Qle_bool_iff in Hle. congruence.
  - intros H. destruct (Qle_bool x y) eqn:E; [|reflexivity].
    apply Qle_bool_iff in E. exfalso. exact (Qlt_not_le _ _ H E).
Qed.

Lemma gtb_false (x y : Q) : JS.gtb x y = false <-> ~ (y < x)%Q.
Proof.
  rewrite <- gtb_spec. destruct (JS.gtb x y); split; congruence.
Qed.

Lemma geb_false (x y : Q) : JS.geb x y = false <-> (x < y)%Q.
Proof.
  unfold JS.geb. split.
  - intros H. apply Qnot_le_lt. intros Hle. apply Qle_bool_iff in Hle. congruence.
  - intros H. destruct (Qle_bool y x) eqn:E; [|reflexivity].
    apply Qle_bool_iff in E. exfalso. exact (Qlt_not_le _ _ H E).
Qed.

Lemma mapi_from_nth {A B : Type} (f : A -> nat -> B) (l : list A) (start k : nat) :
  nth_error (JS.mapi_from f start l) k =
  option_map (fun x => f x (start + k)%nat) (nth_error l k).
Proof.
  revert start k. induction l as [|x l IH]; intros start [|k]; simpl; try reflexivity.
  - now rewrite Nat.add_0_r.
  - rewrite IH. now rewrite Nat.add_succ_r.
Qed.

Lemma mapi_from_length {A B : Type} (f : A -> nat -> B) (l : list A) (start : nat) :
  length (JS.mapi_from f start l) = length l.
Proof. revert start. induction l; intros; simpl; [reflexivity | now rewrite IHl]. Qed.

(** ** BreedResults: the confidence levels *)

(** The claim as it was stated fails at [NaN]: both comparisons of
    [getConfidenceLevel] are false there, so the level is "low", although
    [NaN < 60] is false too. *)
Lemma nan_is_low_but_not_below_60 :
  BreedResults.level (BreedResults.getConfidenceLevel JS.NaN) = "low" /\
  ~ JS.below JS.NaN 60 /\
  ~ (BreedResults.level (BreedResults.getConfidenceLevel JS.NaN) = "low" <->
     JS.below JS.NaN 60).
Proof.
  split; [reflexivity|]. split.
  - intros H. exact H.
  - intros [H _]. exact (H eq_refl).
Qed.

(** C8, amended.  [getConfidenceLevel] returns a level for every number,
    also for [NaN] and the two infinities, and the level is "high" exactly
    when [confidence >= 80], "medium" exactly when [confidence >= 60] and
    [confidence < 80], and "low" exactly when [confidence >= 60] is false,
    that is when [confidence < 60] or the confidence is [NaN]; so for a
    finite confidence it is "low" exactly below 60.  The labels follow the
    levels, the three levels are distinct, and on whole percentages the
    level is the one the legend of the results screen names. *)
Theorem getConfidenceLevel_partition (confidence : JS.Number) :
  let info := BreedResults.getConfidenceLevel confidence in
  (BreedResults.level info = "high" <-> JS.atLeast confidence 80) /\
  (BreedResults.level info = "medium" <->
   JS.atLeast confidence 60 /\ JS.below confidence 80) /\
  (BreedResults.level info = "low" <->
   JS.below confidence 60 \/ confidence = JS.NaN) /\
  (BreedResults.level info = "low" <-> ~ JS.atLeast confidence 60) /\
  (BreedResults.label info = "High Confidence" <-> JS.atLeast confidence 80) /\
  In (BreedResults.level info) ["high"; "medium"; "low"] /\
  (forall q : Q,
      (BreedResults.level (BreedResults.getConfidenceLevel (JS.Finite q)) = "high" <->
       (80 <= q)%Q) /\
      (BreedResults.level (BreedResults.getConfidenceLevel (JS.Finite q)) = "medium" <->
       (60 <= q)%Q /\ (q < 80)%Q) /\
      (BreedResults.level (BreedResults.getConfidenceLevel (JS.Finite q)) = "low" <->
       (q < 60)%Q)) /\
  (forall percent : Z,
      BreedResults.level (BreedResults.getConfidenceLevel (JS.Finite (inject_Z percent))) =
      BreedResults.legend percent).
Proof.
  assert (Hfinite : forall q : Q,
             let info := BreedResults.getConfidenceLevel (JS.Finite q) in
             (BreedResults.level info = "high" <-> (80 <= q)%Q) /\
             (BreedResults.level info = "medium" <-> (60 <= q)%Q /\ (q < 80)%Q) /\
             (BreedResults.level info = "low" <-> (q < 60)%Q) /\
             (BreedResults.label info = "High Confidence" <-> (80 <= q)%Q)).
  { intros q. cbv zeta. unfold BreedResults.getConfidenceLevel, JS.numGeb.
    split; [|split; [|split]];
      destruct (JS.geb q 80) eqn:E80;
      destruct (JS.geb q 60) eqn:E60; simpl;
      first [apply geb_spec in E80 | apply geb_false in E80];
      first [apply geb_spec in E60 | apply geb_false in E60];
      (split;
       [ intros H; try discriminate H
       | intros H; try match type of H with _ /\ _ => destruct H end ]);
      first [reflexivity | lra | split; lra | exfalso; lra]. }
  cbv zeta. split; [|split; [|split; [|split; [|split; [|split; [|split]]]]]].
  - destruct confidence as [q| | |]; [apply (Hfinite q) | | |]; simpl;
      split; first [discriminate | tauto | reflexivity].
  - destruct confidence as [q| | |]; [apply (Hfinite q) | | |]; simpl;
      split; first [discriminate | tauto].
  - destruct confidence as [q| | |]; simpl.
    + destruct (Hfinite q) as [_ [_ [Hlow _]]]. cbv zeta in Hlow. rewrite Hlow.
      split; [auto | intros [H|H]; [exact H | discriminate H]].
    + split; auto.
    + split; [discriminate | intros [[]|H]; discriminate H].
    + split; auto.
  - destruct confidence as [q| | |]; simpl.
    + destruct (Hfinite q) as [_ [_ [Hlow _]]]. cbv zeta in Hlow. rewrite Hlow.
      split; [intros H Hge; lra | intros H; apply Qnot_le_lt; exact H].
    + split; auto.
    + split; [discriminate | intros H; exfalso; apply H; exact I].
    + split; auto.
  - destruct confidence as [q| | |]; [apply (Hfinite q) | | |]; simpl;
      split; first [discriminate | tauto | reflexivity].
  - unfold BreedResults.getConfidenceLevel.
    destruct (JS.numGeb confidence 80); [|destruct (JS.numGeb confidence 60)]; simpl; auto.
  - intros q. destruct (Hfinite q) as [H1 [H2 [H3 _]]]. auto.
  - intros percent. unfold BreedResults.getConfidenceLevel, JS.numGeb.
    unfold BreedResults.legend, JS.geb, Qle_bool. simpl.
    rewrite !Z.mul_1_r.
    destruct (80 <=? percent)%Z eqn:E80; [reflexivity|].
    destruct (60 <=? percent)%Z eqn:E60; [|reflexivity].
    assert (H79 : (percent <=? 79)%Z = true) by (apply Z.leb_le; apply Z.leb_gt in E80; lia).
    now rewrite H79.
Qed.

(** 79.5 is "medium", 87 is "high", 59 is "low", and so is [NaN]. *)
Lemma getConfidenceLevel_partition_witness :
  BreedResults.level (BreedResults.getConfidenceLevel (JS.Finite (159 # 2))) = "medium" /\
  BreedResults.level (BreedResults.getConfidenceLevel (JS.Finite 87)) = "high" /\
  BreedResults.level (BreedResults.getConfidenceLevel (JS.Finite 59)) = "low" /\
  BreedResults.level (BreedResults.getConfidenceLevel JS.NaN) = "low".
Proof.
  split; [|split; [|split]].
  - apply (proj1 (proj2 (getConfidenceLevel_partition (JS.Finite (159 # 2))))).
    split; [unfold JS.atLeast, Qle | unfold JS.below, Qlt]; simpl; lia.
  - apply (proj1 (getConfidenceLevel_partition (JS.Finite 87))).
    unfold JS.atLeast, Qle. simpl. lia.
  - apply (proj1 (proj2 (proj2 (getConfidenceLevel_partition (JS.Finite 59))))).
    left. unfold JS.below, Qlt. simpl. lia.
  - apply (proj1 (proj2 (proj2 (getConfidenceLevel_partition JS.NaN)))).
    right. reflexivity.
Defined.

(** ** MultiAngleCapture: the completion guard *)

Lemma session_effects (st0 : MultiAngleCapture.State) (es : list MultiAngleCapture.Event)
      (st : MultiAngleCapture.State) (eff : MultiAngleCapture.Effect) :
  In (st, eff) (snd (MultiAngleCapture.session st0 es)) ->
  exists e, In e es /\ In eff (snd (MultiAngleCapture.step st e)).
Proof.
  revert st0. induction es as [|e es IH]; intros st0; simpl; [tauto|].
  destruct (MultiAngleCapture.step st0 e) as [st' effs] eqn:Estep.
  destruct (MultiAngleCapture.session st' es) as [final log] eqn:Esess. simpl.
  rewrite in_app_iff, in_map_iff. intros [[eff' [Heq Hin]]|Hin].
  - injection Heq as <- <-. exists e. rewrite Estep. auto.
  - specialize (IH st'). rewrite Esess in IH. destruct (IH Hin) as [e' [He' Heff]].
    exists e'. auto.
Qed.

(** C10.  With fewer than 2 captured images [handleComplete] does nothing
    and the completion button is disabled; and whatever the user and the
    browser do, every call of [onComplete] happens in a state with at least
    2 captured images, the button enabled, and passes exactly the captured
    images of that state. *)
Theorem onComplete_needs_two_images :
  (forall st : MultiAngleCapture.State,
      (length (MultiAngleCapture.capturedImages st) < 2)%nat ->
      MultiAngleCapture.step st MultiAngleCapture.HandleComplete = (st, []) /\
      MultiAngleCapture.completeDisabled st = true) /\
  (forall (st0 : MultiAngleCapture.State) (es : list MultiAngleCapture.Event)
          (st : MultiAngleCapture.State) (images : list MultiAngleCapture.CapturedImage),
      In (st, MultiAngleCapture.OnComplete images)
         (snd (MultiAngleCapture.session st0 es)) ->
      (2 <= length (MultiAngleCapture.capturedImages st))%nat /\
      images = MultiAngleCapture.capturedImages st /\
      MultiAngleCapture.completeDisabled st = false).
Proof.
  split.
  - intros st H. unfold MultiAngleCapture.completeDisabled. simpl.
    unfold MultiAngleCapture.handleComplete.
    destruct (Nat.leb_spec 2 (length (MultiAngleCapture.capturedImages st))); [lia|].
    split; [reflexivity | now apply Nat.ltb_lt].
  - intros st0 es st images Hin.
    destruct (session_effects _ _ _ _ Hin) as [e [_ Heff]].
    destruct e; simpl in Heff; try tauto.
    + unfold MultiAngleCapture.handleComplete in Heff.
      unfold MultiAngleCapture.completeDisabled.
      destruct (Nat.leb_spec 2 (length (MultiAngleCapture.capturedImages st)));
        simpl in Heff; [|tauto].
      destruct Heff as [Heq|[]]. injection Heq as <-.
      repeat split; [assumption | apply Nat.ltb_ge; assumption].
    + destruct Heff as [Heq|[]]. discriminate.
Qed.

(** Two uploads enable the completion button: the third event calls
    [onComplete] with the two images; before any upload it does nothing. *)
Lemma onComplete_needs_two_images_witness :
  In (Examples.afterTwoUploads,
      MultiAngleCapture.OnComplete (MultiAngleCapture.capturedImages Examples.afterTwoUploads))
     (snd (MultiAngleCapture.session MultiAngleCapture.initial Examples.twoUploads)) /\
  (2 <= length (MultiAngleCapture.capturedImages Examples.afterTwoUploads))%nat /\
  MultiAngleCapture.completeDisabled Examples.afterTwoUploads = false /\
  MultiAngleCapture.step MultiAngleCapture.initial MultiAngleCapture.HandleComplete =
    (MultiAngleCapture.initial, []).
Proof.
  assert (Hin : In (Examples.afterTwoUploads,
      MultiAngleCapture.OnComplete (MultiAngleCapture.capturedImages Examples.afterTwoUploads))
     (snd (MultiAngleCapture.session MultiAngleCapture.initial Examples.twoUploads))).
  { vm_compute. left. reflexivity. }
  destruct onComplete_needs_two_images as [Hnone Hfire].
  destruct (Hfire _ _ _ _ Hin) as [Hlen [_ Hbutton]].
  split; [exact Hin|]. split; [exact Hlen|]. split; [exact Hbutton|].
  apply (Hnone MultiAngleCapture.initial). simpl. lia.
Defined.

(** ** The timer queue *)

Section EventLoopFacts.

Variables St Task : Type.
Variable exec : Task -> Z -> St -> St * list (Z * Task).

Lemma run_quiescent (fuel : nat) (l : Loop St Task) :
  timers l = [] -> run St Task exec fuel l = l.
Proof.
  intros H. destruct fuel; simpl; [reflexivity|].
  unfold tick. now rewrite H.
Qed.

Lemma run_S (fuel : nat) (l l' : Loop St Task) :
  tick St Task exec l = Some l' ->
  run St Task exec (S fuel) l = run St Task exec fuel l'.
Proof. intros H. simpl. now rewrite H. Qed.

Lemma run_add (a b : nat) (l : Loop St Task) :
  run St Task exec (a + b) l = run St Task exec b (run St Task exec a l).
Proof.
  revert l. induction a as [|a IH]; intros l; simpl; [reflexivity|].
  destruct (tick St Task exec l) as [l'|] eqn:E; [apply IH|].
  symmetry. apply run_quiescent. unfold tick in E.
  destruct (timers l); [reflexivity|].
  destruct (exec (callback t) (Z.max (now l) (fireAt t)) (state l)); discriminate.
Qed.

Lemma insertTimer_all (P : Timer Task -> Prop) (t : Timer Task) (q : list (Timer Task)) :
  P t -> Forall P q -> Forall P (insertTimer Task t q).
Proof.
  intros Ht Hq. induction Hq as [|u q Hu Hq IH]; simpl.
  - constructor; [assumption | constructor].
  - destruct (fireAt u <=? fireAt t)%Z; constructor; auto.
Qed.

Lemma register_all (P : Timer Task -> Prop) (at_ : Z) (new : list (Z * Task))
      (q : list (Timer Task)) :
  Forall (fun dt => P {| fireAt := at_ + fst dt; callback := snd dt |}) new ->
  Forall P q -> Forall P (register Task at_ q new).
Proof.
  unfold register. intros Hnew. revert q.
  induction Hnew as [|dt new Hdt Hnew IH]; intros q Hq; simpl; [assumption|].
  apply IH. apply insertTimer_all; assumption.
Qed.

Lemma insertTimer_sorted (t : Timer Task) (q : list (Timer Task)) :
  StronglySorted dueBefore q -> StronglySorted dueBefore (insertTimer Task t q).
Proof.
  induction q as [|u q IH]; simpl; intros H.
  - repeat constructor.
  - apply StronglySorted_inv in H as [Hq Hu].
    destruct (Z.leb_spec (fireAt u) (fireAt t)) as [Hle|Hgt].
    + constructor; [apply IH, Hq|]. apply insertTimer_all; assumption.
    + constructor; [constructor; assumption|].
      constructor; [unfold dueBefore; lia|].
      eapply Forall_impl; [|exact Hu]. unfold dueBefore. intros a Ha. lia.
Qed.

Lemma register_sorted (at_ : Z) (new : list (Z * Task)) (q : list (Timer Task)) :
  StronglySorted dueBefore q -> StronglySorted dueBefore (register Task at_ q new).
Proof.
  unfold register. revert q. induction new as [|dt new IH]; intros q Hq; simpl; [assumption|].
  apply IH, insertTimer_sorted, Hq.
Qed.

Lemma insertTimer_In (t u : Timer Task) (q : list (Timer Task)) :
  In u (insertTimer Task t q) <-> u = t \/ In u q.
Proof.
  induction q as [|v q IH]; simpl; [intuition congruence|].
  destruct (fireAt v <=? fireAt t)%Z; simpl; rewrite ?IH; intuition congruence.
Qed.

Lemma register_In (at_ : Z) (new : list (Z * Task)) (q : list (Timer Task)) (dt : Z * Task) :
  In dt new -> In {| fireAt := at_ + fst dt; callback := snd dt |} (register Task at_ q new).
Proof.
  unfold register. revert q. induction new as [|dt' new IH]; intros q; simpl; [tauto|].
  intros [->|Hin]; [|now apply IH].
  assert (Hkeep : forall new' q' u, In u q' ->
            In u (fold_left (fun q'' dt'' =>
                    insertTimer Task {| fireAt := at_ + fst dt''; callback := snd dt'' |} q'')
                  new' q')).
  { induction new' as [|d new' IH']; intros q' u Hu; simpl; [assumption|].
    apply IH'. apply insertTimer_In. now right. }
  apply Hkeep. apply insertTimer_In. now left.
Qed.

(** A new timer lands on one side of a timer already in the queue. *)
Lemma insertTimer_split (x t : Timer Task) (pre post : list (Timer Task)) :
  insertTimer Task x (pre ++ t :: post) = pre ++ t :: insertTimer Task x post \/
  insertTimer Task x (pre ++ t :: post) = insertTimer Task x pre ++ t :: post.
Proof.
  induction pre as [|u pre IH]; simpl.
  - destruct (fireAt t <=? fireAt x)%Z; auto.
  - destruct (fireAt u <=? fireAt x)%Z; [|now right].
    destruct IH as [->| ->]; auto.
Qed.

Lemma dueAt_insertTimer (T : Z) (x : Timer Task) (q : list (Timer Task)) :
  fireAt x <> T -> dueAt T (insertTimer Task x q) = dueAt T q.
Proof.
  intros Hx. unfold dueAt. induction q as [|u q IH]; simpl.
  - destruct (Z.eqb_spec (fireAt x) T); [contradiction | reflexivity].
  - destruct (fireAt u <=? fireAt x)%Z; simpl.
    + destruct (fireAt u =? T)%Z; simpl; now rewrite IH.
    + destruct (Z.eqb_spec (fireAt x) T); [contradiction | reflexivity].
Qed.

Lemma register_split (T at_ : Z) (new : list (Z * Task)) (t : Timer Task)
      (pre post : list (Timer Task)) :
  Forall (fun dt => at_ + fst dt <> T)%Z new ->
  exists pre' post',
    register Task at_ (pre ++ t :: post) new = pre' ++ t :: post' /\
    dueAt T pre' = dueAt T pre.
Proof.
  unfold register. intros Hnew. revert pre post.
  induction Hnew as [|dt new Hdt Hnew IH]; intros pre post; simpl.
  - exists pre, post. auto.
  - destruct (insertTimer_split {| fireAt := at_ + fst dt; callback := snd dt |} t pre post)
      as [-> | ->].
    + apply IH.
    + destruct (IH (insertTimer Task {| fireAt := at_ + fst dt; callback := snd dt |} pre) post)
        as [pre' [post' [Heq Hdue]]].
      exists pre', post'. split; [exact Heq|].
      rewrite Hdue. now apply dueAt_insertTimer.
Qed.

(** Firing the head of an ordered queue: the task runs at its due time,
    and what it registers is in the queue afterwards. *)
Lemma tick_head (l : Loop St Task) (t : Timer Task) (rest : list (Timer Task)) :
  ordered l ->
  timers l = t :: rest ->
  exists l',
    tick St Task exec l = Some l' /\
    state l' = fst (exec (callback t) (fireAt t) (state l)) /\
    forall dt, In dt (snd (exec (callback t) (fireAt t) (state l))) ->
               In {| fireAt := fireAt t + fst dt; callback := snd dt |} (timers l').
Proof.
  intros [_ Hdue] Hq. unfold tick. rewrite Hq in *. 
  pose proof (Forall_inv Hdue) as Hnow. simpl in Hnow.
  rewrite Z.max_r by exact Hnow.
  destruct (exec (callback t) (fireAt t) (state l)) as [st' new].
  eexists. split; [reflexivity|]. split; [reflexivity|].
  intros dt Hdt. simpl. apply register_In. exact Hdt.
Qed.

(** *** No starvation *)

(** Every delay handed to [setTimeout] is positive. *)
Hypothesis delays_positive :
  forall task clock st, Forall (fun dt => (0 < fst dt)%Z) (snd (exec task clock st)).

Lemma tick_ordered (l l' : Loop St Task) :
  ordered l -> tick St Task exec l = Some l' -> ordered l'.
Proof.
  unfold ordered, tick. intros [Hsorted Hdue].
  destruct (timers l) as [|h q]; [discriminate|].
  apply StronglySorted_inv in Hsorted as [Hq Hh].
  inversion Hdue as [|? ? Hnow Hrest]; subst.
  rewrite Z.max_r by exact Hnow.
  pose proof (delays_positive (callback h) (fireAt h) (state l)) as Hpos.
  destruct (exec (callback h) (fireAt h) (state l)) as [st' new].
  intros H. injection H as <-. simpl in *. split.
  - apply register_sorted, Hq.
  - apply register_all.
    + eapply Forall_impl; [|exact Hpos]. intros dt Hdt. simpl in *. lia.
    + exact Hh.
Qed.

Lemma run_ordered (fuel : nat) (l : Loop St Task) :
  ordered l -> ordered (run St Task exec fuel l).
Proof.
  revert l. induction fuel as [|fuel IH]; intros l H; simpl; [exact H|].
  destruct (tick St Task exec l) as [l'|] eqn:E; [|exact H].
  apply IH. eapply tick_ordered; eassumption.
Qed.

(** No starvation: a timer in the queue gets to its head. *)
Lemma eventually_first (d c : nat) :
  forall (l : Loop St Task) (before : list (Timer Task)) (t : Timer Task)
         (after : list (Timer Task)),
    ordered l ->
    timers l = before ++ t :: after ->
    Z.to_nat (fireAt t - now l) = d ->
    dueAt (now l) before = c ->
    exists fuel after', timers (run St Task exec fuel l) = t :: after'.
Proof.
  revert c. induction d as [d IHd] using lt_wf_ind.
  induction c as [c IHc] using lt_wf_ind.
  intros l before t after Hord Hq Hd Hc.
  destruct before as [|h before'].
  - exists 0%nat, after. exact Hq.
  - destruct (tick St Task exec l) as [l1|] eqn:Etick.
    2:{ unfold tick in Etick. rewrite Hq in Etick. simpl in Etick.
        destruct (exec _ _ _); discriminate. }
    pose proof (tick_ordered _ _ Hord Etick) as Hord1.
    destruct Hord as [Hsorted Hdue].
    unfold tick in Etick. rewrite Hq in Etick, Hsorted, Hdue.
    simpl in Etick, Hsorted, Hdue.
    apply StronglySorted_inv in Hsorted as [_ Hh].
    pose proof (Forall_inv Hdue) as Hnow. simpl in Hnow.
    rewrite Z.max_r in Etick by exact Hnow.
    pose proof (delays_positive (callback h) (fireAt h) (state l)) as Hpos.
    destruct (exec (callback h) (fireAt h) (state l)) as [st' new] eqn:Eexec.
    injection Etick as <-.
    destruct (register_split (fireAt h) (fireAt h) new t before' after) as [pre' [post' [Hreg Hsame]]].
    { eapply Forall_impl; [|exact Hpos]. intros dt Hdt. simpl in Hdt. lia. }
    assert (Hht : (fireAt h <= fireAt t)%Z).
    { apply Forall_app in Hh as [_ Hh]. exact (Forall_inv Hh). }
    set (l1 := {| now := fireAt h; state := st';
                  timers := register Task (fireAt h) (before' ++ t :: after) new |}) in *.
    assert (Hnext : exists fuel after', timers (run St Task exec fuel l1) = t :: after').
    { destruct (Z.eq_dec (fireAt h) (now l)) as [Heq|Hne].
      - apply (IHc (dueAt (now l1) pre')) with (before := pre') (after := post').
        + simpl. rewrite Hsame, <- Hc. unfold dueAt. simpl.
          rewrite <- Heq, Z.eqb_refl. simpl. lia.
        + exact Hord1.
        + exact Hreg.
        + simpl. now rewrite Heq.
        + reflexivity.
      - apply (IHd (Z.to_nat (fireAt t - now l1))) with (c := dueAt (now l1) pre')
                                                       (before := pre') (after := post').
        + simpl. rewrite <- Hd. lia.
        + exact Hord1.
        + exact Hreg.
        + reflexivity.
        + reflexivity. }
    destruct Hnext as [fuel [after' Hfuel]].
    exists (S fuel), after'. simpl. unfold tick. rewrite Hq. simpl.
    rewrite Z.max_r by exact Hnow. rewrite Eexec.
    exact Hfuel.
Qed.

End EventLoopFacts.

(** ** LoadingAnalysis and the results screen *)

(** C1.  For every image the analysis is the same timed sequence: the
    steps last 2000, 3000 and 2000 ms, so the step indicator moves at 0,
    2000 and 5000 ms, the bar is set to 100 at 7000 ms, and 500 ms later,
    at 7500 ms, [onComplete] is called; it is called once, and no timer is
    left afterwards, so nothing more happens however long the component
    stays mounted; the whole log of the run, the animation of the bar
    included, is the same for any two images.  The results screen that the page then renders gets the
    constant [mockPredictions]: three entries, Gir 87, Sahiwal 72 and Red
    Sindhi 64, whatever the state of the page. *)
Theorem analysis_is_a_fixed_timer (image : string) :
  map LoadingAnalysis.stepDuration LoadingAnalysis.analysisSteps = [2000; 3000; 2000]%Z /\
  LoadingAnalysis.summary image =
    ([ (0%Z, LoadingAnalysis.SetCurrentStep 0);
       (2000%Z, LoadingAnalysis.SetCurrentStep 1);
       (5000%Z, LoadingAnalysis.SetCurrentStep 2);
       (7500%Z, LoadingAnalysis.OnComplete) ],
     (7000%Z, 100%Q), [7500%Z], 7500%Z, true) /\
  (forall fuel : nat,
      (LoadingAnalysis.timersOfARun <= fuel)%nat ->
      LoadingAnalysis.runFor fuel image =
      LoadingAnalysis.runFor LoadingAnalysis.timersOfARun image) /\
  (forall other : string,
      LoadingAnalysis.log (state (LoadingAnalysis.runFor LoadingAnalysis.timersOfARun image)) =
      LoadingAnalysis.log (state (LoadingAnalysis.runFor LoadingAnalysis.timersOfARun other))) /\
  (forall (st : BreedAI.State) (img : string),
      JS.truthy (BreedAI.capturedImage st) = Some img ->
      BreedAI.renderContent (BreedAI.handleAnalysisComplete st) =
      BreedAI.ResultsScreen img BreedAI.mockPredictions) /\
  (forall (st : BreedAI.State) (img : string) (predictions : list BreedResults.BreedPrediction),
      BreedAI.renderContent st = BreedAI.ResultsScreen img predictions ->
      predictions = BreedAI.mockPredictions) /\
  map (fun p => (BreedResults.name p, BreedResults.confidence p)) BreedAI.mockPredictions =
    [ ("Gir", 87%Q); ("Sahiwal", 72%Q); ("Red Sindhi", 64%Q) ].
Proof.
  assert (Hsum : LoadingAnalysis.summary image =
    ([ (0%Z, LoadingAnalysis.SetCurrentStep 0);
       (2000%Z, LoadingAnalysis.SetCurrentStep 1);
       (5000%Z, LoadingAnalysis.SetCurrentStep 2);
       (7500%Z, LoadingAnalysis.OnComplete) ],
     (7000%Z, 100%Q), [7500%Z], 7500%Z, true)) by (vm_compute; reflexivity).
  split; [reflexivity|]. split; [exact Hsum|]. split; [|split; [|split; [|split]]].
  - intros fuel Hfuel.
    replace fuel with (LoadingAnalysis.timersOfARun + (fuel - LoadingAnalysis.timersOfARun))%nat by lia.
    unfold LoadingAnalysis.runFor. rewrite run_add. apply run_quiescent.
    pose proof (f_equal snd Hsum) as Hq.
    cbv beta zeta iota delta [snd LoadingAnalysis.summary LoadingAnalysis.runFor quiescent] in Hq.
    destruct (timers (run LoadingAnalysis.State LoadingAnalysis.Task LoadingAnalysis.exec
                          LoadingAnalysis.timersOfARun (LoadingAnalysis.mount image)));
      [reflexivity | discriminate].
  - intros other. vm_compute. reflexivity.
  - intros st img H. unfold BreedAI.renderContent, BreedAI.handleAnalysisComplete.
    simpl. now rewrite H.
  - intros st img predictions. unfold BreedAI.renderContent. cbv zeta.
    repeat match goal with
           | |- (if ?b then _ else _) = _ -> _ => destruct b
           | |- match ?o with Some _ => _ | None => _ end = _ -> _ => destruct o
           end; intros H; try discriminate H.
    now injection H.
  - reflexivity.
Qed.

(** A whole analysis of one image, and the results screen after it. *)
Lemma analysis_is_a_fixed_timer_witness :
  LoadingAnalysis.runFor 200 "blob:cow" = LoadingAnalysis.runFor LoadingAnalysis.timersOfARun "blob:cow" /\
  BreedAI.renderContent (BreedAI.handleAnalysisComplete Examples.analysing) =
  BreedAI.ResultsScreen "blob:cow" BreedAI.mockPredictions.
Proof.
  destruct (analysis_is_a_fixed_timer "blob:cow") as [_ [_ [Hrun [_ [Hshow _]]]]].
  split.
  - apply Hrun. unfold LoadingAnalysis.timersOfARun. lia.
  - apply Hshow. reflexivity.
Defined.

(** ** The page: one mode out of eleven *)

Lemma AppState_values_NoDup : NoDup BreedAI.AppState_values.
Proof.
  unfold BreedAI.AppState_values.
  repeat (constructor; [simpl; intros H; repeat (destruct H as [H|H]; [discriminate H|]); exact H|]).
  constructor.
Qed.

Lemma step_sets_a_mode (st : BreedAI.State) (c : BreedAI.Callback) :
  In (BreedAI.currentState (BreedAI.step st c)) BreedAI.AppState_values.
Proof.
  destruct c as [b| | | | | |]; simpl; [destruct b; simpl|..]; tauto.
Qed.

Lemma steps_snoc (st : BreedAI.State) (cs : list BreedAI.Callback) (c : BreedAI.Callback) :
  BreedAI.steps st (cs ++ [c]) = BreedAI.step (BreedAI.steps st cs) c.
Proof. unfold BreedAI.steps. now rewrite fold_left_app. Qed.

Lemma one_active_mode (st : BreedAI.State) :
  In (BreedAI.currentState st) BreedAI.AppState_values -> BreedAI.activeModes st = 1%nat.
Proof.
  unfold BreedAI.activeModes. intros H. simpl in H.
  repeat (destruct H as [H|H]; [rewrite <- H; reflexivity|]). contradiction.
Qed.

Lemma offeredAlong_reachable (cs : list BreedAI.Callback) (st : BreedAI.State) :
  BreedAI.reachable st ->
  BreedAI.offeredAlong st cs = true ->
  BreedAI.reachable (BreedAI.steps st cs).
Proof.
  revert st. induction cs as [|c cs IH]; intros st Hst Hok; simpl; [exact Hst|].
  simpl in Hok. apply andb_true_iff in Hok as [Hoff Hok].
  apply IH; [now apply BreedAI.reachable_step | exact Hok].
Qed.

(** C2.  [AppState] has eleven distinct values; every callback of the
    page leaves the mode at one of them, so after any sequence of
    callbacks, in whatever order they fire, the mode is one of the eleven
    and exactly one of the eleven is the active one; and each of the
    eleven is the mode of some state the user can reach through the
    screens. *)
Theorem currentState_is_one_of_eleven :
  BreedAI.AppState_values =
    [ "home"; "capture"; "multi-angle"; "batch"; "analytics"; "location";
      "voice"; "analyzing"; "results"; "database"; "confirmed" ] /\
  NoDup BreedAI.AppState_values /\
  (forall (st : BreedAI.State) (c : BreedAI.Callback),
      In (BreedAI.currentState (BreedAI.step st c)) BreedAI.AppState_values) /\
  (forall cs : list BreedAI.Callback,
      In (BreedAI.currentState (BreedAI.steps BreedAI.initial cs)) BreedAI.AppState_values /\
      BreedAI.activeModes (BreedAI.steps BreedAI.initial cs) = 1%nat) /\
  (forall st : BreedAI.State,
      BreedAI.reachable st ->
      In (BreedAI.currentState st) BreedAI.AppState_values /\ BreedAI.activeModes st = 1%nat) /\
  (forall mode : BreedAI.AppState,
      In mode BreedAI.AppState_values ->
      exists st, BreedAI.reachable st /\ BreedAI.currentState st = mode).
Proof.
  split; [reflexivity|]. split; [exact AppState_values_NoDup|].
  split; [exact step_sets_a_mode|].
  assert (Hseq : forall cs, In (BreedAI.currentState (BreedAI.steps BreedAI.initial cs))
                               BreedAI.AppState_values).
  { intros cs. induction cs as [|c cs _] using rev_ind.
    - simpl. tauto.
    - rewrite steps_snoc. apply step_sets_a_mode. }
  assert (Hreach : forall st, BreedAI.reachable st ->
                              In (BreedAI.currentState st) BreedAI.AppState_values).
  { intros st H. destruct H; [simpl; tauto | apply step_sets_a_mode]. }
  split; [|split].
  - intros cs. split; [apply Hseq | apply one_active_mode, Hseq].
  - intros st H. split; [apply Hreach, H | apply one_active_mode, Hreach, H].
  - pose (go := fun cs => BreedAI.steps BreedAI.initial cs).
    assert (Hgo : forall cs, BreedAI.offeredAlong BreedAI.initial cs = true ->
                             BreedAI.reachable (go cs))
      by (intros cs; apply offeredAlong_reachable, BreedAI.reachable_initial).
    intros mode Hmode. simpl in Hmode.
    destruct Hmode as [<-|[<-|[<-|[<-|[<-|[<-|[<-|[<-|[<-|[<-|[<-|[]]]]]]]]]]]].
    + exists (go []). split; [apply Hgo|]; reflexivity.
    + exists (go [BreedAI.Click BreedAI.QuickAnalysis]). split; [apply Hgo|]; reflexivity.
    + exists (go [BreedAI.Click BreedAI.MultiAngleAnalysis]). split; [apply Hgo|]; reflexivity.
    + exists (go [BreedAI.Click BreedAI.BatchProcessingButton]). split; [apply Hgo|]; reflexivity.
    + exists (go [BreedAI.Click BreedAI.ViewAnalytics]). split; [apply Hgo|]; reflexivity.
    + exists (go [BreedAI.Click BreedAI.LocationServices]). split; [apply Hgo|]; reflexivity.
    + exists (go [BreedAI.Click BreedAI.VoiceCommandsButton]). split; [apply Hgo|]; reflexivity.
    + exists (go [BreedAI.Click BreedAI.QuickAnalysis;
                  BreedAI.HandleImageCapture Examples.photo "blob:cow"]).
      split; [apply Hgo|]; reflexivity.
    + exists (go [BreedAI.Click BreedAI.QuickAnalysis;
                  BreedAI.HandleImageCapture Examples.photo "blob:cow";
                  BreedAI.HandleAnalysisComplete]).
      split; [apply Hgo|]; reflexivity.
    + exists (go [BreedAI.Click BreedAI.BreedDatabaseButton]). split; [apply Hgo|]; reflexivity.
    + exists (go [BreedAI.Click BreedAI.QuickAnalysis;
                  BreedAI.HandleImageCapture Examples.photo "blob:cow";
                  BreedAI.HandleAnalysisComplete;
                  BreedAI.HandleBreedConfirm
                    {| BreedResults.name := "Gir"; BreedResults.hindiName := "";
                       BreedResults.confidence := 87; BreedResults.characteristics := [];
                       BreedResults.region := "" |}]).
      split; [apply Hgo|]; reflexivity.
Qed.

(** The page after a capture: one step keeps the mode among the eleven,
    and the state is reachable with one active mode. *)
Lemma currentState_is_one_of_eleven_witness :
  BreedAI.reachable Examples.analysing /\
  BreedAI.currentState Examples.analysing = "analyzing" /\
  BreedAI.activeModes Examples.analysing = 1%nat.
Proof.
  assert (Hr : BreedAI.reachable Examples.analysing).
  { unfold Examples.analysing. simpl.
    apply (BreedAI.reachable_step
             (BreedAI.step BreedAI.initial (BreedAI.Click BreedAI.QuickAnalysis))
             (BreedAI.HandleImageCapture Examples.photo "blob:cow")); [|reflexivity].
    apply (BreedAI.reachable_step BreedAI.initial (BreedAI.Click BreedAI.QuickAnalysis));
      [apply BreedAI.reachable_initial | reflexivity]. }
  destruct currentState_is_one_of_eleven as [_ [_ [_ [_ [Hreach _]]]]].
  split; [exact Hr|]. split; [reflexivity|]. exact (proj2 (Hreach _ Hr)).
Defined.

(** ** VoiceCommands: the keyword lookup *)

Lemma find_first {A : Type} (p : A -> bool) (l : list A) (x : A) :
  find p l = Some x ->
  exists before after,
    l = before ++ x :: after /\ p x = true /\ (forall y, In y before -> p y = false).
Proof.
  induction l as [|y l IH]; simpl; [discriminate|].
  destruct (p y) eqn:E.
  - intros H. injection H as ->. exists [], l. repeat split; [assumption | intros ? []].
  - intros H. destruct (IH H) as [before [after [Hl [Hx Hbefore]]]].
    exists (y :: before), after. repeat split.
    + simpl. now rewrite Hl.
    + assumption.
    + intros z [<-|Hz]; [assumption | now apply Hbefore].
Qed.

Section VoiceCommandFacts.

Variables toLowerCase trim : string -> string.

Lemma matches_spec (heard : string) (cmd : VoiceCommands.Command) :
  VoiceCommands.matches toLowerCase heard cmd = true <->
  JS.includes heard (toLowerCase (VoiceCommands.english cmd)) = true \/
  JS.includes heard (VoiceCommands.hindi cmd) = true.
Proof. unfold VoiceCommands.matches. apply orb_true_iff. Qed.

Lemma dispatched_eq (env : VoiceCommands.Env) (st : VoiceCommands.State)
      (transcript : string) (conf : Q) :
  VoiceCommands.dispatched toLowerCase trim env st transcript conf =
  match find (VoiceCommands.matches toLowerCase
                (VoiceCommands.normalize toLowerCase trim transcript))
             VoiceCommands.voiceCommands with
  | Some cmd =>
      if JS.gtb conf (7 # 10) && VoiceCommands.hasOnCommand env
      then [VoiceCommands.action cmd] else []
  | None => []
  end.
Proof.
  unfold VoiceCommands.dispatched, VoiceCommands.processCommand, VoiceCommands.speak.
  destruct (find _ VoiceCommands.voiceCommands) as [cmd|];
    destruct (JS.gtb conf (7 # 10)); destruct (VoiceCommands.hasOnCommand env);
    destruct (VoiceCommands.voiceEnabled st);
    destruct (VoiceCommands.hasSpeechSynthesis env); reflexivity.
Qed.

(** C3.  With the [onCommand] prop given, [processCommand] calls it if
    and only if the lowercased, trimmed transcript contains the
    lowercased English keyword or the Hindi keyword of one of the seven
    commands and the confidence is above 0.7; it then calls it once, with
    the action of the first command of the list whose keyword occurs. *)
Theorem processCommand_dispatch (env : VoiceCommands.Env) (st : VoiceCommands.State)
        (transcript : string) (conf : Q) :
  VoiceCommands.hasOnCommand env = true ->
  let heard := trim (toLowerCase transcript) in
  let spoken := fun cmd : VoiceCommands.Command =>
    JS.includes heard (toLowerCase (VoiceCommands.english cmd)) = true \/
    JS.includes heard (VoiceCommands.hindi cmd) = true in
  let calls := VoiceCommands.dispatched toLowerCase trim env st transcript conf in
  length VoiceCommands.voiceCommands = 7%nat /\
  (calls <> [] <->
   (exists cmd, In cmd VoiceCommands.voiceCommands /\ spoken cmd) /\ (7 # 10 < conf)%Q) /\
  (forall action : string,
      In action calls ->
      calls = [action] /\
      exists before cmd after,
        VoiceCommands.voiceCommands = before ++ cmd :: after /\
        spoken cmd /\
        (forall earlier, In earlier before -> ~ spoken earlier) /\
        action = VoiceCommands.action cmd).
Proof.
  intros Henv heard spoken calls.
  assert (Hspoken : forall cmd,
             VoiceCommands.matches toLowerCase heard cmd = true <-> spoken cmd)
    by (intros cmd; apply matches_spec).
  subst calls. rewrite dispatched_eq, Henv, andb_true_r.
  unfold VoiceCommands.normalize. fold heard.
  split; [reflexivity|].
  destruct (find _ VoiceCommands.voiceCommands) as [cmd|] eqn:Efind.
  - pose proof (find_some _ _ Efind) as [Hin Hmatch].
    destruct (JS.gtb conf (7 # 10)) eqn:Econf.
    + split.
      * split; [intros _|intros _; discriminate].
        split; [exists cmd; split; [assumption | now apply Hspoken] | now apply gtb_spec].
      * intros action [<-|[]]. split; [reflexivity|].
        destruct (find_first _ _ _ Efind) as [before [after [Hl [_ Hbefore]]]].
        exists before, cmd, after. repeat split.
        -- exact Hl.
        -- now apply Hspoken.
        -- intros earlier He Hs. apply Hspoken in Hs. rewrite (Hbefore _ He) in Hs.
           discriminate.
    + split; [|intros action []].
      split; [intros H; now contradiction H|].
      intros [_ Hconf]. apply gtb_spec in Hconf. congruence.
  - split; [|intros action []].
    split; [intros H; now contradiction H|].
    intros [[cmd [Hin Hs]] _]. apply Hspoken in Hs.
    rewrite (find_none _ _ Efind cmd Hin) in Hs. discriminate.
Qed.

End VoiceCommandFacts.

(** "Please RETAKE photo", heard with confidence 0.9: the call happens,
    and its action is that of "take photo", the first command whose
    keyword occurs in the transcript. *)
Lemma processCommand_dispatch_witness :
  VoiceCommands.hasOnCommand Examples.voiceEnv = true /\
  VoiceCommands.dispatched JS.toLowerCaseAscii JS.trimAscii
    Examples.voiceEnv Examples.voiceState Examples.heard (9 # 10) = ["takePhoto"] /\
  exists before cmd after,
    VoiceCommands.voiceCommands = before ++ cmd :: after /\
    "takePhoto" = VoiceCommands.action cmd.
Proof.
  split; [reflexivity|].
  assert (Hcalls : VoiceCommands.dispatched JS.toLowerCaseAscii JS.trimAscii
            Examples.voiceEnv Examples.voiceState Examples.heard (9 # 10) = ["takePhoto"])
    by (vm_compute; reflexivity).
  split; [exact Hcalls|].
  destruct (processCommand_dispatch JS.toLowerCaseAscii JS.trimAscii
              Examples.voiceEnv Examples.voiceState Examples.heard (9 # 10) eq_refl)
    as [_ [_ Hfirst]].
  destruct (Hfirst "takePhoto") as [_ [before [cmd [after [Hl [_ [_ Ha]]]]]]].
  - rewrite Hcalls. left. reflexivity.
  - exists before, cmd, after. split; assumption.
Defined.

(** ** BreedDatabase: the search filter *)

Lemma filter_subsequence {A : Type} (p : A -> bool) (l : list A) :
  JS.subsequence (filter p l) l.
Proof.
  induction l as [|x l IH]; simpl; [constructor|].
  destruct (p x); now constructor.
Qed.

Lemma filter_all {A : Type} (p : A -> bool) (l : list A) :
  (forall x, In x l -> p x = true) -> filter p l = l.
Proof.
  induction l as [|x l IH]; intros H; simpl; [reflexivity|].
  rewrite (H x (or_introl eq_refl)). f_equal. apply IH. intros y Hy. apply H. now right.
Qed.

Section BreedDatabaseFacts.

Variable toLowerCase : string -> string.

(** C7.  A breed is shown if and only if it is one of the six of the
    database, the search term occurs in its name or its region (both
    sides lowercased) or, as typed, in its Hindi name, and the type
    filter is "all" or the breed's type; the breeds shown keep the order
    of the database; the empty search term with the filter "all" shows
    all six. *)
Theorem filteredBreeds_spec (searchTerm selectedType : string) :
  length BreedDatabase.breedDatabase = 6%nat /\
  (forall breed : BreedDatabase.Breed,
      In breed (BreedDatabase.filteredBreeds toLowerCase searchTerm selectedType) <->
      In breed BreedDatabase.breedDatabase /\
      (JS.includes (toLowerCase (BreedDatabase.name breed)) (toLowerCase searchTerm) = true \/
       JS.includes (BreedDatabase.hindiName breed) searchTerm = true \/
       JS.includes (toLowerCase (BreedDatabase.region breed)) (toLowerCase searchTerm) = true) /\
      (selectedType = "all" \/ BreedDatabase.type breed = selectedType)) /\
  JS.subsequence (BreedDatabase.filteredBreeds toLowerCase searchTerm selectedType)
                 BreedDatabase.breedDatabase /\
  BreedDatabase.filteredBreeds toLowerCase "" "all" = BreedDatabase.breedDatabase.
Proof.
  split; [reflexivity|]. split; [|split].
  - intros breed. unfold BreedDatabase.filteredBreeds.
    rewrite filter_In, andb_true_iff.
    unfold BreedDatabase.matchesSearch, BreedDatabase.matchesType.
    rewrite !orb_true_iff, !String.eqb_eq. tauto.
  - apply filter_subsequence.
  - unfold BreedDatabase.filteredBreeds. apply filter_all. intros breed _.
    unfold BreedDatabase.matchesSearch, BreedDatabase.matchesType.
    rewrite includes_empty. simpl. now rewrite orb_true_r.
Qed.

End BreedDatabaseFacts.

(** "PUNJAB" with the buffalo filter shows Murrah; the empty search
    with "all" shows the six breeds. *)
Lemma filteredBreeds_spec_witness :
  In Examples.murrah (BreedDatabase.filteredBreeds JS.toLowerCaseAscii "PUNJAB" "buffalo") /\
  length (BreedDatabase.filteredBreeds JS.toLowerCaseAscii "" "all") = 6%nat.
Proof.
  destruct (filteredBreeds_spec JS.toLowerCaseAscii "PUNJAB" "buffalo")
    as [Hsix [Hshown [_ Hall]]].
  split.
  - apply Hshown. split; [|split].
    + simpl. tauto.
    + right. right. reflexivity.
    + right. reflexivity.
  - rewrite Hall. exact Hsix.
Defined.

(** ** BatchProcessing: the queue *)

Lemma updateAt_nth (i : nat) (f : BatchProcessing.BatchItem -> BatchProcessing.BatchItem)
      (l : list BatchProcessing.BatchItem) :
  nth_error (BatchProcessing.updateAt i f l) i = option_map f (nth_error l i).
Proof.
  unfold BatchProcessing.updateAt, JS.mapi. rewrite mapi_from_nth. simpl.
  now rewrite Nat.eqb_refl.
Qed.

Lemma updateAt_length (i : nat) (f : BatchProcessing.BatchItem -> BatchProcessing.BatchItem)
      (l : list BatchProcessing.BatchItem) :
  length (BatchProcessing.updateAt i f l) = length l.
Proof. apply mapi_from_length. Qed.

(** [Math.floor(Math.random() * 5)] is an index of the mock results. *)
Lemma drawn_index_in_range (r : Q) :
  (0 <= r)%Q -> (r < 1)%Q ->
  exists m, BatchProcessing.at_ BatchProcessing.mockBreedResults
              (JS.floorIndex r (length BatchProcessing.mockBreedResults)) = Some m /\
            In m BatchProcessing.mockBreedResults.
Proof.
  intros H0 H1. unfold JS.floorIndex. simpl length.
  set (i := Qfloor (r * inject_Z (Z.of_nat 5))).
  assert (Hlo : (0 <= i)%Z).
  { change 0%Z with (Qfloor 0). apply Qfloor_resp_le.
    change (inject_Z (Z.of_nat 5)) with 5%Q. lra. }
  assert (Hhi : (i < 5)%Z).
  { rewrite Zlt_Qlt. eapply Qle_lt_trans; [apply Qfloor_le|].
    change (inject_Z (Z.of_nat 5)) with 5%Q. change (inject_Z 5) with 5%Q. lra. }
  unfold BatchProcessing.at_.
  destruct (Z.ltb_spec i 0) as [Hneg|_]; [lia|].
  assert (Hi : (Z.to_nat i < 5)%nat) by lia.
  destruct (nth_error BatchProcessing.mockBreedResults (Z.to_nat i)) as [m|] eqn:E.
  - exists m. split; [reflexivity | eapply nth_error_In; eassumption].
  - apply nth_error_None in E. simpl in E. lia.
Qed.

Section BatchFacts.

Variable random : nat -> Q.
Variable createObjectURL : nat -> JS.File -> string.
Variable numberToString : Q -> string.

(** C5.  An item of the queue that reaches the end of [processNextItem],
    with the first draw in the range of [Math.random], is left in one of
    two states: when the second draw is above 0.1, "completed", with a
    result that is one of the five pairs of [mockBreedResults] and no
    error; otherwise "error", with the fixed message and no result. *)
Theorem finished_item_outcome (index : nat) (clock : Z) (st : BatchProcessing.State)
        (item : BatchProcessing.BatchItem) :
  nth_error (BatchProcessing.batchItems st) index = Some item ->
  (0 <= random (BatchProcessing.draws st))%Q ->
  (random (BatchProcessing.draws st) < 1)%Q ->
  let success := (1 # 10 < random (S (BatchProcessing.draws st)))%Q in
  map (fun m => (BatchProcessing.mockBreed m, BatchProcessing.mockConfidence m))
      BatchProcessing.mockBreedResults =
    [ ("Gir", 87%Q); ("Sahiwal", 82%Q); ("Murrah", 91%Q); ("Red Sindhi", 76%Q);
      ("Nili Ravi", 89%Q) ] /\
  exists item',
    nth_error (BatchProcessing.batchItems (BatchProcessing.complete random index clock st))
              index = Some item' /\
    ((success /\
      BatchProcessing.status item' = "completed" /\
      (exists m, In m BatchProcessing.mockBreedResults /\
                 BatchProcessing.result item' =
                 Some {| BatchProcessing.breed := BatchProcessing.mockBreed m;
                         BatchProcessing.confidence := BatchProcessing.mockConfidence m;
                         BatchProcessing.timestamp := clock |}) /\
      BatchProcessing.error item' = None) \/
     (~ success /\
      BatchProcessing.status item' = "error" /\
      BatchProcessing.result item' = None /\
      BatchProcessing.error item' = Some "Failed to process image. Please try again.")).
Proof.
  intros Hitem H0 H1 success. split; [reflexivity|].
  destruct (drawn_index_in_range _ H0 H1) as [m [Hm Hin]].
  unfold BatchProcessing.complete. rewrite Hm. simpl.
  rewrite updateAt_nth, Hitem. simpl.
  eexists. split; [reflexivity|].
  destruct (JS.gtb (random (S (BatchProcessing.draws st))) (1 # 10)) eqn:E; simpl.
  - left. apply gtb_spec in E. repeat split; [exact E|]. exists m. split; [exact Hin | reflexivity].
  - right. apply gtb_false in E. repeat split; exact E.
Qed.

(** *** Adding images *)

Lemma mapi_from_ext {A B : Type} (f g : A -> nat -> B) (start : nat) (l : list A) :
  (forall x k, f x k = g x k) -> JS.mapi_from f start l = JS.mapi_from g start l.
Proof.
  intros H. revert start. induction l as [|x l IH]; intros start; simpl; [reflexivity|].
  now rewrite H, IH.
Qed.

Lemma mapi_from_S {A B : Type} (f : A -> nat -> B) (start : nat) (l : list A) :
  JS.mapi_from f (S start) l = JS.mapi_from (fun x k => f x (S k)) start l.
Proof.
  revert start. induction l as [|x l IH]; intros start; simpl; [reflexivity|].
  now rewrite IH.
Qed.

Lemma mapi_from_Forall {A B : Type} (P : B -> Prop) (f : A -> nat -> B) (start : nat)
      (l : list A) :
  (forall x k, P (f x k)) -> Forall P (JS.mapi_from f start l).
Proof.
  intros H. revert start. induction l as [|x l IH]; intros start; simpl; constructor; auto.
Qed.

Lemma mapi_from_map {A B C : Type} (h : B -> C) (h' : A -> C) (f : A -> nat -> B)
      (start : nat) (l : list A) :
  (forall x k, h (f x k) = h' x) -> map h (JS.mapi_from f start l) = map h' l.
Proof.
  intros H. revert start. induction l as [|x l IH]; intros start; simpl; [reflexivity|].
  now rewrite H, IH.
Qed.

Lemma filter_drops {A : Type} (p : A -> bool) (l : list A) :
  (length (filter p l) <= length l)%nat /\
  ((length (filter p l) < length l)%nat <-> exists x, In x l /\ p x = false).
Proof.
  induction l as [|x l [IHle IHlt]]; simpl.
  - split; [lia|]. split; [lia | intros [x [[] _]]].
  - destruct (p x) eqn:E; simpl.
    + split; [lia|]. split.
      * intros H. destruct (proj1 IHlt) as [y [Hy Hp]]; [lia|]. exists y. auto.
      * intros [y [[<-|Hy] Hp]]; [congruence|].
        assert (length (filter p l) < length l)%nat by (apply IHlt; eauto). lia.
    + split; [lia|]. split; [intros _; exists x; auto | intros _; lia].
Qed.

Lemma fold_addFile (clock : Z) (files : list JS.File) (st : BatchProcessing.State) :
  let st' := fold_left (BatchProcessing.addFile random createObjectURL numberToString clock)
                       files st in
  BatchProcessing.batchItems st' =
    BatchProcessing.batchItems st ++
    JS.mapi_from (fun file k =>
                    BatchProcessing.newItem random createObjectURL numberToString clock file
                      (BatchProcessing.draws st + k) (BatchProcessing.urls st + k))
                 0 (filter BatchProcessing.isImage files) /\
  BatchProcessing.toasts st' = BatchProcessing.toasts st /\
  BatchProcessing.isProcessing st' = BatchProcessing.isProcessing st /\
  BatchProcessing.currentProcessingIndex st' = BatchProcessing.currentProcessingIndex st.
Proof.
  revert st. induction files as [|file files IH]; intros st; simpl.
  - rewrite app_nil_r. auto.
  - unfold BatchProcessing.addFile at 2 4 6 8. unfold BatchProcessing.isImage at 1.
    destruct (JS.startsWith (JS.fileType file) "image/") eqn:E.
    + match goal with
      | |- context [fold_left _ files ?st1] => destruct (IH st1) as [Hitems [Ht [Hp Hi]]]
      end.
      rewrite Hitems, Ht, Hp, Hi. simpl. rewrite <- app_assoc. simpl.
      rewrite !Nat.add_0_r, mapi_from_S.
      repeat split. do 2 f_equal. apply mapi_from_ext. intros x k.
      f_equal; lia.
    + apply IH.
Qed.

(** C9.  [addImagesToBatch] appends to the queue one item for each file
    whose type starts with "image/", in the order of the selection, each
    "pending" with progress 0 and neither result nor error; the items
    already in the queue stay as they are; the "Images Added" toast names
    the number of selected files, which is larger than the number of items
    appended exactly when a file that is not an image was among them.
    Without a file list nothing happens. *)
Theorem addImagesToBatch_appends_images (files : list JS.File) (clock : Z)
        (st : BatchProcessing.State) :
  let st' := BatchProcessing.addImagesToBatch random createObjectURL numberToString
               (Some files) clock st in
  let images := filter BatchProcessing.isImage files in
  let added :=
    JS.mapi (fun file k =>
               BatchProcessing.newItem random createObjectURL numberToString clock file
                 (BatchProcessing.draws st + k) (BatchProcessing.urls st + k)) images in
  BatchProcessing.batchItems st' = BatchProcessing.batchItems st ++ added /\
  map BatchProcessing.fileName added = map JS.fileName images /\
  Forall (fun item => BatchProcessing.status item = "pending" /\
                      BatchProcessing.progress item = 0%Z /\
                      BatchProcessing.result item = None /\
                      BatchProcessing.error item = None) added /\
  BatchProcessing.toasts st' =
    BatchProcessing.toasts st ++
    [ {| JS.title := "Images Added";
         JS.description := (JS.natToString (length files) ++
                            " images added to batch queue")%string;
         JS.destructive := false; JS.duration := None |} ] /\
  ((length added < length files)%nat <->
   exists file, In file files /\ JS.startsWith (JS.fileType file) "image/" = false) /\
  BatchProcessing.addImagesToBatch random createObjectURL numberToString None clock st = st.
Proof.
  intros st' images added.
  destruct (fold_addFile clock files st) as [Hitems [Htoasts _]].
  assert (Hlen : length added = length images) by apply mapi_from_length.
  split; [exact Hitems|]. split; [|split; [|split; [|split]]].
  - apply mapi_from_map. reflexivity.
  - apply mapi_from_Forall. intros x k. repeat split.
  - subst st'. unfold BatchProcessing.addImagesToBatch. simpl. now rewrite Htoasts.
  - rewrite Hlen. apply (filter_drops BatchProcessing.isImage files).
  - reflexivity.
Qed.

(** *** Processing *)

Local Abbreviation batchExec := (BatchProcessing.exec random createObjectURL numberToString).

Lemma render_pastTheGuard (st : BatchProcessing.State) :
  Forall (fun dt => forall due,
              BatchProcessing.pastTheGuard {| fireAt := due; callback := snd dt |})
         (BatchProcessing.render st).
Proof.
  unfold BatchProcessing.render.
  destruct (BatchProcessing.isProcessing st); simpl; [|constructor].
  destruct (Nat.ltb_spec (BatchProcessing.currentProcessingIndex st)
                         (length (BatchProcessing.batchItems st))); constructor.
  - intros due. exact H.
  - constructor.
Qed.

Lemma render_past_the_end (st : BatchProcessing.State) :
  (length (BatchProcessing.batchItems st) <= BatchProcessing.currentProcessingIndex st)%nat ->
  BatchProcessing.render st = [].
Proof.
  intros H. unfold BatchProcessing.render.
  destruct (Nat.ltb_spec (BatchProcessing.currentProcessingIndex st)
                         (length (BatchProcessing.batchItems st))); [lia|].
  now rewrite andb_false_r.
Qed.

Lemma complete_keeps (index : nat) (clock : Z) (st : BatchProcessing.State) :
  let st' := BatchProcessing.complete random index clock st in
  BatchProcessing.isProcessing st' = BatchProcessing.isProcessing st /\
  BatchProcessing.toasts st' = BatchProcessing.toasts st /\
  length (BatchProcessing.batchItems st') = length (BatchProcessing.batchItems st).
Proof.
  unfold BatchProcessing.complete.
  destruct (BatchProcessing.at_ _ _); [|destruct (JS.gtb _ _)]; simpl;
    rewrite ?updateAt_length; auto.
Qed.

Lemma progressLoop_keeps (index : nat) (p clock : Z) (st : BatchProcessing.State) :
  let '(st', registered) := BatchProcessing.progressLoop random index p clock st in
  BatchProcessing.isProcessing st' = BatchProcessing.isProcessing st /\
  BatchProcessing.toasts st' = BatchProcessing.toasts st /\
  length (BatchProcessing.batchItems st') = length (BatchProcessing.batchItems st) /\
  Forall (fun dt => forall due,
              BatchProcessing.pastTheGuard {| fireAt := due; callback := snd dt |})
         registered.
Proof.
  unfold BatchProcessing.progressLoop. destruct (p <=? 100)%Z.
  - repeat split. constructor; [intros due; exact I | constructor].
  - destruct (complete_keeps index clock st) as [Hp [Ht Hl]]. repeat split; auto.
Qed.

(** A timer that is past the guard leaves processing on, shows no toast,
    keeps the queue as long as it was, and registers only timers that
    are past the guard. *)
Lemma exec_pastTheGuard (t : Timer BatchProcessing.Task) (clock : Z)
      (st : BatchProcessing.State) :
  BatchProcessing.pastTheGuard t ->
  let '(st', registered) := batchExec (callback t) clock st in
  BatchProcessing.isProcessing st' = BatchProcessing.isProcessing st /\
  BatchProcessing.toasts st' = BatchProcessing.toasts st /\
  length (BatchProcessing.batchItems st') = length (BatchProcessing.batchItems st) /\
  Forall (fun dt => forall due,
              BatchProcessing.pastTheGuard {| fireAt := due; callback := snd dt |})
         registered.
Proof.
  unfold BatchProcessing.pastTheGuard, BatchProcessing.exec.
  destruct (callback t) as [| | | | | |index items|index p]; try contradiction; intros H; simpl.
  - unfold BatchProcessing.processNextItem.
    destruct (Nat.leb_spec (length items) index) as [Hle|_]; [lia|].
    pose proof (progressLoop_keeps index 0 clock
                  (BatchProcessing.setBatchItems
                     (BatchProcessing.updateAt index (BatchProcessing.withStatus "processing"))
                     st)) as Hloop.
    destruct (BatchProcessing.progressLoop random index 0 clock _) as [st' registered].
    destruct Hloop as [Hp [Ht [Hl Hreg]]]. simpl in Hl. rewrite updateAt_length in Hl.
    repeat split; [exact Hp | exact Ht | exact Hl |].
    apply Forall_app. split; [exact Hreg | apply render_pastTheGuard].
  - unfold BatchProcessing.afterDelay.
    pose proof (progressLoop_keeps index (p + 10) clock
                  (BatchProcessing.setBatchItems
                     (BatchProcessing.updateAt index (BatchProcessing.withProgress p)) st))
      as Hloop.
    destruct (BatchProcessing.progressLoop random index (p + 10) clock _) as [st' registered].
    destruct Hloop as [Hp [Ht [Hl Hreg]]]. simpl in Hl. rewrite updateAt_length in Hl.
    repeat split; [exact Hp | exact Ht | exact Hl |].
    apply Forall_app. split; [exact Hreg | apply render_pastTheGuard].
Qed.

Lemma tick_stillProcessing (l l' : Loop BatchProcessing.State BatchProcessing.Task) :
  BatchProcessing.stillProcessing l ->
  tick _ _ batchExec l = Some l' ->
  BatchProcessing.stillProcessing l' /\
  length (BatchProcessing.batchItems (state l')) =
  length (BatchProcessing.batchItems (state l)).
Proof.
  unfold BatchProcessing.stillProcessing, tick. intros [Hp [Ht Hq]].
  destruct (timers l) as [|t rest]; [discriminate|].
  apply Forall_cons_iff in Hq as [Hguard Hrest].
  pose proof (exec_pastTheGuard t (Z.max (now l) (fireAt t)) (state l) Hguard) as Hexec.
  destruct (batchExec (callback t) _ _) as [st' registered].
  destruct Hexec as [Hp' [Ht' [Hl' Hreg]]].
  intros H. injection H as <-. simpl.
  rewrite Hp', Ht'. repeat split; [exact Hp | exact Ht | | exact Hl'].
  apply register_all; [|exact Hrest].
  eapply Forall_impl; [|exact Hreg]. intros dt Hdt. apply Hdt.
Qed.

Lemma run_stillProcessing (fuel : nat)
      (l : Loop BatchProcessing.State BatchProcessing.Task) :
  BatchProcessing.stillProcessing l ->
  BatchProcessing.stillProcessing (run _ _ batchExec fuel l) /\
  length (BatchProcessing.batchItems (state (run _ _ batchExec fuel l))) =
  length (BatchProcessing.batchItems (state l)).
Proof.
  revert l. induction fuel as [|fuel IH]; intros l H; simpl; [auto|].
  destruct (tick _ _ batchExec l) as [l'|] eqn:E; [|auto].
  destruct (tick_stillProcessing _ _ H E) as [H' Hl'].
  destruct (IH l' H') as [Hrun Hlen]. split; [exact Hrun | congruence].
Qed.

(** *** The first call reaches its end *)

Lemma batch_delays_positive (task : BatchProcessing.Task) (clock : Z)
      (st : BatchProcessing.State) :
  Forall (fun dt => (0 < fst dt)%Z) (snd (batchExec task clock st)).
Proof.
  unfold BatchProcessing.exec.
  destruct (BatchProcessing.body random createObjectURL numberToString task clock st)
    as [st' registered] eqn:Ebody. simpl.
  apply Forall_app. split.
  - destruct task; simpl in Ebody; try (injection Ebody as <- <-; constructor).
    + unfold BatchProcessing.processNextItem, BatchProcessing.progressLoop in Ebody.
      destruct (length items <=? index)%nat; simpl in Ebody;
        injection Ebody as <- <-; repeat constructor.
    + unfold BatchProcessing.afterDelay, BatchProcessing.progressLoop in Ebody.
      destruct (progressValue + 10 <=? 100)%Z; injection Ebody as <- <-; repeat constructor.
  - unfold BatchProcessing.render.
    destruct (_ && _); repeat constructor.
Qed.

Lemma afterDelay_continues (index : nat) (p clock : Z) (st : BatchProcessing.State) :
  (p + 10 <= 100)%Z ->
  In (150%Z, BatchProcessing.AfterDelay index (p + 10))
     (snd (batchExec (BatchProcessing.AfterDelay index p) clock st)).
Proof.
  intros Hp. unfold BatchProcessing.exec. simpl.
  unfold BatchProcessing.afterDelay, BatchProcessing.progressLoop.
  destruct (Z.leb_spec (p + 10) 100) as [_|Hgt]; [|lia].
  simpl. left. reflexivity.
Qed.

(** Every draw is a value of [Math.random]. *)
Hypothesis random_in_range : forall k, (0 <= random k)%Q /\ (random k < 1)%Q.

Lemma complete_moves_on (index : nat) (clock : Z) (st : BatchProcessing.State) :
  BatchProcessing.currentProcessingIndex (BatchProcessing.complete random index clock st) =
  S (BatchProcessing.currentProcessingIndex st).
Proof.
  unfold BatchProcessing.complete.
  destruct (random_in_range (BatchProcessing.draws st)) as [H0 H1].
  destruct (drawn_index_in_range _ H0 H1) as [m [Hm _]].
  rewrite Hm. reflexivity.
Qed.

(** A call in its progress loop, [k] updates before the last, moves the
    index on when its loop ends. *)
Lemma progress_loop_ends (k : nat) :
  forall (l : Loop BatchProcessing.State BatchProcessing.Task) (index : nat) (due : Z),
    ordered l ->
    In {| fireAt := due;
          callback := BatchProcessing.AfterDelay index (100 - 10 * Z.of_nat k) |}
       (timers l) ->
    exists fuel,
      (1 <= BatchProcessing.currentProcessingIndex (state (run _ _ batchExec fuel l)))%nat.
Proof.
  induction k as [|k IH]; intros l index due Hord Hin.
  - apply in_split in Hin as [before [after Hq]].
    destruct (eventually_first _ _ batchExec batch_delays_positive _ _ l before _ after
                Hord Hq eq_refl eq_refl) as [fuel1 [after' Hhead]].
    pose proof (run_ordered _ _ batchExec batch_delays_positive fuel1 l Hord) as Hord1.
    destruct (tick_head _ _ batchExec _ _ _ Hord1 Hhead) as [l2 [Htick [Hstate _]]].
    exists (fuel1 + 1)%nat. rewrite run_add. simpl. rewrite Htick, Hstate.
    simpl. unfold BatchProcessing.exec. simpl.
    unfold BatchProcessing.afterDelay, BatchProcessing.progressLoop. simpl.
    rewrite complete_moves_on. lia.
  - apply in_split in Hin as [before [after Hq]].
    destruct (eventually_first _ _ batchExec batch_delays_positive _ _ l before _ after
                Hord Hq eq_refl eq_refl) as [fuel1 [after' Hhead]].
    pose proof (run_ordered _ _ batchExec batch_delays_positive fuel1 l Hord) as Hord1.
    destruct (tick_head _ _ batchExec _ _ _ Hord1 Hhead) as [l2 [Htick [_ Hreg]]].
    pose proof (tick_ordered _ _ batchExec batch_delays_positive _ _ Hord1 Htick) as Hord2.
    destruct (IH l2 index (due + 150)%Z Hord2) as [fuel2 Hdone].
    + replace (100 - 10 * Z.of_nat k)%Z with (100 - 10 * Z.of_nat (S k) + 10)%Z by lia.
      apply (Hreg (150%Z, BatchProcessing.AfterDelay index
                            (100 - 10 * Z.of_nat (S k) + 10))).
      apply afterDelay_continues. lia.
    + exists (fuel1 + (1 + fuel2))%nat. rewrite !run_add. simpl. rewrite Htick. exact Hdone.
Qed.

(** With one image queued and the batch started, the first call of
    [processNextItem] reaches its end: the index gets to 1. *)
Lemma first_call_ends :
  exists fuel,
    (1 <= BatchProcessing.currentProcessingIndex
            (state (BatchProcessing.runFor random createObjectURL numberToString fuel
                      [Examples.photo])))%nat.
Proof.
  unfold BatchProcessing.runFor.
  assert (Hord : ordered (BatchProcessing.started random createObjectURL numberToString
                            [Examples.photo])).
  { split; simpl.
    - repeat constructor.
    - repeat constructor. simpl. lia. }
  destruct (tick_head _ _ batchExec _ _ _ Hord eq_refl) as [l1 [Htick [_ Hreg]]].
  pose proof (tick_ordered _ _ batchExec batch_delays_positive _ _ Hord Htick) as Hord1.
  destruct (progress_loop_ends 10 l1 0%nat (100 + 150)%Z Hord1) as [fuel Hdone].
  - apply (Hreg (150%Z, BatchProcessing.AfterDelay 0 0)). simpl. left. reflexivity.
  - exists (S fuel). rewrite (run_S _ _ _ _ _ _ Htick). exact Hdone.
Qed.

End BatchFacts.

(** A photo and a text file are selected: one item is appended, and the
    toast speaks of 2 images. *)
Lemma addImagesToBatch_appends_images_witness :
  let st' := BatchProcessing.addImagesToBatch Examples.halves Examples.blobUrl
               Examples.numberText (Some [Examples.photo; Examples.notes]) 0
               BatchProcessing.initial in
  map BatchProcessing.fileName (BatchProcessing.batchItems st') = ["cow.jpg"] /\
  map JS.description (BatchProcessing.toasts st') = ["2 images added to batch queue"] /\
  exists file, In file [Examples.photo; Examples.notes] /\
               JS.startsWith (JS.fileType file) "image/" = false.
Proof.
  destruct (addImagesToBatch_appends_images Examples.halves Examples.blobUrl
              Examples.numberText [Examples.photo; Examples.notes] 0
              BatchProcessing.initial)
    as [Hitems [_ [_ [Htoasts [Hcount _]]]]].
  cbv zeta. rewrite Hitems, Htoasts.
  split; [reflexivity|]. split; [reflexivity|].
  apply Hcount. simpl. lia.
Defined.

(** One item at the end of its progress loop, both draws one half: the
    item ends "completed" or "error", and here it is "completed". *)
Lemma finished_item_outcome_witness :
  exists item',
    nth_error (BatchProcessing.batchItems
                 (BatchProcessing.complete Examples.halves 0 1750 Examples.oneItemQueue)) 0
      = Some item' /\
    In (BatchProcessing.status item') ["completed"; "error"].
Proof.
  destruct (finished_item_outcome Examples.halves 0 1750 Examples.oneItemQueue
              Examples.pendingItem eq_refl)
    as [_ [item' [Hnth [[_ [Hstatus _]]|[_ [Hstatus _]]]]]].
  - unfold Examples.halves, Qle. simpl. lia.
  - reflexivity.
  - exists item'. split; [exact Hnth|]. rewrite Hstatus. simpl. auto.
  - exists item'. split; [exact Hnth|]. rewrite Hstatus. simpl. auto.
Defined.

(** C4.  One image in the queue, "Start Processing" pressed.  Every call
    of [processNextItem] that a render schedules has its index inside its
    queue, so none takes the branch that stops the batch: however many
    timers fire, [isProcessing] is still true and no "Batch Processing
    Complete" toast has been shown.  The index does reach the length of
    the queue, where a render schedules nothing and so nothing is left
    that could stop the batch.  And before that every render schedules a
    further call for the same index:
    after five timers three calls are in their progress loop for item 0
    at once, and the progress of the item, 10 after seven timers, is back
    at 0 after nine. *)
Theorem batch_never_completes
        (random : nat -> Q) (createObjectURL : nat -> JS.File -> string)
        (numberToString : Q -> string) :
  let after := fun fuel : nat =>
    BatchProcessing.runFor random createObjectURL numberToString fuel [Examples.photo] in
  (forall st : BatchProcessing.State,
      Forall (fun dt => forall due,
                  BatchProcessing.pastTheGuard {| fireAt := due; callback := snd dt |})
             (BatchProcessing.render st)) /\
  (forall fuel : nat,
      BatchProcessing.isProcessing (state (after fuel)) = true /\
      filter BatchProcessing.isCompleteToast (BatchProcessing.toasts (state (after fuel))) = [] /\
      Forall BatchProcessing.pastTheGuard (timers (after fuel))) /\
  ((forall k, (0 <= random k)%Q /\ (random k < 1)%Q) ->
   exists fuel : nat,
     (length (BatchProcessing.batchItems (state (after fuel))) <=
      BatchProcessing.currentProcessingIndex (state (after fuel)))%nat /\
     BatchProcessing.render (state (after fuel)) = []) /\
  BatchProcessing.inFlight 0 (timers (after 5%nat)) = [10; 0; 10]%Z /\
  BatchProcessing.progressBars (after 7%nat) = [10%Z] /\
  BatchProcessing.progressBars (after 9%nat) = [0%Z].
Proof.
  intros after.
  assert (Hstart : BatchProcessing.stillProcessing
                     (BatchProcessing.started random createObjectURL numberToString
                        [Examples.photo])).
  { unfold BatchProcessing.stillProcessing. repeat split.
    simpl. constructor; [|constructor].
    unfold BatchProcessing.pastTheGuard. simpl. lia. }
  split; [apply render_pastTheGuard|]. split; [|split].
  - intros fuel. apply run_stillProcessing, Hstart.
  - intros Hrandom.
    destruct (first_call_ends random createObjectURL numberToString Hrandom) as [fuel Hdone].
    exists fuel.
    assert (Hlen : (length (BatchProcessing.batchItems (state (after fuel))) <=
                    BatchProcessing.currentProcessingIndex (state (after fuel)))%nat).
    { subst after. cbv beta. unfold BatchProcessing.runFor.
      rewrite (proj2 (run_stillProcessing random createObjectURL numberToString fuel _ Hstart)).
      exact Hdone. }
    split; [exact Hlen | apply render_past_the_end, Hlen].
  - repeat split; vm_compute; reflexivity.
Qed.

(** With every draw one half the index reaches the length of the queue,
    and processing is still on. *)
Lemma batch_never_completes_witness :
  exists fuel : nat,
    let l := BatchProcessing.runFor Examples.halves Examples.blobUrl Examples.numberText fuel
               [Examples.photo] in
    (length (BatchProcessing.batchItems (state l)) <=
     BatchProcessing.currentProcessingIndex (state l))%nat /\
    BatchProcessing.isProcessing (state l) = true /\
    filter BatchProcessing.isCompleteToast (BatchProcessing.toasts (state l)) = [].
Proof.
  destruct (batch_never_completes Examples.halves Examples.blobUrl Examples.numberText)
    as [_ [Hon [Hend _]]].
  destruct Hend as [fuel [Hlen _]].
  - intros k. unfold Examples.halves, Qle, Qlt. simpl. lia.
  - exists fuel. cbv zeta. split; [exact Hlen|].
    destruct (Hon fuel) as [Hp [Ht _]]. split; assumption.
Defined.

(** ** GeolocationFeatures: reporting the outcome *)

Lemma skipn_app_exact {A : Type} (l l' : list A) : skipn (length l) (l ++ l') = l'.
Proof. induction l; simpl; auto. Qed.

(** The unsupported browser: the call sets the error and returns; there
    is no toast, so neither the success nor the failure report holds. *)
Lemma unsupported_browser_reports_nothing :
  Examples.afterUnsupported =
    GeolocationFeatures.setError (Some "Geolocation is not supported by this browser")
                                 Examples.locationMounted /\
  GeolocationFeatures.newToasts Examples.locationMounted Examples.afterUnsupported = [] /\
  (forall code : option Z,
      ~ GeolocationFeatures.reportsFailure code Examples.locationMounted
          Examples.afterUnsupported) /\
  (forall (coords : GeolocationFeatures.Coords) (clock : Z),
      ~ GeolocationFeatures.reportsSuccess Examples.noDigits coords clock
          Examples.locationMounted Examples.afterUnsupported).
Proof.
  split; [reflexivity|]. split; [reflexivity|]. split.
  - intros code [_ [_ [Htoasts _]]]. discriminate Htoasts.
  - intros coords clock [region [_ [_ [_ [_ [Htoasts _]]]]]]. discriminate Htoasts.
Qed.

(** C6, amended.  In a browser with [navigator.geolocation] the call
    reports with a toast in both directions: on a position it stores the
    location merged with the mock address (the coordinates, the accuracy
    and the clock of the position; the address text of the two coordinates,
    "Sample District", the state chosen by the latitude, "India"), hands
    that location to [onLocationUpdate] if the prop is given, clears the
    error and shows "Location Updated"; on an error it keeps the stored location, sets the
    message of the error code (1 denied, 2 unavailable, 3 timed out,
    anything else "Failed to get location") and shows the destructive
    "Location Error" toast; either way [isLoading] ends false.  In a
    browser without it the call only sets the error "Geolocation is not
    supported by this browser": no toast, and the location and [isLoading]
    stay as they were. *)
Theorem getCurrentLocation_outcome
        (toFixed : Q -> nat -> string) (env : GeolocationFeatures.Env)
        (outcome : GeolocationFeatures.Outcome) (clock : Z)
        (st : GeolocationFeatures.State) :
  let result := GeolocationFeatures.getCurrentLocation toFixed env outcome clock st in
  (if GeolocationFeatures.hasGeolocation env then
     match outcome with
     | GeolocationFeatures.Resolved coords =>
         GeolocationFeatures.reportsSuccess toFixed coords clock st (fst result) /\
         GeolocationFeatures.error (fst result) = None /\
         (exists l, GeolocationFeatures.location (fst result) = Some l /\
                    snd result = if GeolocationFeatures.hasOnLocationUpdate env
                                 then [GeolocationFeatures.OnLocationUpdate l] else [])
     | GeolocationFeatures.Rejected code =>
         GeolocationFeatures.reportsFailure code st (fst result) /\
         snd result = []
     end
   else
     fst result =
       GeolocationFeatures.setError (Some "Geolocation is not supported by this browser") st /\
     snd result = [] /\
     GeolocationFeatures.newToasts st (fst result) = [] /\
     GeolocationFeatures.location (fst result) = GeolocationFeatures.location st /\
     GeolocationFeatures.isLoading (fst result) = GeolocationFeatures.isLoading st) /\
  GeolocationFeatures.errorMessageOf (Some 1%Z) =
    "Location access denied. Please enable location permissions." /\
  GeolocationFeatures.errorMessageOf (Some 2%Z) =
    "Location unavailable. Please check your GPS settings." /\
  GeolocationFeatures.errorMessageOf (Some 3%Z) =
    "Location request timed out. Please try again." /\
  (forall code : option Z,
      code <> Some 1%Z -> code <> Some 2%Z -> code <> Some 3%Z ->
      GeolocationFeatures.errorMessageOf code = "Failed to get location").
Proof.
  intros result. split; [|repeat split].
  - subst result. unfold GeolocationFeatures.getCurrentLocation.
    destruct (GeolocationFeatures.hasGeolocation env); simpl.
    + destruct outcome as [coords|code]; simpl.
      * unfold GeolocationFeatures.reportsSuccess, GeolocationFeatures.newToasts. simpl.
        rewrite skipn_app_exact. split; [|split; [reflexivity | eauto]].
        destruct (JS.gtb (GeolocationFeatures.coordsLatitude coords) 26) eqn:E26;
          [|destruct (JS.gtb (GeolocationFeatures.coordsLatitude coords) 23) eqn:E23];
          first [apply gtb_spec in E26 | apply gtb_false in E26];
          try first [apply gtb_spec in E23 | apply gtb_false in E23];
          eexists; (split; [|split; [|split; [|split; [reflexivity | split; reflexivity]]]]);
          intros; first [reflexivity | exfalso; lra | exfalso; tauto].
      * unfold GeolocationFeatures.reportsFailure, GeolocationFeatures.newToasts. simpl.
        rewrite skipn_app_exact. auto.
    + unfold GeolocationFeatures.newToasts. simpl. rewrite skipn_all. auto.
  - intros code H1 H2 H3. destruct code as [[|p|p]|]; try reflexivity.
    destruct p as [p|p|]; [destruct p | destruct p |]; try reflexivity; congruence.
Qed.

(** A position near Ludhiana with an accuracy of 12.4 m: the stored
    location is spelled out, with the state "Punjab", and the toast names
    12 m.  A refused permission: the failure report, with the message of
    code 1. *)
Lemma getCurrentLocation_outcome_witness :
  (let after := fst (GeolocationFeatures.getCurrentLocation Examples.noDigits
                       Examples.withGeolocation
                       (GeolocationFeatures.Resolved Examples.ludhiana) 7
                       Examples.afterUnsupported) in
   GeolocationFeatures.location after =
     Some {| GeolocationFeatures.latitude := 309 # 10;
             GeolocationFeatures.longitude := 7585 # 100;
             GeolocationFeatures.accuracy := 124 # 10;
             GeolocationFeatures.timestamp := 7;
             GeolocationFeatures.address := Some "Latitude: 0.0000, Longitude: 0.0000";
             GeolocationFeatures.district := Some "Sample District";
             GeolocationFeatures.state := Some "Punjab";
             GeolocationFeatures.country := Some "India" |} /\
   GeolocationFeatures.newToasts Examples.afterUnsupported after =
     [ {| JS.title := "Location Updated";
          JS.description := "Location captured with 12m accuracy";
          JS.destructive := false; JS.duration := None |} ] /\
   GeolocationFeatures.isLoading after = false /\
   GeolocationFeatures.error after = None) /\
  GeolocationFeatures.reportsFailure (Some 1%Z) Examples.locationMounted
    (fst (GeolocationFeatures.getCurrentLocation Examples.noDigits Examples.withGeolocation
            (GeolocationFeatures.Rejected (Some 1%Z)) 0 Examples.locationMounted)) /\
  GeolocationFeatures.errorMessageOf None = "Failed to get location".
Proof.
  split; [|split].
  - destruct (getCurrentLocation_outcome Examples.noDigits Examples.withGeolocation
                (GeolocationFeatures.Resolved Examples.ludhiana) 7
                Examples.afterUnsupported)
      as [[[region [Hpunjab [_ [_ [Hlocation [Htoasts Hloading]]]]]] [Herror _]] _].
    assert (Hregion : region = "Punjab")
      by (apply Hpunjab; unfold Qlt; simpl; lia).
    subst region. cbv zeta. split; [exact Hlocation|].
    split; [exact Htoasts|]. split; [exact Hloading | exact Herror].
  - destruct (getCurrentLocation_outcome Examples.noDigits Examples.withGeolocation
                (GeolocationFeatures.Rejected (Some 1%Z)) 0 Examples.locationMounted)
      as [[Hreport _] _].
    exact Hreport.
  - destruct (getCurrentLocation_outcome Examples.noDigits Examples.withGeolocation
                (GeolocationFeatures.Rejected (Some 1%Z)) 0 Examples.locationMounted)
      as [_ [_ [_ [_ Hother]]]].
    apply Hother; discriminate.
Defined.

(* ------------------------------------------------------------------ *)
(** ** CameraCapture: the camera and the upload input *)

Lemma camera_step_idle (st : CameraCapture.State) (e : CameraCapture.Event) :
  CameraCapture.isStreamActive st = false ->
  CameraCapture.capturedImage st = None ->
  CameraCapture.isStreamActive (fst (CameraCapture.step st e)) = false /\
  CameraCapture.capturedImage (fst (CameraCapture.step st e)) = None.
Proof.
  intros Hs Hc.
  destruct e as [granted|blobUrl|blob clock|granted|chosen objectUrl]; simpl.
  - unfold CameraCapture.startCamera, CameraCapture.videoMounted.
    rewrite Hc, Hs. destruct granted; simpl; auto.
  - unfold CameraCapture.capturePhoto, CameraCapture.videoMounted.
    rewrite Hc, Hs. auto.
  - auto.
  - unfold CameraCapture.retakePhoto, CameraCapture.startCamera,
      CameraCapture.videoMounted. simpl. rewrite Hs. destruct granted; simpl; auto.
  - auto.
Qed.

Lemma camera_step_effects (st : CameraCapture.State) (e : CameraCapture.Event)
      (eff : CameraCapture.Effect) :
  CameraCapture.capturedImage st = None ->
  In eff (snd (CameraCapture.step st e)) ->
  exists f u, e = CameraCapture.HandleFileUpload (Some f) u /\
              eff = CameraCapture.OnImageCapture f u /\
              JS.startsWith (JS.fileType f) "image/" = true.
Proof.
  intros Hc.
  destruct e as [granted|blobUrl|blob clock|granted|chosen objectUrl]; simpl;
    try tauto.
  - unfold CameraCapture.confirmCapture. rewrite Hc. simpl. tauto.
  - unfold CameraCapture.handleFileUpload.
    destruct chosen as [f|]; [|simpl; tauto].
    destruct (JS.startsWith (JS.fileType f) "image/") eqn:E; simpl; [|tauto].
    intros [<-|[]]. exists f, objectUrl. auto.
Qed.

Lemma camera_session_idle (es : list CameraCapture.Event) :
  forall st : CameraCapture.State,
    CameraCapture.isStreamActive st = false ->
    CameraCapture.capturedImage st = None ->
    CameraCapture.isStreamActive (fst (CameraCapture.session st es)) = false /\
    CameraCapture.capturedImage (fst (CameraCapture.session st es)) = None /\
    Forall (fun entry =>
              exists f u, fst entry = CameraCapture.HandleFileUpload (Some f) u /\
                          snd entry = CameraCapture.OnImageCapture f u /\
                          JS.startsWith (JS.fileType f) "image/" = true)
           (snd (CameraCapture.session st es)).
Proof.
  induction es as [|e es IH]; intros st Hs Hc; simpl.
  - auto.
  - destruct (camera_step_idle st e Hs Hc) as [Hs' Hc'].
    pose proof (camera_step_effects st e) as Heff.
    destruct (CameraCapture.step st e) as [st' effs]. simpl in *.
    specialize (IH st' Hs' Hc').
    destruct (CameraCapture.session st' es) as [final log]. simpl in *.
    destruct IH as [H1 [H2 H3]]. repeat split; try assumption.
    apply Forall_app. split; [|assumption].
    apply Forall_forall. intros [e' eff] Hin. apply in_map_iff in Hin.
    destruct Hin as [eff' [Heq Hin]]. injection Heq as <- <-. simpl.
    now apply Heff.
Qed.

(** X1.  In [CameraCapture] the camera never starts: the [<video>]
    element is rendered only once [isStreamActive] is true, and
    [startCamera] sets it only when the element exists.  So whatever the
    user and the browser do from the mounted component, the stream stays
    off, no photo is ever taken, and every call of [onImageCapture] comes
    from the upload input, with the chosen file (of an image type) and
    its object URL. *)
Theorem camera_capture_only_uploads (es : list CameraCapture.Event) :
  CameraCapture.isStreamActive
    (fst (CameraCapture.session CameraCapture.initial es)) = false /\
  CameraCapture.capturedImage
    (fst (CameraCapture.session CameraCapture.initial es)) = None /\
  Forall (fun entry =>
            exists f u, fst entry = CameraCapture.HandleFileUpload (Some f) u /\
                        snd entry = CameraCapture.OnImageCapture f u /\
                        JS.startsWith (JS.fileType f) "image/" = true)
         (snd (CameraCapture.session CameraCapture.initial es)).
Proof.
  apply camera_session_idle; reflexivity.
Qed.

(* ------------------------------------------------------------------ *)
(** ** MultiAngleCapture: the camera, the angle index, the images *)

Lemma multi_step_idle (st : MultiAngleCapture.State) (e : MultiAngleCapture.Event) :
  MultiAngleCapture.isStreamActive st = false ->
  MultiAngleCapture.capturedImage st = None ->
  MultiAngleCapture.isStreamActive (fst (MultiAngleCapture.step st e)) = false /\
  MultiAngleCapture.capturedImage (fst (MultiAngleCapture.step st e)) = None.
Proof.
  intros Hs Hc. destruct e; simpl.
  - unfold MultiAngleCapture.startCamera, MultiAngleCapture.videoMounted.
    rewrite Hc, Hs. destruct granted; simpl; auto.
  - auto.
  - unfold MultiAngleCapture.capturePhoto, MultiAngleCapture.videoMounted.
    rewrite Hc, Hs. auto.
  - unfold MultiAngleCapture.confirmCapture. rewrite Hc. simpl. auto.
  - unfold MultiAngleCapture.retakePhoto, MultiAngleCapture.startCamera,
      MultiAngleCapture.videoMounted. simpl. rewrite Hs. destruct granted; simpl; auto.
  - unfold MultiAngleCapture.handleFileUpload.
    destruct chosen as [f|]; [|auto].
    destruct (MultiAngleCapture.currentAngle st); [|auto].
    destruct (JS.startsWith (JS.fileType f) "image/"); simpl; auto.
  - auto.
  - unfold MultiAngleCapture.goToPreviousAngle.
    destruct (0 <? MultiAngleCapture.currentAngleIndex st)%Z; simpl; auto.
  - auto.
  - auto.
  - auto.
Qed.

(** An image of the state after a step was there before, or the step
    is an upload of it. *)
Lemma multi_step_images (st : MultiAngleCapture.State) (e : MultiAngleCapture.Event)
      (img : MultiAngleCapture.CapturedImage) :
  MultiAngleCapture.capturedImage st = None ->
  In img (MultiAngleCapture.capturedImages (fst (MultiAngleCapture.step st e))) ->
  In img (MultiAngleCapture.capturedImages st) \/
  (e = MultiAngleCapture.HandleFileUpload (Some (MultiAngleCapture.file img))
         (MultiAngleCapture.url img) (MultiAngleCapture.timestamp img) /\
   JS.startsWith (JS.fileType (MultiAngleCapture.file img)) "image/" = true).
Proof.
  intros Hc. destruct e; simpl; auto.
  - unfold MultiAngleCapture.startCamera. destruct granted; simpl; auto.
  - unfold MultiAngleCapture.capturePhoto, MultiAngleCapture.videoMounted.
    rewrite Hc. destruct (MultiAngleCapture.isStreamActive st); [|auto].
    destruct blobUrl; simpl; auto.
  - unfold MultiAngleCapture.confirmCapture. rewrite Hc. simpl. auto.
  - unfold MultiAngleCapture.retakePhoto, MultiAngleCapture.startCamera.
    destruct granted; simpl; auto.
  - unfold MultiAngleCapture.handleFileUpload.
    destruct chosen as [f|]; [|auto].
    destruct (MultiAngleCapture.currentAngle st) as [a|]; [|auto].
    destruct (JS.startsWith (JS.fileType f) "image/") eqn:E; simpl; [|auto].
    rewrite in_app_iff. intros [H|[<-|[]]]; [auto|]. simpl. auto.
  - intros H. apply filter_In in H. tauto.
  - unfold MultiAngleCapture.goToPreviousAngle.
    destruct (0 <? MultiAngleCapture.currentAngleIndex st)%Z; simpl; auto.
Qed.

Lemma multi_session_idle (es : list MultiAngleCapture.Event) :
  forall st : MultiAngleCapture.State,
    MultiAngleCapture.isStreamActive st = false ->
    MultiAngleCapture.capturedImage st = None ->
    MultiAngleCapture.isStreamActive (fst (MultiAngleCapture.session st es)) = false /\
    MultiAngleCapture.capturedImage (fst (MultiAngleCapture.session st es)) = None /\
    forall img,
      In img (MultiAngleCapture.capturedImages (fst (MultiAngleCapture.session st es))) ->
      In img (MultiAngleCapture.capturedImages st) \/
      (In (MultiAngleCapture.HandleFileUpload (Some (MultiAngleCapture.file img))
             (MultiAngleCapture.url img) (MultiAngleCapture.timestamp img)) es /\
       JS.startsWith (JS.fileType (MultiAngleCapture.file img)) "image/" = true).
Proof.
  induction es as [|e es IH]; intros st Hs Hc; simpl.
  - auto.
  - destruct (multi_step_idle st e Hs Hc) as [Hs' Hc'].
    pose proof (multi_step_images st e) as Himg.
    destruct (MultiAngleCapture.step st e) as [st' effs]. simpl in *.
    specialize (IH st' Hs' Hc').
    destruct (MultiAngleCapture.session st' es) as [final log]. simpl in *.
    destruct IH as [H1 [H2 H3]]. repeat split; try assumption.
    intros img Hin. destruct (H3 img Hin) as [H|[H Ht]].
    + destruct (Himg img Hc H) as [H'|[H' Ht]]; [auto|]. right. auto.
    + right. auto.
Qed.

(** X2.  In [MultiAngleCapture], too, the camera never starts (the
    [<video>] element that [startCamera] needs is rendered only while the
    stream is already active).  Whatever the user and the browser do from
    the mounted component, the stream stays off, no photo is taken, and
    every captured image is a file of an image type handed over by the
    upload input, with the object URL and the time of that upload. *)
Theorem multi_angle_only_uploads (es : list MultiAngleCapture.Event) :
  MultiAngleCapture.isStreamActive
    (fst (MultiAngleCapture.session MultiAngleCapture.initial es)) = false /\
  MultiAngleCapture.capturedImage
    (fst (MultiAngleCapture.session MultiAngleCapture.initial es)) = None /\
  Forall (fun img =>
            In (MultiAngleCapture.HandleFileUpload (Some (MultiAngleCapture.file img))
                  (MultiAngleCapture.url img) (MultiAngleCapture.timestamp img)) es /\
            JS.startsWith (JS.fileType (MultiAngleCapture.file img)) "image/" = true)
         (MultiAngleCapture.capturedImages
            (fst (MultiAngleCapture.session MultiAngleCapture.initial es))).
Proof.
  destruct (multi_session_idle es MultiAngleCapture.initial eq_refl eq_refl)
    as [H1 [H2 H3]].
  repeat split; try assumption.
  apply Forall_forall. intros img Hin. destruct (H3 img Hin) as [[]|H]. exact H.
Qed.

Lemma findIndexFrom_angle (a : MultiAngleCapture.Angle) :
  In a MultiAngleCapture.requiredAngles ->
  (0 <= MultiAngleCapture.findIndexFrom
          (fun b => String.eqb (MultiAngleCapture.angleId b) (MultiAngleCapture.angleId a)) 0
          MultiAngleCapture.requiredAngles <= MultiAngleCapture.lastAngleIndex)%Z /\
  option_map MultiAngleCapture.angleId
    (nth_error MultiAngleCapture.requiredAngles
       (Z.to_nat (MultiAngleCapture.findIndexFrom
                    (fun b => String.eqb (MultiAngleCapture.angleId b) (MultiAngleCapture.angleId a)) 0
                    MultiAngleCapture.requiredAngles))) =
  Some (MultiAngleCapture.angleId a).
Proof.
  simpl. intros [<- | [<- | [<- | [<- | []]]]]; vm_compute; repeat split; congruence.
Qed.

Lemma currentAngle_in_range (st : MultiAngleCapture.State) :
  (0 <= MultiAngleCapture.currentAngleIndex st <= MultiAngleCapture.lastAngleIndex)%Z ->
  exists a, MultiAngleCapture.currentAngle st = Some a /\
            In a MultiAngleCapture.requiredAngles.
Proof.
  unfold MultiAngleCapture.lastAngleIndex, MultiAngleCapture.currentAngle. simpl.
  intros H. destruct (Z.ltb_spec (MultiAngleCapture.currentAngleIndex st) 0); [lia|].
  assert (Hi : MultiAngleCapture.currentAngleIndex st = 0%Z \/
               MultiAngleCapture.currentAngleIndex st = 1%Z \/
               MultiAngleCapture.currentAngleIndex st = 2%Z \/
               MultiAngleCapture.currentAngleIndex st = 3%Z) by lia.
  destruct Hi as [-> | [-> | [-> | ->]]]; simpl; eexists; split; try reflexivity; simpl; tauto.
Qed.

Lemma advance_in_range (st : MultiAngleCapture.State) :
  (0 <= MultiAngleCapture.currentAngleIndex st <= MultiAngleCapture.lastAngleIndex)%Z ->
  (0 <= MultiAngleCapture.advance st <= MultiAngleCapture.lastAngleIndex)%Z.
Proof.
  unfold MultiAngleCapture.advance.
  destruct (Z.ltb_spec (MultiAngleCapture.currentAngleIndex st)
                       MultiAngleCapture.lastAngleIndex); lia.
Qed.

Lemma isAngleCaptured_In (angle_id : string) (st : MultiAngleCapture.State) :
  MultiAngleUI.isAngleCaptured angle_id st = true <->
  exists img, In img (MultiAngleCapture.capturedImages st) /\
              MultiAngleCapture.id img = angle_id.
Proof.
  unfold MultiAngleUI.isAngleCaptured. rewrite existsb_exists.
  split; intros [img [Hin H]]; exists img; (split; [assumption|]).
  - now apply String.eqb_eq.
  - now apply String.eqb_eq.
Qed.

Lemma step_wellPlaced (st : MultiAngleCapture.State) (e : MultiAngleCapture.Event) :
  MultiAngleUI.wellPlaced st ->
  MultiAngleUI.fromTheScreen st e = true ->
  MultiAngleUI.wellPlaced (fst (MultiAngleCapture.step st e)).
Proof.
  intros [Hidx Himgs] Hscreen.
  destruct (currentAngle_in_range st Hidx) as [a [Ha Hin]].
  pose proof (advance_in_range st Hidx) as Hadv.
  destruct e; simpl; try (split; assumption).
  - unfold MultiAngleCapture.startCamera. destruct granted; split; assumption.
  - unfold MultiAngleCapture.capturePhoto.
    destruct (MultiAngleCapture.videoMounted st); [|split; assumption].
    destruct blobUrl; split; assumption.
  - unfold MultiAngleCapture.confirmCapture. rewrite Ha.
    destruct (JS.truthy (MultiAngleCapture.capturedImage st)); [|split; assumption].
    destruct blob; [|split; assumption].
    split; simpl; [assumption|]. apply Forall_app. split; [assumption|].
    constructor; [|constructor]. exists a. simpl. auto.
  - unfold MultiAngleCapture.retakePhoto, MultiAngleCapture.startCamera.
    destruct granted; split; assumption.
  - unfold MultiAngleCapture.handleFileUpload. rewrite Ha.
    destruct chosen as [f|]; [|split; assumption].
    destruct (JS.startsWith (JS.fileType f) "image/"); [|split; assumption].
    split; simpl; [assumption|]. apply Forall_app. split; [assumption|].
    constructor; [|constructor]. exists a. simpl. auto.
  - simpl in Hscreen. apply isAngleCaptured_In in Hscreen.
    destruct Hscreen as [img [Himg <-]].
    rewrite Forall_forall in Himgs. destruct (Himgs img Himg) as [b [Hb [Hid _]]].
    split; simpl.
    + rewrite Hid. apply findIndexFrom_angle. assumption.
    + apply Forall_forall. intros img' Hin'. apply filter_In in Hin'.
      apply Himgs. tauto.
  - unfold MultiAngleCapture.goToPreviousAngle.
    destruct (Z.ltb_spec 0 (MultiAngleCapture.currentAngleIndex st));
      split; simpl; try assumption; lia.
Qed.

(** X3.  As long as images are removed through the buttons of the
    screen (which exist only on captured images), the angle index stays
    within the four angles, so [currentAngle] is always defined, and
    every captured image carries the id and the name of one of the four
    angles. *)
Theorem angle_index_stays_in_range (es : list MultiAngleCapture.Event) :
  MultiAngleUI.allFromTheScreen MultiAngleCapture.initial es = true ->
  MultiAngleUI.wellPlaced (fst (MultiAngleCapture.session MultiAngleCapture.initial es)) /\
  exists a,
    MultiAngleCapture.currentAngle
      (fst (MultiAngleCapture.session MultiAngleCapture.initial es)) = Some a /\
    In a MultiAngleCapture.requiredAngles.
Proof.
  assert (Hgen : forall st,
             MultiAngleUI.wellPlaced st ->
             MultiAngleUI.allFromTheScreen st es = true ->
             MultiAngleUI.wellPlaced (fst (MultiAngleCapture.session st es))).
  { induction es as [|e es IH]; intros st Hwp Hall; simpl; [assumption|].
    simpl in Hall. apply andb_true_iff in Hall. destruct Hall as [He Hall].
    pose proof (step_wellPlaced st e Hwp He) as Hwp'.
    destruct (MultiAngleCapture.step st e) as [st' effs]. simpl in *.
    specialize (IH st' Hwp' Hall).
    destruct (MultiAngleCapture.session st' es). exact IH. }
  intros Hall.
  assert (Hwp : MultiAngleUI.wellPlaced
                  (fst (MultiAngleCapture.session MultiAngleCapture.initial es))).
  { apply Hgen; [|assumption]. split; [vm_compute; split; congruence | constructor]. }
  split; [assumption|]. apply currentAngle_in_range. apply Hwp.
Qed.

Lemma angle_index_stays_in_range_witness :
  MultiAngleUI.wellPlaced
    (fst (MultiAngleCapture.session MultiAngleCapture.initial Scenarios.uploadRemoveUpload)) /\
  exists a,
    MultiAngleCapture.currentAngle
      (fst (MultiAngleCapture.session MultiAngleCapture.initial
              Scenarios.uploadRemoveUpload)) = Some a /\
    In a MultiAngleCapture.requiredAngles.
Proof.
  apply angle_index_stays_in_range. reflexivity.
Defined.

(** X4.  Removing the images of one of the four angles leaves no image
    of that angle, keeps every other image, and makes that angle the
    current one, so that it can be captured again. *)
Theorem removeImage_returns_to_the_angle
        (a : MultiAngleCapture.Angle) (st : MultiAngleCapture.State) :
  In a MultiAngleCapture.requiredAngles ->
  let st' := MultiAngleCapture.removeImage (MultiAngleCapture.angleId a) st in
  MultiAngleCapture.currentAngle st' = Some a /\
  MultiAngleUI.isAngleCaptured (MultiAngleCapture.angleId a) st' = false /\
  (forall img, In img (MultiAngleCapture.capturedImages st') <->
               In img (MultiAngleCapture.capturedImages st) /\
               MultiAngleCapture.id img <> MultiAngleCapture.angleId a).
Proof.
  intros Hin st'. split; [|split].
  - unfold st', MultiAngleCapture.removeImage, MultiAngleCapture.currentAngle.
    cbn [MultiAngleCapture.currentAngleIndex].
    simpl in Hin. destruct Hin as [<- | [<- | [<- | [<- | []]]]]; reflexivity.
  - destruct (MultiAngleUI.isAngleCaptured (MultiAngleCapture.angleId a) st') eqn:E;
      [|reflexivity].
    apply isAngleCaptured_In in E. destruct E as [img [Himg Hid]].
    unfold st', MultiAngleCapture.removeImage in Himg. simpl in Himg.
    apply filter_In in Himg. destruct Himg as [_ Hne].
    rewrite Hid, String.eqb_refl in Hne. discriminate.
  - intros img. unfold st', MultiAngleCapture.removeImage. simpl.
    rewrite filter_In, negb_true_iff, String.eqb_neq. tauto.
Qed.

Lemma removeImage_returns_to_the_angle_witness :
  let a := {| MultiAngleCapture.angleId := "front";
              MultiAngleCapture.angleName := "Front View";
              MultiAngleCapture.angleDescription := "Face-on view of the animal";
              MultiAngleCapture.angleHindi := "सामने का दृश्य" |} in
  let st' := MultiAngleCapture.removeImage "front" Examples.afterTwoUploads in
  MultiAngleCapture.currentAngle st' = Some a /\
  MultiAngleUI.isAngleCaptured "front" st' = false /\
  (forall img, In img (MultiAngleCapture.capturedImages st') <->
               In img (MultiAngleCapture.capturedImages Examples.afterTwoUploads) /\
               MultiAngleCapture.id img <> "front").
Proof.
  intros a.
  apply (removeImage_returns_to_the_angle a Examples.afterTwoUploads).
  simpl. auto.
Defined.

Lemma uploads_append (entries : list (JS.File * string * Z)) :
  forall st : MultiAngleCapture.State,
    (0 <= MultiAngleCapture.currentAngleIndex st <= MultiAngleCapture.lastAngleIndex)%Z ->
    Forall (fun entry => JS.startsWith (JS.fileType (fst (fst entry))) "image/" = true)
           entries ->
    let st' := fst (MultiAngleCapture.session st (map MultiAngleUI.upload entries)) in
    map (fun img => (MultiAngleCapture.file img, MultiAngleCapture.url img,
                     MultiAngleCapture.timestamp img))
        (MultiAngleCapture.capturedImages st') =
    map (fun img => (MultiAngleCapture.file img, MultiAngleCapture.url img,
                     MultiAngleCapture.timestamp img))
        (MultiAngleCapture.capturedImages st) ++ entries /\
    MultiAngleCapture.currentAngleIndex st' =
    Z.min (MultiAngleCapture.currentAngleIndex st + Z.of_nat (length entries))
          MultiAngleCapture.lastAngleIndex.
Proof.
  induction entries as [|[[f u] clock] entries IH]; intros st Hidx Himg; simpl.
  - rewrite app_nil_r. split; [reflexivity | lia].
  - apply Forall_cons_iff in Himg. destruct Himg as [Hf Himg]. simpl in Hf.
    destruct (currentAngle_in_range st Hidx) as [a [Ha _]].
    pose proof (advance_in_range st Hidx) as Hadv.
    unfold MultiAngleCapture.handleFileUpload. rewrite Ha, Hf.
    match goal with
    | |- context [MultiAngleCapture.session ?s _] => specialize (IH s Hadv Himg)
    end.
    simpl in IH.
    destruct (MultiAngleCapture.session _ (map MultiAngleUI.upload entries))
      as [final log]. simpl in *.
    destruct IH as [IH1 IH2]. split.
    + rewrite IH1, map_app, <- app_assoc. reflexivity.
    + rewrite IH2. unfold MultiAngleCapture.advance.
      destruct (Z.ltb_spec (MultiAngleCapture.currentAngleIndex st)
                           MultiAngleCapture.lastAngleIndex); lia.
Qed.

(** X5.  Every upload of an image file adds one captured image, also
    for an angle that has one already: after [n] such uploads on the
    mounted component there are [n] captured images, in upload order, the
    index is at the last angle once three or more are uploaded, and the
    progress bar is set to [25 n] percent, above 100 from the fifth upload
    on. *)
Theorem uploads_are_not_limited (entries : list (JS.File * string * Z)) :
  Forall (fun entry => JS.startsWith (JS.fileType (fst (fst entry))) "image/" = true)
         entries ->
  let st := fst (MultiAngleCapture.session MultiAngleCapture.initial
                   (map MultiAngleUI.upload entries)) in
  map (fun img => (MultiAngleCapture.file img, MultiAngleCapture.url img,
                   MultiAngleCapture.timestamp img))
      (MultiAngleCapture.capturedImages st) = entries /\
  MultiAngleCapture.currentAngleIndex st = Z.min (Z.of_nat (length entries)) 3 /\
  MultiAngleUI.progress st == inject_Z (25 * Z.of_nat (length entries)).
Proof.
  intros Himg st.
  destruct (uploads_append entries MultiAngleCapture.initial) as [H1 H2];
    [vm_compute; split; congruence | assumption |].
  fold st in H1, H2. simpl in H1, H2. split; [assumption|]. split; [assumption|].
  unfold MultiAngleUI.progress.
  rewrite <- (length_map (fun img => (MultiAngleCapture.file img, MultiAngleCapture.url img,
                                   MultiAngleCapture.timestamp img))), H1.
  generalize (Z.of_nat (length entries)). intros n.
  unfold Qeq, Qdiv, Qmult, Qinv, inject_Z. cbn -[Z.mul]. lia.
Qed.

Lemma uploads_are_not_limited_witness :
  let st := fst (MultiAngleCapture.session MultiAngleCapture.initial
                   (map MultiAngleUI.upload Scenarios.fiveFiles)) in
  map (fun img => (MultiAngleCapture.file img, MultiAngleCapture.url img,
                   MultiAngleCapture.timestamp img))
      (MultiAngleCapture.capturedImages st) = Scenarios.fiveFiles /\
  MultiAngleCapture.currentAngleIndex st = Z.min (Z.of_nat (length Scenarios.fiveFiles)) 3 /\
  MultiAngleUI.progress st == inject_Z (25 * Z.of_nat (length Scenarios.fiveFiles)).
Proof.
  apply (uploads_are_not_limited Scenarios.fiveFiles).
  repeat constructor.
Defined.

(* ------------------------------------------------------------------ *)
(** ** BreedResults: the selected breed *)

Lemma results_session_within (predictions : list BreedResults.BreedPrediction)
      (allowed : BreedResults.BreedPrediction -> Prop)
      (es : list BreedResultsView.Event) :
  (forall p, In p (tl predictions) -> allowed p) ->
  forall selected,
    (exists p, selected = Some p /\ allowed p) ->
    (exists p, fst (BreedResultsView.session predictions selected es) = Some p /\
               allowed p) /\
    Forall (fun eff => forall b, eff = BreedResultsView.OnConfirm b ->
                                 exists p, b = Some p /\ allowed p)
           (snd (BreedResultsView.session predictions selected es)).
Proof.
  intros Htl. induction es as [|e es IH]; intros selected Hsel; simpl.
  - auto.
  - destruct e as [i| | |]; simpl.
    + destruct (nth_error (tl predictions) i) as [q|] eqn:E.
      * specialize (IH (Some q)).
        destruct (BreedResultsView.session predictions (Some q) es). simpl in *.
        apply IH. exists q. split; [reflexivity|]. apply Htl.
        eapply nth_error_In. exact E.
      * specialize (IH selected Hsel).
        destruct (BreedResultsView.session predictions selected es). exact IH.
    + specialize (IH selected Hsel).
      destruct (BreedResultsView.session predictions selected es). simpl in *.
      destruct IH as [IH1 IH2]. split; [assumption|].
      constructor; [|assumption]. intros b Hb. injection Hb as <-. assumption.
    + specialize (IH selected Hsel).
      destruct (BreedResultsView.session predictions selected es). simpl in *.
      destruct IH as [IH1 IH2]. split; [assumption|].
      constructor; [|assumption]. discriminate.
    + specialize (IH selected Hsel).
      destruct (BreedResultsView.session predictions selected es). simpl in *.
      destruct IH as [IH1 IH2]. split; [assumption|].
      constructor; [|assumption]. discriminate.
Qed.

(** X6.  With at least one prediction, whatever cards and buttons the
    user clicks on the results screen, the breed handed to [onConfirm] is
    always defined and is one of the predictions the screen was given. *)
Theorem confirmed_breed_is_a_prediction
        (predictions : list BreedResults.BreedPrediction)
        (es : list BreedResultsView.Event) :
  predictions <> [] ->
  Forall (fun eff => forall b, eff = BreedResultsView.OnConfirm b ->
                               exists p, b = Some p /\ In p predictions)
         (snd (BreedResultsView.session predictions
                 (BreedResultsView.initial predictions) es)).
Proof.
  intros Hne. destruct predictions as [|top rest]; [congruence|].
  apply results_session_within.
  - intros p Hp. right. exact Hp.
  - exists top. split; [reflexivity | now left].
Qed.

Lemma confirmed_breed_is_a_prediction_witness :
  Forall (fun eff => forall b, eff = BreedResultsView.OnConfirm b ->
                               exists p, b = Some p /\ In p BreedAI.mockPredictions)
         (snd (BreedResultsView.session BreedAI.mockPredictions
                 (BreedResultsView.initial BreedAI.mockPredictions)
                 [BreedResultsView.SelectAlternative 1; BreedResultsView.ClickConfirm])).
Proof.
  apply (confirmed_breed_is_a_prediction BreedAI.mockPredictions).
  discriminate.
Defined.

(** X7.  The top match cannot be chosen again: once one of the "Other
    Possibilities" is selected, every later selection and every breed
    handed to [onConfirm] is one of the other possibilities
    ([predictions.slice(1)]), whatever the user clicks. *)
Theorem no_way_back_to_the_top_match
        (predictions : list BreedResults.BreedPrediction)
        (selected : BreedResults.BreedPrediction)
        (es : list BreedResultsView.Event) :
  In selected (tl predictions) ->
  (exists p, fst (BreedResultsView.session predictions (Some selected) es) = Some p /\
             In p (tl predictions)) /\
  Forall (fun eff => forall b, eff = BreedResultsView.OnConfirm b ->
                               exists p, b = Some p /\ In p (tl predictions))
         (snd (BreedResultsView.session predictions (Some selected) es)).
Proof.
  intros Hin. apply results_session_within.
  - auto.
  - exists selected. auto.
Qed.

Lemma no_way_back_to_the_top_match_witness :
  (exists p, fst (BreedResultsView.session BreedAI.mockPredictions
                    (Some Scenarios.sahiwal)
                    [BreedResultsView.SelectAlternative 0; BreedResultsView.ClickConfirm])
             = Some p /\
             In p (tl BreedAI.mockPredictions)) /\
  Forall (fun eff => forall b, eff = BreedResultsView.OnConfirm b ->
                               exists p, b = Some p /\ In p (tl BreedAI.mockPredictions))
         (snd (BreedResultsView.session BreedAI.mockPredictions
                 (Some Scenarios.sahiwal)
                 [BreedResultsView.SelectAlternative 0; BreedResultsView.ClickConfirm])).
Proof.
  apply (no_way_back_to_the_top_match BreedAI.mockPredictions Scenarios.sahiwal).
  simpl. left. reflexivity.
Defined.

(* ------------------------------------------------------------------ *)
(** ** VoiceCommands: the order of the commands *)

Lemma append_assoc3 (a b c : string) : ((a ++ b) ++ c = a ++ (b ++ c))%string.
Proof. induction a as [|x a IH]; simpl; [reflexivity | now rewrite IH]. Qed.

Lemma includes_trans (a b c : string) :
  JS.includes a b = true -> JS.includes b c = true -> JS.includes a c = true.
Proof.
  rewrite !includes_spec. intros [p [q ->]] [p' [q' ->]].
  exists (p ++ p')%string, (q' ++ q)%string.
  now rewrite !append_assoc3.
Qed.

Section RetakeFacts.

Variables toLowerCase trim : string -> string.

(** X8.  The command "retake photo" is never executed.  Its English
    keyword contains the keyword "take photo" of the first command (this
    is the hypothesis: lowercasing keeps it so), and its Hindi keyword
    contains the Hindi keyword of the first command, so [find] always
    stops at "take photo": whatever is said, with whatever confidence,
    [onCommand] is never called with [retakePhoto]. *)
Theorem retakePhoto_is_never_dispatched
        (env : VoiceCommands.Env) (st : VoiceCommands.State)
        (transcript : string) (conf : Q) :
  JS.includes (toLowerCase "retake photo") (toLowerCase "take photo") = true ->
  ~ In "retakePhoto" (VoiceCommands.dispatched toLowerCase trim env st transcript conf).
Proof.
  intros Hlower. rewrite dispatched_eq.
  set (heard := VoiceCommands.normalize toLowerCase trim transcript).
  unfold VoiceCommands.voiceCommands.
  cbn [find]. unfold VoiceCommands.matches at 1. cbn [VoiceCommands.english VoiceCommands.hindi].
  destruct (JS.includes heard (toLowerCase "take photo")) eqn:Een; cbn [orb].
  { destruct (JS.gtb conf (7 # 10) && VoiceCommands.hasOnCommand env); simpl;
      intuition discriminate. }
  destruct (JS.includes heard "फोटो लें") eqn:Ehi.
  { destruct (JS.gtb conf (7 # 10) && VoiceCommands.hasOnCommand env); simpl;
      intuition discriminate. }
  unfold VoiceCommands.matches at 1. cbn [VoiceCommands.english VoiceCommands.hindi].
  destruct (JS.includes heard (toLowerCase "confirm breed") || JS.includes heard "नस्ल की पुष्टि").
  { destruct (JS.gtb conf (7 # 10) && VoiceCommands.hasOnCommand env); simpl;
      intuition discriminate. }
  unfold VoiceCommands.matches at 1. cbn [VoiceCommands.english VoiceCommands.hindi].
  assert (Hen : JS.includes heard (toLowerCase "retake photo") = false).
  { destruct (JS.includes heard (toLowerCase "retake photo")) eqn:E; [|reflexivity].
    rewrite (includes_trans _ _ _ E Hlower) in Een. discriminate. }
  assert (Hhi : JS.includes heard "दोबारा फोटो लें" = false).
  { destruct (JS.includes heard "दोबारा फोटो लें") eqn:E; [|reflexivity].
    assert (Hsub : JS.includes "दोबारा फोटो लें" "फोटो लें" = true) by (vm_compute; reflexivity).
    rewrite (includes_trans _ _ _ E Hsub) in Ehi. discriminate. }
  rewrite Hen, Hhi. cbn [orb].
  repeat (unfold VoiceCommands.matches at 1;
          cbn [VoiceCommands.english VoiceCommands.hindi];
          match goal with
          | |- context [if ?b || ?c then _ else _] =>
              destruct (b || c);
              [ destruct (JS.gtb conf (7 # 10) && VoiceCommands.hasOnCommand env); simpl;
                intuition discriminate | ]
          end).
  simpl. tauto.
Qed.

End RetakeFacts.

Lemma retakePhoto_is_never_dispatched_witness :
  ~ In "retakePhoto"
       (VoiceCommands.dispatched JS.toLowerCaseAscii JS.trimAscii
          Examples.voiceEnv Examples.voiceState Examples.heard 1).
Proof.
  apply (retakePhoto_is_never_dispatched JS.toLowerCaseAscii JS.trimAscii).
  vm_compute. reflexivity.
Defined.

(* ------------------------------------------------------------------ *)
(** ** GeolocationFeatures: recommendations and manual entry *)

Lemma errorMessageOf_truthy (code : option Z) :
  JS.truthy (Some (GeolocationFeatures.errorMessageOf code)) =
  Some (GeolocationFeatures.errorMessageOf code).
Proof.
  destruct code as [[|p|p]|]; try reflexivity.
  destruct p as [p|p|]; [destruct p | destruct p |]; reflexivity.
Qed.

Section GeolocationPanelFacts.

Variable toFixed : Q -> nat -> string.
Variable trim : string -> string.

(** X9.  A position that arrives (in a browser with geolocation) always
    leads to recommendations: whatever was shown before, the error banner
    is gone, the card shows the detected location, the state picked by the
    mock geocoder from the latitude (above 26 Punjab, above 23 Gujarat,
    otherwise Maharashtra) is also the value of the state selector, and
    [getRecommendedBreeds] returns the three breeds of that state. *)
Theorem position_gives_recommendations
        (env : GeolocationFeatures.Env) (coords : GeolocationFeatures.Coords)
        (clock : Z) (st : GeolocationFeatures.State) :
  GeolocationFeatures.hasGeolocation env = true ->
  let st' := fst (GeolocationFeatures.getCurrentLocation toFixed env
                    (GeolocationFeatures.Resolved coords) clock st) in
  let region := if JS.gtb (GeolocationFeatures.coordsLatitude coords) 26 then "Punjab"
                else if JS.gtb (GeolocationFeatures.coordsLatitude coords) 23 then "Gujarat"
                else "Maharashtra" in
  (exists l, GeolocationPanel.currentLocationCard st' = GeolocationPanel.LocationDetected l /\
             GeolocationFeatures.state l = Some region) /\
  GeolocationFeatures.selectedState st' = region /\
  GeolocationPanel.getRecommendedBreeds st' =
    (if JS.gtb (GeolocationFeatures.coordsLatitude coords) 26
     then ["Sahiwal"; "Murrah Buffalo"; "Nili Ravi Buffalo"]
     else if JS.gtb (GeolocationFeatures.coordsLatitude coords) 23
          then ["Gir"; "Kankrej"; "Dangi"]
          else ["Red Sindhi"; "Gaolao"; "Khillar"]).
Proof.
  intros Hgeo st' region. subst st' region.
  unfold GeolocationFeatures.getCurrentLocation. rewrite Hgeo. simpl.
  unfold GeolocationPanel.currentLocationCard, GeolocationPanel.getRecommendedBreeds.
  simpl.
  destruct (JS.gtb (GeolocationFeatures.coordsLatitude coords) 26);
    [|destruct (JS.gtb (GeolocationFeatures.coordsLatitude coords) 23)];
    simpl; (split; [eexists; split; reflexivity | split; reflexivity]).
Qed.

(** X10.  [handleManualLocationSubmit] does nothing while the typed
    location is blank.  Otherwise it stores the typed text (untrimmed) as
    the address with the coordinates and the accuracy 0, the clock, and
    the selected state, or "Unknown" when none is selected; it reports
    that location to [onLocationUpdate] if given and shows one toast.  It
    never touches [error]: after a failed request the card keeps showing
    the error banner although a location is now set. *)
Theorem manual_location_submit
        (env : GeolocationFeatures.Env) (clock : Z) (st : GeolocationFeatures.State) :
  let result := GeolocationPanel.handleManualLocationSubmit trim env clock st in
  (trim (GeolocationFeatures.manualLocation st) = "" -> result = (st, [])) /\
  (trim (GeolocationFeatures.manualLocation st) <> "" ->
   let l := {| GeolocationFeatures.latitude := 0; GeolocationFeatures.longitude := 0;
               GeolocationFeatures.accuracy := 0; GeolocationFeatures.timestamp := clock;
               GeolocationFeatures.address := Some (GeolocationFeatures.manualLocation st);
               GeolocationFeatures.district := None;
               GeolocationFeatures.state :=
                 Some (if GeolocationFeatures.selectedState st =? "" then "Unknown"
                       else GeolocationFeatures.selectedState st);
               GeolocationFeatures.country := None |} in
   GeolocationFeatures.location (fst result) = Some l /\
   snd result = (if GeolocationFeatures.hasOnLocationUpdate env
                 then [GeolocationFeatures.OnLocationUpdate l] else []) /\
   length (GeolocationFeatures.newToasts st (fst result)) = 1%nat /\
   GeolocationFeatures.error (fst result) = GeolocationFeatures.error st /\
   (forall message,
       GeolocationPanel.currentLocationCard st = GeolocationPanel.ErrorBanner message ->
       GeolocationPanel.currentLocationCard (fst result) =
       GeolocationPanel.ErrorBanner message)).
Proof.
  intros result. subst result. unfold GeolocationPanel.handleManualLocationSubmit.
  split.
  - intros ->. reflexivity.
  - intros Hne. apply String.eqb_neq in Hne. rewrite Hne. simpl.
    repeat split.
    + unfold GeolocationFeatures.newToasts. simpl.
      rewrite skipn_app_exact. reflexivity.
    + intros message. unfold GeolocationPanel.currentLocationCard. simpl.
      destruct (JS.truthy (GeolocationFeatures.error st)); [tauto|].
      destruct (GeolocationFeatures.location st); discriminate.
Qed.

(** X11.  Manual entry after a failed request.  When a request has
    failed (or the browser has no geolocation) and the user then types a
    location, selects one of the states of the list and presses "Set
    Manual Location" (which is enabled), the location is stored with that
    state and its three breeds are recommended, but the "Current
    Location" card still shows the error banner of the failed request
    instead of the location. *)
Theorem manual_entry_keeps_the_error_banner
        (env : GeolocationFeatures.Env) (code : option Z) (clock1 clock2 : Z)
        (st0 : GeolocationFeatures.State) (typedText region : string) :
  trim typedText <> "" ->
  In region (map fst GeolocationPanel.regionalBreedRecommendations) ->
  let failed := fst (GeolocationFeatures.getCurrentLocation toFixed env
                       (GeolocationFeatures.Rejected code) clock1 st0) in
  let typed := GeolocationFeatures.setSelectedState region
                 (GeolocationPanel.setManualLocation typedText failed) in
  let st := fst (GeolocationPanel.handleManualLocationSubmit trim env clock2 typed) in
  GeolocationPanel.manualSubmitDisabled trim typed = false /\
  (exists message, GeolocationPanel.currentLocationCard st =
                   GeolocationPanel.ErrorBanner message) /\
  (exists l, GeolocationFeatures.location st = Some l /\
             GeolocationFeatures.address l = Some typedText /\
             GeolocationFeatures.state l = Some region) /\
  GeolocationPanel.lookup region GeolocationPanel.regionalBreedRecommendations =
    Some (GeolocationPanel.getRecommendedBreeds st) /\
  length (GeolocationPanel.getRecommendedBreeds st) = 3%nat.
Proof.
  intros Hne Hregion failed typed st.
  assert (Hregion' : region <> "").
  { simpl in Hregion. intuition (subst; discriminate). }
  apply String.eqb_neq in Hne. apply String.eqb_neq in Hregion'.
  assert (Hbanner : exists message,
             JS.truthy (GeolocationFeatures.error failed) = Some message).
  { unfold failed, GeolocationFeatures.getCurrentLocation.
    destruct (GeolocationFeatures.hasGeolocation env); [|simpl; eauto].
    cbn -[JS.truthy GeolocationFeatures.errorMessageOf].
    rewrite errorMessageOf_truthy. eauto. }
  destruct Hbanner as [message Hbanner].
  unfold st, GeolocationPanel.handleManualLocationSubmit,
    GeolocationPanel.manualSubmitDisabled.
  change (GeolocationFeatures.manualLocation typed) with typedText.
  change (GeolocationFeatures.selectedState typed) with region.
  rewrite Hne, Hregion'. cbn [fst orb].
  split; [reflexivity|]. split; [|split].
  - exists message. unfold GeolocationPanel.currentLocationCard.
    change (GeolocationFeatures.error _) with (GeolocationFeatures.error failed).
    now rewrite Hbanner.
  - eexists. split; [reflexivity|]. split; reflexivity.
  - unfold GeolocationPanel.getRecommendedBreeds.
    cbn [GeolocationFeatures.location GeolocationFeatures.toast
         GeolocationFeatures.setLocation GeolocationFeatures.state].
    assert (Htruthy : JS.truthy (Some region) = Some region).
    { destruct region; [discriminate | reflexivity]. }
    rewrite Htruthy.
    simpl in Hregion.
    destruct Hregion as [<- | [<- | [<- | [<- | [<- | [<- | [<- | [<- | []]]]]]]]];
      split; reflexivity.
Qed.

End GeolocationPanelFacts.

Lemma position_gives_recommendations_witness :
  let st' := fst (GeolocationFeatures.getCurrentLocation Examples.noDigits
                    Examples.withGeolocation
                    (GeolocationFeatures.Resolved Scenarios.ahmedabad) 0
                    Examples.afterUnsupported) in
  (exists l, GeolocationPanel.currentLocationCard st' = GeolocationPanel.LocationDetected l /\
             GeolocationFeatures.state l = Some "Gujarat") /\
  GeolocationFeatures.selectedState st' = "Gujarat" /\
  GeolocationPanel.getRecommendedBreeds st' = ["Gir"; "Kankrej"; "Dangi"].
Proof.
  apply (position_gives_recommendations Examples.noDigits Examples.withGeolocation
           Scenarios.ahmedabad 0 Examples.afterUnsupported).
  reflexivity.
Defined.

Lemma manual_location_submit_witness :
  GeolocationPanel.handleManualLocationSubmit JS.trimAscii Examples.withGeolocation 5
    (GeolocationPanel.setManualLocation "   " Examples.locationMounted) =
  (GeolocationPanel.setManualLocation "   " Examples.locationMounted, []) /\
  GeolocationFeatures.location
    (fst (GeolocationPanel.handleManualLocationSubmit JS.trimAscii Examples.withGeolocation 5
            (GeolocationPanel.setManualLocation "Anand" Examples.afterUnsupported))) =
  Some {| GeolocationFeatures.latitude := 0; GeolocationFeatures.longitude := 0;
          GeolocationFeatures.accuracy := 0; GeolocationFeatures.timestamp := 5;
          GeolocationFeatures.address := Some "Anand";
          GeolocationFeatures.district := None;
          GeolocationFeatures.state := Some "Unknown";
          GeolocationFeatures.country := None |}.
Proof.
  split.
  - apply (manual_location_submit JS.trimAscii Examples.withGeolocation 5
             (GeolocationPanel.setManualLocation "   " Examples.locationMounted)).
    reflexivity.
  - apply (manual_location_submit JS.trimAscii Examples.withGeolocation 5
             (GeolocationPanel.setManualLocation "Anand" Examples.afterUnsupported)).
    discriminate.
Defined.

Lemma manual_entry_keeps_the_error_banner_witness :
  let failed := fst (GeolocationFeatures.getCurrentLocation Examples.noDigits
                       Examples.withGeolocation
                       (GeolocationFeatures.Rejected (Some 1%Z)) 0
                       Examples.locationMounted) in
  let typed := GeolocationFeatures.setSelectedState "Gujarat"
                 (GeolocationPanel.setManualLocation "Anand" failed) in
  let st := fst (GeolocationPanel.handleManualLocationSubmit JS.trimAscii
                   Examples.withGeolocation 5 typed) in
  GeolocationPanel.manualSubmitDisabled JS.trimAscii typed = false /\
  (exists message, GeolocationPanel.currentLocationCard st =
                   GeolocationPanel.ErrorBanner message) /\
  (exists l, GeolocationFeatures.location st = Some l /\
             GeolocationFeatures.address l = Some "Anand" /\
             GeolocationFeatures.state l = Some "Gujarat") /\
  GeolocationPanel.lookup "Gujarat" GeolocationPanel.regionalBreedRecommendations =
    Some (GeolocationPanel.getRecommendedBreeds st) /\
  length (GeolocationPanel.getRecommendedBreeds st) = 3%nat.
Proof.
  apply (manual_entry_keeps_the_error_banner Examples.noDigits JS.trimAscii
           Examples.withGeolocation (Some 1%Z) 0 5 Examples.locationMounted
           "Anand" "Gujarat").
  - discriminate.
  - simpl. auto.
Defined.

(* ------------------------------------------------------------------ *)
(** ** BreedDatabase: the type filter *)

Lemma filter_nothing {A : Type} (p : A -> bool) (l : list A) :
  (forall x, In x l -> p x = false) -> filter p l = [].
Proof.
  induction l as [|x l IH]; intros H; simpl; [reflexivity|].
  rewrite (H x (or_introl eq_refl)). apply IH. intros y Hy. apply H. now right.
Qed.

(** X12.  The type filter splits the listing: for every search term,
    the breeds shown under "All Breeds" are those shown under "Cattle"
    followed by those shown under "Buffalo". *)
Theorem type_filters_split_the_listing (toLowerCase : string -> string)
        (searchTerm : string) :
  BreedDatabase.filteredBreeds toLowerCase searchTerm "all" =
  BreedDatabase.filteredBreeds toLowerCase searchTerm "cattle" ++
  BreedDatabase.filteredBreeds toLowerCase searchTerm "buffalo".
Proof.
  unfold BreedDatabase.filteredBreeds.
  set (m := BreedDatabase.matchesSearch toLowerCase searchTerm).
  change BreedDatabase.breedDatabase
    with (firstn 3 BreedDatabase.breedDatabase ++ skipn 3 BreedDatabase.breedDatabase).
  rewrite !filter_app.
  set (cattle := firstn 3 BreedDatabase.breedDatabase).
  set (buffalo := skipn 3 BreedDatabase.breedDatabase).
  assert (Hcattle : forall b, In b cattle -> BreedDatabase.type b = "cattle").
  { intros b [<- | [<- | [<- | []]]]; reflexivity. }
  assert (Hbuffalo : forall b, In b buffalo -> BreedDatabase.type b = "buffalo").
  { intros b [<- | [<- | [<- | []]]]; reflexivity. }
  assert (H1 : filter (fun breed => m breed && BreedDatabase.matchesType "buffalo" breed)
                      cattle = []).
  { apply filter_nothing. intros b Hb. unfold BreedDatabase.matchesType.
    rewrite (Hcattle b Hb). apply andb_false_r. }
  assert (H2 : filter (fun breed => m breed && BreedDatabase.matchesType "cattle" breed)
                      buffalo = []).
  { apply filter_nothing. intros b Hb. unfold BreedDatabase.matchesType.
    rewrite (Hbuffalo b Hb). apply andb_false_r. }
  rewrite H1, H2, app_nil_r. cbn [app].
  reflexivity.
Qed.

Lemma includes_prefix (s sub more : string) :
  JS.includes s (sub ++ more)%string = true -> JS.includes s sub = true.
Proof.
  rewrite !includes_spec. intros [before [after ->]].
  exists before, (more ++ after)%string.
  f_equal. clear. induction sub as [|c sub IH]; simpl; [reflexivity | now rewrite IH].
Qed.

Lemma filter_narrower {A : Type} (p q : A -> bool) (l : list A) :
  (forall x, p x = true -> q x = true) ->
  JS.subsequence (filter p l) (filter q l).
Proof.
  intros H. induction l as [|x l IH]; simpl; [constructor|].
  destruct (p x) eqn:Ep.
  - rewrite (H x Ep). now constructor.
  - destruct (q x); [now constructor | exact IH].
Qed.

(** X13.  Typing more never adds breeds.  When characters are appended
    to the search term (and lowercasing the longer term gives the
    lowercased shorter term followed by the lowercased addition, as
    [toLowerCase] does for the letters of the database), the breeds shown
    for the longer term are among those shown before, in the same
    order, under every type filter. *)
Theorem typing_more_never_adds_breeds (toLowerCase : string -> string)
        (searchTerm more selectedType : string) :
  toLowerCase (searchTerm ++ more)%string =
  (toLowerCase searchTerm ++ toLowerCase more)%string ->
  JS.subsequence
    (BreedDatabase.filteredBreeds toLowerCase (searchTerm ++ more)%string selectedType)
    (BreedDatabase.filteredBreeds toLowerCase searchTerm selectedType).
Proof.
  intros Hlower. unfold BreedDatabase.filteredBreeds. apply filter_narrower.
  intros breed H. apply andb_true_iff in H. destruct H as [Hsearch Htype].
  rewrite Htype, andb_true_r.
  unfold BreedDatabase.matchesSearch in *. rewrite Hlower in Hsearch.
  apply orb_true_iff in Hsearch. destruct Hsearch as [Hsearch|Hregion].
  - apply orb_true_iff in Hsearch. destruct Hsearch as [Hname|Hhindi].
    + now rewrite (includes_prefix _ _ _ Hname).
    + rewrite (includes_prefix _ _ _ Hhindi). now rewrite orb_true_r.
  - rewrite (includes_prefix _ _ _ Hregion). now rewrite !orb_true_r.
Qed.

Lemma typing_more_never_adds_breeds_witness :
  JS.subsequence
    (BreedDatabase.filteredBreeds JS.toLowerCaseAscii ("Pun" ++ "jab, H")%string "all")
    (BreedDatabase.filteredBreeds JS.toLowerCaseAscii "Pun" "all").
Proof.
  apply (typing_more_never_adds_breeds JS.toLowerCaseAscii "Pun" "jab, H" "all").
  reflexivity.
Defined.

(* ------------------------------------------------------------------ *)
(** ** LoadingAnalysis: the progress bar *)

Lemma ratio_compare (e d : Z) :
  (0 < d)%Z ->
  (inject_Z e / inject_Z d <= 1 <-> (e <= d)%Z) /\
  (1 <= inject_Z e / inject_Z d <-> (d <= e)%Z) /\
  (0 <= inject_Z e / inject_Z d <-> (0 <= e)%Z).
Proof.
  intros Hd. destruct d as [|p|p]; try lia.
  unfold Qle, Qdiv, Qmult, Qinv, inject_Z. cbn -[Z.mul]. lia.
Qed.

Lemma within_the_step (a b s : Q) :
  a <= b -> 0 <= s -> s <= 1 -> a <= a + (b - a) * s /\ a + (b - a) * s <= b.
Proof.
  intros Hab H0 H1.
  assert (Hlow : 0 <= (b - a) * s) by (apply Qmult_le_0_compat; lra).
  assert (Hhigh : (b - a) * s <= (b - a) * 1).
  { rewrite (Qmult_comm (b - a) s), (Qmult_comm (b - a) 1).
    apply Qmult_le_compat_r; lra. }
  split; lra.
Qed.

(** X14.  One frame of the progress animation, whenever its timer
    fires: the bar is set between the start and the end of the step,
    never beyond; before the duration of the step has elapsed the frame
    re-arms itself 50 ms later and leaves [totalProgress] alone; from then
    on it sets the bar to the end of the step, stores that end in
    [totalProgress] and stops. *)
Theorem animation_frame_stays_within_the_step
        (i : nat) (step : LoadingAnalysis.AnalysisStep) (stepStart stepEnd : Q)
        (startTime t : Z) (st : LoadingAnalysis.State) :
  nth_error LoadingAnalysis.analysisSteps i = Some step ->
  stepStart <= stepEnd ->
  (startTime <= t)%Z ->
  let st' := fst (LoadingAnalysis.animateProgress i stepStart stepEnd startTime t st) in
  let timers := snd (LoadingAnalysis.animateProgress i stepStart stepEnd startTime t st) in
  (stepStart <= LoadingAnalysis.progress st' /\ LoadingAnalysis.progress st' <= stepEnd) /\
  ((t - startTime < LoadingAnalysis.stepDuration step)%Z ->
   timers = [(50%Z, LoadingAnalysis.AnimateProgress i stepStart stepEnd startTime)] /\
   LoadingAnalysis.totalProgress st' = LoadingAnalysis.totalProgress st) /\
  ((LoadingAnalysis.stepDuration step <= t - startTime)%Z ->
   timers = [] /\
   LoadingAnalysis.progress st' == stepEnd /\
   LoadingAnalysis.totalProgress st' = stepEnd).
Proof.
  intros Hstep Hle Ht st' timers.
  assert (Hdur : (0 < LoadingAnalysis.stepDuration step)%Z).
  { destruct i as [|[|[|i]]]; simpl in Hstep; try discriminate;
      try (injection Hstep as <-; reflexivity).
    destruct i; discriminate. }
  subst st' timers. unfold LoadingAnalysis.animateProgress. rewrite Hstep.
  destruct (ratio_compare (t - startTime) (LoadingAnalysis.stepDuration step) Hdur)
    as [Hle1 [Hge1 Hge0]].
  set (ratio := inject_Z (t - startTime) / inject_Z (LoadingAnalysis.stepDuration step)) in *.
  assert (H0 : 0 <= ratio) by (apply Hge0; lia).
  cbv zeta. unfold JS.ltb.
  destruct (Qle_bool ratio 1) eqn:E1.
  - apply Qle_bool_iff in E1.
    destruct (Qle_bool 1 ratio) eqn:E2; cbn [negb fst snd].
    + apply Qle_bool_iff in E2.
      cbn [LoadingAnalysis.setTotalProgress LoadingAnalysis.setProgress
           LoadingAnalysis.progress LoadingAnalysis.totalProgress].
      rewrite Qred_correct.
      destruct (within_the_step stepStart stepEnd ratio Hle H0 E1) as [Ha Hb].
      split; [split; assumption|]. split.
      * intros Hlt. apply Hge1 in E2. lia.
      * intros _. split; [reflexivity|]. split; [|reflexivity].
        assert (Hr : ratio == 1) by (apply Qle_antisym; assumption).
        rewrite Hr. ring.
    + cbn [LoadingAnalysis.setProgress LoadingAnalysis.progress
           LoadingAnalysis.totalProgress].
      rewrite Qred_correct.
      destruct (within_the_step stepStart stepEnd ratio Hle H0 E1) as [Ha Hb].
      split; [split; assumption|]. split.
      * intros _. split; reflexivity.
      * intros Hge. apply Hge1 in Hge. apply Qle_bool_iff in Hge. congruence.
  - assert (E2 : Qle_bool 1 1 = true) by reflexivity. rewrite E2. cbn [negb fst snd].
    cbn [LoadingAnalysis.setTotalProgress LoadingAnalysis.setProgress
         LoadingAnalysis.progress LoadingAnalysis.totalProgress].
    rewrite Qred_correct.
    split; [split; lra|]. split.
    + intros Hlt. assert (Hr : ratio <= 1) by (apply Hle1; lia).
      apply Qle_bool_iff in Hr. congruence.
    + intros _. split; [reflexivity|]. split; [ring | reflexivity].
Qed.

Lemma animation_frame_stays_within_the_step_witness :
  let st := state (LoadingAnalysis.mount "blob:cow") in
  let frame := LoadingAnalysis.animateProgress 1 (100 # 3) (200 # 3) 2000 2750 st in
  ((100 # 3) <= LoadingAnalysis.progress (fst frame) /\
   LoadingAnalysis.progress (fst frame) <= (200 # 3)) /\
  snd frame = [(50%Z, LoadingAnalysis.AnimateProgress 1 (100 # 3) (200 # 3) 2000)] /\
  LoadingAnalysis.totalProgress (fst frame) = LoadingAnalysis.totalProgress st.
Proof.
  intros st frame.
  destruct (animation_frame_stays_within_the_step 1
              {| LoadingAnalysis.stepId := 2;
                 LoadingAnalysis.stepTitle := "AI Model Analysis";
                 LoadingAnalysis.stepDescription := "Running breed classification model";
                 LoadingAnalysis.hindiDescription := "नस्ल वर्गीकरण मॉडल चलाया जा रहा है";
                 LoadingAnalysis.stepDuration := 3000 |}
              (100 # 3) (200 # 3) 2000 2750 st eq_refl)
    as [Hrange [Hrunning _]].
  - unfold Qle. simpl. lia.
  - lia.
  - split; [exact Hrange|]. apply Hrunning. simpl. lia.
Defined.

(** X15.  The progress bar goes backwards.  The timer that ends a step
    was set before the last frame of that step's animation, so it fires
    first, and the next step starts its animation from a [totalProgress]
    that the last frame has not yet written.  In a whole analysis (timers
    firing on time) the bar is set to less than it showed exactly four
    times: at 2000 ms from 32.5 to 0, then after the last frame of the
    first step from 33.3 to 1.1, at 5000 ms from 65.6 to 33.3, and after
    the last frame of the second step from 66.7 to 35.  The second step
    is animated from 0 and the third from 33.3. *)
Theorem progress_bar_goes_backwards (img : string) :
  ProgressBar.drops
    (LoadingAnalysis.progressValues
       (LoadingAnalysis.runFor LoadingAnalysis.timersOfARun img)) =
  [ (2000%Z, 65 # 2, 0); (2050%Z, 100 # 3, 10 # 9);
    (5000%Z, 590 # 9, 100 # 3); (5050%Z, 200 # 3, 35) ].
Proof.
  vm_compute. reflexivity.
Qed.

(* ------------------------------------------------------------------ *)
(** ** BatchProcessing: the queue under any use *)

Lemma mapi_from_keeps {A : Type} (P : A -> Prop) (f : A -> nat -> A) (start : nat)
      (l : list A) :
  (forall x k, P x -> P (f x k)) -> Forall P l -> Forall P (JS.mapi_from f start l).
Proof.
  intros H. revert start. induction l as [|x l IH]; intros start Hl; simpl; [constructor|].
  apply Forall_cons_iff in Hl. destruct Hl as [Hx Hl]. constructor; auto.
Qed.

Lemma updateAt_keeps (P : BatchProcessing.BatchItem -> Prop) (i : nat)
      (f : BatchProcessing.BatchItem -> BatchProcessing.BatchItem)
      (l : list BatchProcessing.BatchItem) :
  (forall x, P x -> P (f x)) -> Forall P l -> Forall P (BatchProcessing.updateAt i f l).
Proof.
  intros H. apply mapi_from_keeps. intros x k Hx. destruct (k =? i)%nat; auto.
Qed.

Lemma updateAt_identity (i : nat)
      (f : BatchProcessing.BatchItem -> BatchProcessing.BatchItem)
      (l : list BatchProcessing.BatchItem) :
  (forall x, BatchQueue.identity (f x) = BatchQueue.identity x) ->
  map BatchQueue.identity (BatchProcessing.updateAt i f l) = map BatchQueue.identity l.
Proof.
  intros H. apply mapi_from_map. intros x k. destruct (k =? i)%nat; auto.
Qed.

Lemma filter_keeps {A : Type} (P : A -> Prop) (p : A -> bool) (l : list A) :
  Forall P l -> Forall P (filter p l).
Proof.
  rewrite !Forall_forall. intros H x Hx. apply filter_In in Hx. apply H. tauto.
Qed.

Lemma mock_result_at (i : Z) (m : BatchProcessing.MockResult) :
  BatchProcessing.at_ BatchProcessing.mockBreedResults i = Some m ->
  In m BatchProcessing.mockBreedResults.
Proof.
  unfold BatchProcessing.at_. destruct (i <? 0)%Z; [discriminate|].
  apply nth_error_In.
Qed.

Lemma componentTimer_pastTheGuard (t : Timer BatchProcessing.Task) :
  BatchQueue.componentTimer t -> BatchProcessing.pastTheGuard t.
Proof.
  unfold BatchQueue.componentTimer, BatchProcessing.pastTheGuard.
  destruct (callback t); tauto.
Qed.

Lemma remaining_next (p : Z) :
  (p + 10 <= 100)%Z ->
  S (Z.to_nat ((100 - (p + 10)) / 10)) = Z.to_nat ((100 - p) / 10).
Proof.
  intros Hp.
  replace (100 - p)%Z with ((100 - (p + 10)) + 1 * 10)%Z by lia.
  rewrite Z.div_add by lia.
  assert (0 <= (100 - (p + 10)) / 10)%Z by (apply Z.div_pos; lia).
  lia.
Qed.

Section BatchQueueFacts.

Variable random : nat -> Q.
Variable createObjectURL : nat -> JS.File -> string.
Variable numberToString : Q -> string.

Local Abbreviation queueExec := (BatchProcessing.exec random createObjectURL numberToString).
Local Abbreviation queueBody := (BatchProcessing.body random createObjectURL numberToString).
Local Abbreviation reaches := (BatchQueue.reaches random createObjectURL numberToString).

Lemma render_componentTimer (st : BatchProcessing.State) :
  Forall (fun dt => forall due,
              BatchQueue.componentTimer {| fireAt := due; callback := snd dt |})
         (BatchProcessing.render st).
Proof.
  unfold BatchProcessing.render.
  destruct (BatchProcessing.isProcessing st); simpl; [|constructor].
  destruct (Nat.ltb_spec (BatchProcessing.currentProcessingIndex st)
                         (length (BatchProcessing.batchItems st))); constructor.
  - intros due. exact H.
  - constructor.
Qed.

Lemma finished_wellFormed (success : bool) (m : BatchProcessing.MockResult) (clock : Z)
      (item : BatchProcessing.BatchItem) :
  (success = true -> In m BatchProcessing.mockBreedResults) ->
  BatchQueue.wellFormed item ->
  BatchQueue.wellFormed (BatchProcessing.finished success m clock item).
Proof.
  intros Hm [Hrange [Hten _]]. split; [exact Hrange|]. split; [exact Hten|].
  destruct success; simpl.
  - right. right. left. split; [reflexivity|]. split; [reflexivity|].
    eexists. split; [reflexivity|]. exists m.
    split; [apply Hm; reflexivity | split; reflexivity].
  - right. right. right. auto.
Qed.

(** What one task of the user does to the things the invariants speak
    of: it registers no timer of its own, shows no completion toast and
    keeps the items well formed. *)
Lemma user_task_keeps (task : BatchProcessing.Task) (clock : Z)
      (st : BatchProcessing.State) :
  BatchQueue.userTask task = true ->
  snd (queueBody task clock st) = [] /\
  filter BatchProcessing.isCompleteToast (BatchProcessing.toasts (fst (queueBody task clock st))) =
  filter BatchProcessing.isCompleteToast (BatchProcessing.toasts st) /\
  (Forall BatchQueue.wellFormed (BatchProcessing.batchItems st) ->
   Forall BatchQueue.wellFormed (BatchProcessing.batchItems (fst (queueBody task clock st)))).
Proof.
  destruct task as [files|item_id| | | | |index items|index p]; simpl; try discriminate;
    intros _; (split; [reflexivity|]).
  - unfold BatchProcessing.addImagesToBatch. destruct files as [fs|]; [|auto].
    destruct (fold_addFile random createObjectURL numberToString clock fs st)
      as [Hitems [Htoasts _]].
    simpl. rewrite Hitems, Htoasts. split.
    + rewrite filter_app. simpl. apply app_nil_r.
    + intros H. apply Forall_app. split; [exact H|].
      apply mapi_from_Forall. intros file k. unfold BatchQueue.wellFormed. simpl.
      repeat split; try lia. left. auto.
  - split; [reflexivity|]. intros H. apply filter_keeps. exact H.
  - split; [reflexivity|]. intros _. constructor.
  - unfold BatchProcessing.startBatchProcessing.
    destruct (length (BatchProcessing.batchItems st) =? 0)%nat; simpl.
    + split; [|auto]. rewrite filter_app. simpl. apply app_nil_r.
    + auto.
  - auto.
  - auto.
Qed.

(** What one timer of the component does. *)
Lemma component_timer_keeps (t : Timer BatchProcessing.Task) (clock : Z)
      (st : BatchProcessing.State) :
  BatchQueue.componentTimer t ->
  let st' := fst (queueExec (callback t) clock st) in
  Forall (fun dt => forall due,
              BatchQueue.componentTimer {| fireAt := due; callback := snd dt |})
         (snd (queueExec (callback t) clock st)) /\
  (Forall BatchQueue.wellFormed (BatchProcessing.batchItems st) ->
   Forall BatchQueue.wellFormed (BatchProcessing.batchItems st')) /\
  map BatchQueue.identity (BatchProcessing.batchItems st') =
  map BatchQueue.identity (BatchProcessing.batchItems st) /\
  (BatchProcessing.currentProcessingIndex st <= BatchProcessing.currentProcessingIndex st'
   <= S (BatchProcessing.currentProcessingIndex st))%nat.
Proof.
  unfold BatchQueue.componentTimer, BatchProcessing.exec.
  destruct (callback t) as [| | | | | |index items|index p]; try contradiction;
    intros H; simpl.
  - unfold BatchProcessing.processNextItem.
    destruct (Nat.leb_spec (length items) index) as [Hle|_]; [lia|].
    unfold BatchProcessing.progressLoop. simpl.
    split; [|split; [|split]].
    + constructor; [intros due; simpl; split; [lia | reflexivity]
                   | apply render_componentTimer].
    + apply updateAt_keeps. intros x [Hr [Hten _]]. split; [exact Hr|].
      split; [exact Hten|]. right. left. reflexivity.
    + apply updateAt_identity. reflexivity.
    + lia.
  - unfold BatchProcessing.afterDelay, BatchProcessing.progressLoop.
    destruct H as [Hrange Hten].
    assert (Hprogress : forall l,
               Forall BatchQueue.wellFormed l ->
               Forall BatchQueue.wellFormed
                 (BatchProcessing.updateAt index (BatchProcessing.withProgress p) l)).
    { intros l. apply updateAt_keeps. intros x [_ [_ Hx]].
      split; [exact Hrange|]. split; [exact Hten | exact Hx]. }
    destruct (Z.leb_spec (p + 10) 100) as [Hmore|Hlast]; simpl.
    + split; [|split; [|split]].
      * constructor; [|apply render_componentTimer].
        intros due. simpl. split; [lia|].
        rewrite <- Zplus_mod_idemp_l, Hten. reflexivity.
      * apply Hprogress.
      * apply updateAt_identity. reflexivity.
      * lia.
    + unfold BatchProcessing.complete.
      cbn [BatchProcessing.draws BatchProcessing.setBatchItems BatchProcessing.drawn].
      destruct (BatchProcessing.at_ BatchProcessing.mockBreedResults _) as [m|] eqn:Em;
        [|destruct (JS.gtb _ _) eqn:Esuccess]; simpl.
      * split; [apply render_componentTimer|]. split; [|split].
        -- intros Hl. apply updateAt_keeps; [|apply Hprogress; exact Hl].
           intros x. apply finished_wellFormed. intros _.
           eapply mock_result_at. exact Em.
        -- rewrite !updateAt_identity; reflexivity.
        -- lia.
      * split; [apply render_componentTimer|]. split; [|split].
        -- apply Hprogress.
        -- apply updateAt_identity. reflexivity.
        -- lia.
      * split; [apply render_componentTimer|]. split; [|split].
        -- intros Hl. apply updateAt_keeps; [|apply Hprogress; exact Hl].
           intros x. apply finished_wellFormed. discriminate.
        -- rewrite !updateAt_identity; reflexivity.
        -- lia.
Qed.

(** The invariant of every use. *)
Lemma reaches_invariant (l : Loop BatchProcessing.State BatchProcessing.Task) :
  reaches l ->
  filter BatchProcessing.isCompleteToast (BatchProcessing.toasts (state l)) = [] /\
  Forall BatchQueue.componentTimer (timers l) /\
  Forall BatchQueue.wellFormed (BatchProcessing.batchItems (state l)).
Proof.
  induction 1 as [|l task _ IH Huser|l _ IH|l t _ IH _ _|l l' _ IH Htick].
  - simpl. auto.
  - destruct IH as [Htoasts [Htimers Hitems]].
    destruct (user_task_keeps task (now l) (state l) Huser) as [Hnone [Ht Hi]].
    unfold dispatch, BatchProcessing.exec.
    destruct (queueBody task (now l) (state l)) as [st' registered]. simpl in *.
    subst registered. simpl. split; [congruence|]. split; [|auto].
    apply register_all; [|exact Htimers].
    eapply Forall_impl; [|apply render_componentTimer]. intros dt Hdt. apply Hdt.
  - destruct IH as [Htoasts [Htimers Hitems]]. unfold BatchQueue.rerender. simpl.
    split; [exact Htoasts|]. split; [|exact Hitems].
    apply register_all; [|exact Htimers].
    eapply Forall_impl; [|apply render_componentTimer]. intros dt Hdt. apply Hdt.
  - exact IH.
  - destruct IH as [Htoasts [Htimers Hitems]].
    unfold tick in Htick. destruct (timers l) as [|t rest]; [discriminate|].
    apply Forall_cons_iff in Htimers. destruct Htimers as [Ht Hrest].
    pose proof (exec_pastTheGuard random createObjectURL numberToString t
                  (Z.max (now l) (fireAt t)) (state l)
                  (componentTimer_pastTheGuard t Ht)) as Hguard.
    pose proof (component_timer_keeps t (Z.max (now l) (fireAt t)) (state l) Ht) as Hkeeps.
    destruct (queueExec (callback t) (Z.max (now l) (fireAt t)) (state l))
      as [st' registered].
    injection Htick as <-. simpl in *.
    destruct Hguard as [_ [Hsame _]]. destruct Hkeeps as [Hreg [Hwf _]].
    split; [congruence|]. split; [|auto].
    apply register_all; [|exact Hrest].
    eapply Forall_impl; [|exact Hreg]. intros dt Hdt. apply Hdt.
Qed.

(** X16.  "Batch Processing Complete" is never shown, whatever the user
    does: images may be added and removed, the queue cleared, processing
    started, paused and resumed at any time, text typed into the survey
    inputs, and timers may fire in between; the toast list never contains
    the completion toast, and no pending timer is a call of
    [processNextItem] that would take its completion branch (the closure
    of each has its index inside its queue). *)
Theorem batch_completion_is_never_announced
        (l : Loop BatchProcessing.State BatchProcessing.Task) :
  reaches l ->
  filter BatchProcessing.isCompleteToast (BatchProcessing.toasts (state l)) = [] /\
  Forall BatchProcessing.pastTheGuard (timers l).
Proof.
  intros H. destruct (reaches_invariant l H) as [Htoasts [Htimers _]].
  split; [exact Htoasts|].
  eapply Forall_impl; [|exact Htimers]. apply componentTimer_pastTheGuard.
Qed.

(** X17.  The items of the queue stay well formed under any use: the
    progress of an item is a multiple of 10 between 0 and 100; a pending
    item has neither result nor error; a completed item has no error and a
    result that is one of the five mock results; a failed item has no
    result and the message "Failed to process image. Please try again.". *)
Theorem queue_items_stay_well_formed
        (l : Loop BatchProcessing.State BatchProcessing.Task) :
  reaches l ->
  Forall BatchQueue.wellFormed (BatchProcessing.batchItems (state l)).
Proof.
  intros H. apply (reaches_invariant l H).
Qed.

(** X18.  What a timer can change.  When a timer of the component
    fires, the queue keeps its items in place with their id, file name
    and image URL; no toast is shown; processing is neither switched on
    nor off; the index of the current item stays or moves on by one. *)
Theorem timers_keep_the_queue_in_place
        (l l' : Loop BatchProcessing.State BatchProcessing.Task) :
  reaches l ->
  tick _ _ queueExec l = Some l' ->
  map BatchQueue.identity (BatchProcessing.batchItems (state l')) =
  map BatchQueue.identity (BatchProcessing.batchItems (state l)) /\
  BatchProcessing.toasts (state l') = BatchProcessing.toasts (state l) /\
  BatchProcessing.isProcessing (state l') = BatchProcessing.isProcessing (state l) /\
  (BatchProcessing.currentProcessingIndex (state l) <=
   BatchProcessing.currentProcessingIndex (state l') <=
   S (BatchProcessing.currentProcessingIndex (state l)))%nat.
Proof.
  intros H Htick. destruct (reaches_invariant l H) as [_ [Htimers _]].
  unfold tick in Htick. destruct (timers l) as [|t rest]; [discriminate|].
  apply Forall_cons_iff in Htimers. destruct Htimers as [Ht _].
  pose proof (exec_pastTheGuard random createObjectURL numberToString t
                (Z.max (now l) (fireAt t)) (state l)
                (componentTimer_pastTheGuard t Ht)) as Hguard.
  pose proof (component_timer_keeps t (Z.max (now l) (fireAt t)) (state l) Ht) as Hkeeps.
  destruct (queueExec (callback t) (Z.max (now l) (fireAt t)) (state l))
    as [st' registered].
  injection Htick as <-. simpl in *.
  destruct Hguard as [Hp [Hsame _]]. destruct Hkeeps as [_ [_ [Hid Hidx]]].
  auto.
Qed.

Lemma reaches_run (fuel : nat) :
  forall l, reaches l -> reaches (run _ _ queueExec fuel l).
Proof.
  induction fuel as [|fuel IH]; intros l H; simpl; [exact H|].
  destruct (tick _ _ queueExec l) as [l'|] eqn:E; [|exact H].
  apply IH. eapply BatchQueue.reaches_tick; eassumption.
Qed.

Lemma reaches_started (files : list JS.File) :
  reaches (BatchProcessing.started random createObjectURL numberToString files).
Proof.
  unfold BatchProcessing.started.
  apply BatchQueue.reaches_user; [|reflexivity].
  apply BatchQueue.reaches_user; [|reflexivity].
  apply BatchQueue.reaches_mounted.
Qed.

Lemma pendingWork_insertTimer (t : Timer BatchProcessing.Task)
      (q : list (Timer BatchProcessing.Task)) :
  BatchQueue.pendingWork (insertTimer _ t q) =
  (BatchQueue.remaining (callback t) + BatchQueue.pendingWork q)%nat /\
  length (insertTimer _ t q) = S (length q).
Proof.
  unfold BatchQueue.pendingWork.
  induction q as [|u q [IH1 IH2]]; simpl; [auto|].
  destruct (fireAt u <=? fireAt t)%Z; simpl; [|auto].
  rewrite IH1, IH2. split; lia.
Qed.

Lemma render_stays_empty (st st' : BatchProcessing.State) :
  BatchProcessing.render st = [] ->
  BatchProcessing.isProcessing st' = BatchProcessing.isProcessing st ->
  length (BatchProcessing.batchItems st') = length (BatchProcessing.batchItems st) ->
  (BatchProcessing.currentProcessingIndex st <=
   BatchProcessing.currentProcessingIndex st')%nat ->
  BatchProcessing.render st' = [].
Proof.
  unfold BatchProcessing.render. intros H Hp Hl Hi. rewrite Hp, Hl.
  destruct (BatchProcessing.isProcessing st); [|reflexivity]. simpl in *.
  destruct (Nat.ltb_spec (BatchProcessing.currentProcessingIndex st)
                         (length (BatchProcessing.batchItems st))); [discriminate|].
  destruct (Nat.ltb_spec (BatchProcessing.currentProcessingIndex st')
                         (length (BatchProcessing.batchItems st))); [lia | reflexivity].
Qed.

Hypothesis random_in_range : forall k, (0 <= random k)%Q /\ (random k < 1)%Q.

(** One timer of the component while the render sets no timer: either
    it is replaced by the next timer of its call, which stands for one
    timer less, or its call ends and the index moves on. *)
Lemma quiet_tick (l : Loop BatchProcessing.State BatchProcessing.Task)
      (t : Timer BatchProcessing.Task) (rest : list (Timer BatchProcessing.Task)) :
  timers l = t :: rest ->
  BatchQueue.componentTimer t ->
  BatchProcessing.render (state l) = [] ->
  exists l',
    tick _ _ queueExec l = Some l' /\
    BatchProcessing.render (state l') = [] /\
    BatchProcessing.isProcessing (state l') = BatchProcessing.isProcessing (state l) /\
    BatchProcessing.toasts (state l') = BatchProcessing.toasts (state l) /\
    map BatchQueue.identity (BatchProcessing.batchItems (state l')) =
    map BatchQueue.identity (BatchProcessing.batchItems (state l)) /\
    ((exists u, timers l' = insertTimer _ u rest /\ BatchQueue.componentTimer u /\
                S (BatchQueue.remaining (callback u)) = BatchQueue.remaining (callback t) /\
                BatchProcessing.currentProcessingIndex (state l') =
                BatchProcessing.currentProcessingIndex (state l)) \/
     (timers l' = rest /\
      BatchProcessing.currentProcessingIndex (state l') =
      S (BatchProcessing.currentProcessingIndex (state l)))).
Proof.
  intros Htimers Ht Hquiet.
  pose proof (exec_pastTheGuard random createObjectURL numberToString t
                (Z.max (now l) (fireAt t)) (state l)
                (componentTimer_pastTheGuard t Ht)) as Hguard.
  pose proof (component_timer_keeps t (Z.max (now l) (fireAt t)) (state l) Ht) as Hkeeps.
  unfold tick. rewrite Htimers.
  unfold BatchProcessing.exec in *.
  destruct (queueBody (callback t) (Z.max (now l) (fireAt t)) (state l))
    as [st' registered] eqn:Ebody.
  cbn [fst snd] in Hkeeps. destruct Hguard as [Hp [Htoasts [Hlen _]]].
  destruct Hkeeps as [_ [_ [Hid Hidx]]].
  assert (Hquiet' : BatchProcessing.render st' = []).
  { apply (render_stays_empty (state l)); [assumption..|lia]. }
  rewrite Hquiet', app_nil_r. eexists. split; [reflexivity|]. cbn [state timers].
  split; [exact Hquiet'|]. split; [exact Hp|]. split; [exact Htoasts|].
  split; [exact Hid|].
  unfold BatchQueue.componentTimer in Ht.
  destruct (callback t) as [| | | | | |index items|index p] eqn:Ecb; try contradiction;
    simpl in Ebody.
  - unfold BatchProcessing.processNextItem in Ebody.
    destruct (Nat.leb_spec (length items) index) as [Hle|_]; [lia|].
    unfold BatchProcessing.progressLoop in Ebody. simpl in Ebody.
    injection Ebody as <- <-. left. eexists. split; [reflexivity|].
    split; [simpl; split; [lia | reflexivity]|]. split; reflexivity.
  - unfold BatchProcessing.afterDelay, BatchProcessing.progressLoop in Ebody.
    destruct Ht as [Hrange Hten].
    destruct (Z.leb_spec (p + 10) 100) as [Hmore|Hlast].
    + injection Ebody as <- <-. left. eexists. split; [reflexivity|].
      split; [|split; [|reflexivity]].
      * simpl. split; [lia|]. rewrite <- Zplus_mod_idemp_l, Hten. reflexivity.
      * cbn [BatchQueue.remaining callback]. f_equal. apply remaining_next. exact Hmore.
    + injection Ebody as <- <-. right. split; [reflexivity|].
      rewrite (complete_moves_on random random_in_range). reflexivity.
Qed.

Lemma quiet_queue_drains (n : nat) :
  forall l : Loop BatchProcessing.State BatchProcessing.Task,
    Forall BatchQueue.componentTimer (timers l) ->
    BatchProcessing.render (state l) = [] ->
    (BatchQueue.pendingWork (timers l) <= n)%nat ->
    let l' := run _ _ queueExec n l in
    timers l' = [] /\
    BatchProcessing.currentProcessingIndex (state l') =
    (BatchProcessing.currentProcessingIndex (state l) + length (timers l))%nat /\
    BatchProcessing.isProcessing (state l') = BatchProcessing.isProcessing (state l) /\
    BatchProcessing.toasts (state l') = BatchProcessing.toasts (state l) /\
    map BatchQueue.identity (BatchProcessing.batchItems (state l')) =
    map BatchQueue.identity (BatchProcessing.batchItems (state l)).
Proof.
  induction n as [|n IH]; intros l Hq Hquiet Hwork.
  - destruct (timers l) as [|t rest] eqn:E.
    + simpl. rewrite E. simpl. repeat split; lia.
    + exfalso. unfold BatchQueue.pendingWork in Hwork. simpl in Hwork.
      destruct (callback t); simpl in Hwork; lia.
  - destruct (timers l) as [|t rest] eqn:E.
    + rewrite run_quiescent by exact E. cbv zeta. rewrite E. simpl. repeat split; lia.
    + apply Forall_cons_iff in Hq. destruct Hq as [Ht Hrest].
      destruct (quiet_tick l t rest E Ht Hquiet)
        as [l' [Htick [Hquiet' [Hp [Htoasts [Hid Hcases]]]]]].
      cbv zeta. rewrite (run_S _ _ _ _ _ _ Htick).
      unfold BatchQueue.pendingWork in Hwork. simpl in Hwork.
      fold (BatchQueue.pendingWork rest) in Hwork.
      destruct Hcases as [[u [Hl' [Hu [Hrem Hidx]]]] | [Hl' Hidx]].
      * destruct (pendingWork_insertTimer u rest) as [Hw Hlen].
        destruct (IH l') as [H1 [H2 [H3 [H4 H5]]]].
        -- rewrite Hl'. apply insertTimer_all; assumption.
        -- exact Hquiet'.
        -- rewrite Hl', Hw. lia.
        -- rewrite Hl', Hlen in H2. simpl.
           repeat split; [exact H1 | lia | congruence | congruence | congruence].
      * assert (Hpos : (1 <= BatchQueue.remaining (callback t))%nat)
          by (destruct (callback t); simpl; lia).
        destruct (IH l') as [H1 [H2 [H3 [H4 H5]]]].
        -- rewrite Hl'. exact Hrest.
        -- exact Hquiet'.
        -- rewrite Hl'. lia.
        -- rewrite Hl' in H2. simpl.
           repeat split; [exact H1 | lia | congruence | congruence | congruence].
Qed.

(** X19.  Pausing does not stop the calls in flight, and each of them
    moves the index on.  In a state of any use in which the render sets
    no timer (processing is paused, or the index is past the queue), the
    pending timers run dry after at most [pendingWork] of them have fired
    (12 for a call that has not begun, one per remaining step of a
    progress loop); by then the index has grown by the number of timers
    that were pending, one per overlapping call, while the items are
    still in place, no toast was shown and processing is as it was. *)
Theorem calls_in_flight_all_move_the_index
        (l : Loop BatchProcessing.State BatchProcessing.Task) :
  reaches l ->
  BatchProcessing.render (state l) = [] ->
  let l' := run _ _ queueExec (BatchQueue.pendingWork (timers l)) l in
  timers l' = [] /\
  BatchProcessing.currentProcessingIndex (state l') =
  (BatchProcessing.currentProcessingIndex (state l) + length (timers l))%nat /\
  BatchProcessing.isProcessing (state l') = BatchProcessing.isProcessing (state l) /\
  BatchProcessing.toasts (state l') = BatchProcessing.toasts (state l) /\
  map BatchQueue.identity (BatchProcessing.batchItems (state l')) =
  map BatchQueue.identity (BatchProcessing.batchItems (state l)).
Proof.
  intros H Hquiet. apply quiet_queue_drains; [|exact Hquiet|lia].
  apply (reaches_invariant l H).
Qed.

End BatchQueueFacts.

Lemma pausedBatch_reaches :
  BatchQueue.reaches Examples.halves Examples.blobUrl Examples.numberText
    Scenarios.pausedBatch.
Proof.
  unfold Scenarios.pausedBatch, BatchProcessing.runFor.
  apply BatchQueue.reaches_user; [|reflexivity].
  apply reaches_run. apply reaches_started.
Qed.

Lemma halves_in_range (k : nat) : 0 <= Examples.halves k /\ Examples.halves k < 1.
Proof. unfold Examples.halves, Qle, Qlt. simpl. lia. Qed.

Lemma batch_completion_is_never_announced_witness :
  filter BatchProcessing.isCompleteToast
         (BatchProcessing.toasts (state Scenarios.pausedBatch)) = [] /\
  Forall BatchProcessing.pastTheGuard (timers Scenarios.pausedBatch).
Proof.
  apply (batch_completion_is_never_announced
           Examples.halves Examples.blobUrl Examples.numberText).
  exact pausedBatch_reaches.
Defined.

Lemma queue_items_stay_well_formed_witness :
  Forall BatchQueue.wellFormed (BatchProcessing.batchItems (state Scenarios.pausedBatch)).
Proof.
  apply (queue_items_stay_well_formed
           Examples.halves Examples.blobUrl Examples.numberText).
  exact pausedBatch_reaches.
Defined.

Lemma timers_keep_the_queue_in_place_witness :
  match tick _ _ (BatchProcessing.exec Examples.halves Examples.blobUrl Examples.numberText)
             Scenarios.pausedBatch with
  | Some l' =>
      map BatchQueue.identity (BatchProcessing.batchItems (state l')) =
      map BatchQueue.identity (BatchProcessing.batchItems (state Scenarios.pausedBatch)) /\
      BatchProcessing.toasts (state l') = BatchProcessing.toasts (state Scenarios.pausedBatch) /\
      BatchProcessing.isProcessing (state l') =
      BatchProcessing.isProcessing (state Scenarios.pausedBatch) /\
      (BatchProcessing.currentProcessingIndex (state Scenarios.pausedBatch) <=
       BatchProcessing.currentProcessingIndex (state l') <=
       S (BatchProcessing.currentProcessingIndex (state Scenarios.pausedBatch)))%nat
  | None => False
  end.
Proof.
  destruct (tick _ _ (BatchProcessing.exec Examples.halves Examples.blobUrl
                        Examples.numberText) Scenarios.pausedBatch) as [l'|] eqn:E.
  - apply (timers_keep_the_queue_in_place
             Examples.halves Examples.blobUrl Examples.numberText Scenarios.pausedBatch l').
    + exact pausedBatch_reaches.
    + exact E.
  - vm_compute in E. discriminate.
Defined.

(** Paused after three timers, the batch of one image has four calls
    in flight: when they have run dry the index is 4, for one item. *)
Lemma calls_in_flight_all_move_the_index_witness :
  let l' := run _ _ (BatchProcessing.exec Examples.halves Examples.blobUrl Examples.numberText)
                (BatchQueue.pendingWork (timers Scenarios.pausedBatch))
                Scenarios.pausedBatch in
  timers l' = [] /\
  BatchProcessing.currentProcessingIndex (state l') = 4%nat /\
  length (BatchProcessing.batchItems (state l')) = 1%nat /\
  BatchProcessing.isProcessing (state l') = false.
Proof.
  intros l'.
  destruct (calls_in_flight_all_move_the_index
              Examples.halves Examples.blobUrl Examples.numberText
              halves_in_range Scenarios.pausedBatch pausedBatch_reaches eq_refl)
    as [Hq [Hidx [Hp [_ Hid]]]].
  fold l' in Hq, Hidx, Hp, Hid.
  split; [exact Hq|]. split; [exact Hidx|]. split.
  - rewrite <- (length_map BatchQueue.identity), Hid. reflexivity.
  - exact Hp.
Defined.

(* ------------------------------------------------------------------ *)
(** ** LoadingAnalysis: unmounting *)

(** *** The handles do not change the analysis *)

Lemma erase_insertTimer (t : Timer AnalysisEffect.Task)
      (q : list (Timer AnalysisEffect.Task)) :
  map (fun t => {| fireAt := fireAt t; callback := AnalysisEffect.work (callback t) |})
      (insertTimer _ t q) =
  insertTimer _ {| fireAt := fireAt t; callback := AnalysisEffect.work (callback t) |}
              (map (fun t => {| fireAt := fireAt t;
                                callback := AnalysisEffect.work (callback t) |}) q).
Proof.
  induction q as [|u q IH]; simpl; [reflexivity|].
  destruct (fireAt u <=? fireAt t)%Z; simpl; [now rewrite IH | reflexivity].
Qed.

Lemma erase_register (at_ : Z) (new : list (Z * AnalysisEffect.Task))
      (q : list (Timer AnalysisEffect.Task)) :
  map (fun t => {| fireAt := fireAt t; callback := AnalysisEffect.work (callback t) |})
      (register _ at_ q new) =
  register _ at_
           (map (fun t => {| fireAt := fireAt t;
                             callback := AnalysisEffect.work (callback t) |}) q)
           (map (fun dt => (fst dt, AnalysisEffect.work (snd dt))) new).
Proof.
  unfold register. revert q. induction new as [|dt new IH]; intros q; simpl; [reflexivity|].
  rewrite IH, erase_insertTimer. reflexivity.
Qed.

Lemma setTimeouts_erase (new : list (Z * LoadingAnalysis.Task)) :
  forall st : AnalysisEffect.State,
    AnalysisEffect.component (fst (AnalysisEffect.setTimeouts st new)) =
    AnalysisEffect.component st /\
    map (fun dt => (fst dt, AnalysisEffect.work (snd dt)))
        (snd (AnalysisEffect.setTimeouts st new)) = new.
Proof.
  induction new as [|[delay task] new IH]; intros st; simpl; [auto|].
  match goal with
  | |- context [AnalysisEffect.setTimeouts ?s new] => destruct (IH s) as [H1 H2]
  end.
  destruct (AnalysisEffect.setTimeouts _ new) as [st2 ts]. simpl in *.
  split; [exact H1 | now rewrite H2].
Qed.

Lemma exec_erase (task : AnalysisEffect.Task) (t : Z) (st : AnalysisEffect.State) :
  (AnalysisEffect.component (fst (AnalysisEffect.exec task t st)),
   map (fun dt => (fst dt, AnalysisEffect.work (snd dt)))
       (snd (AnalysisEffect.exec task t st))) =
  LoadingAnalysis.exec (AnalysisEffect.work task) t (AnalysisEffect.component st).
Proof.
  unfold AnalysisEffect.exec.
  destruct (LoadingAnalysis.exec (AnalysisEffect.work task) t (AnalysisEffect.component st))
    as [c new].
  match goal with
  | |- context [AnalysisEffect.setTimeouts ?s new] =>
      destruct (setTimeouts_erase new s) as [H1 H2]
  end.
  simpl in H1. now rewrite H1, H2.
Qed.

Lemma tick_erase (l : Loop AnalysisEffect.State AnalysisEffect.Task) :
  option_map AnalysisEffect.erase (tick _ _ AnalysisEffect.exec l) =
  tick _ _ LoadingAnalysis.exec (AnalysisEffect.erase l).
Proof.
  unfold tick, AnalysisEffect.erase. simpl.
  destruct (timers l) as [|t rest]; simpl; [reflexivity|].
  pose proof (exec_erase (callback t) (Z.max (now l) (fireAt t)) (state l)) as H.
  destruct (AnalysisEffect.exec (callback t) (Z.max (now l) (fireAt t)) (state l))
    as [st' new].
  simpl in H. rewrite <- H. simpl. now rewrite erase_register.
Qed.

(** At every moment the effect with handles, the handles left out, is
    the analysis as it runs without them. *)
Lemma runFor_erase (fuel : nat) (img : string) :
  AnalysisEffect.erase (AnalysisEffect.runFor fuel img) = LoadingAnalysis.runFor fuel img.
Proof.
  unfold AnalysisEffect.runFor, LoadingAnalysis.runFor.
  assert (Hmount : AnalysisEffect.erase (AnalysisEffect.mount img) =
                   LoadingAnalysis.mount img) by reflexivity.
  revert Hmount. generalize (AnalysisEffect.mount img) (LoadingAnalysis.mount img).
  induction fuel as [|fuel IH]; intros l l0 H; simpl; [exact H|].
  pose proof (tick_erase l) as Htick. rewrite H in Htick.
  destruct (tick _ _ AnalysisEffect.exec l) as [l'|];
    destruct (tick _ _ LoadingAnalysis.exec l0) as [l0'|]; simpl in Htick;
    try discriminate.
  - apply IH. now injection Htick.
  - exact H.
Qed.

(** *** What the cleanup leaves *)

Lemma along_run (check : Loop AnalysisEffect.State AnalysisEffect.Task -> bool)
      (fuel : nat) :
  forall (l : Loop AnalysisEffect.State AnalysisEffect.Task) (k : nat),
    forallb (fun b => b) (AnalysisEffect.along check fuel l) = true ->
    (k <= fuel)%nat ->
    check (run _ _ AnalysisEffect.exec k l) = true.
Proof.
  induction fuel as [|fuel IH]; intros l k Hall Hk; simpl in Hall;
    apply andb_true_iff in Hall; destruct Hall as [Hl Hrest].
  - assert (k = 0%nat) as -> by lia. exact Hl.
  - destruct k as [|k]; [exact Hl|]. simpl.
    destruct (tick _ _ AnalysisEffect.exec l) as [l'|]; [|exact Hl].
    apply IH; [exact Hrest | lia].
Qed.

(** A queue of animation frames stays one, and never calls
    [onComplete]. *)
Lemma frames_only (fuel : nat) :
  forall l : Loop AnalysisEffect.State AnalysisEffect.Task,
    forallb AnalysisEffect.isFrame (timers l) = true ->
    AnalysisEffect.completions (run _ _ AnalysisEffect.exec fuel l) =
    AnalysisEffect.completions l.
Proof.
  induction fuel as [|fuel IH]; intros l Hq; simpl; [reflexivity|].
  unfold tick. destruct (timers l) as [|t rest] eqn:E; [reflexivity|].
  simpl in Hq. apply andb_true_iff in Hq. destruct Hq as [Ht Hrest].
  unfold AnalysisEffect.isFrame in Ht.
  destruct (callback t) as [|h [|i stepStart stepEnd startTime|i|]] eqn:Ecb;
    try discriminate.
  unfold AnalysisEffect.exec. cbn [AnalysisEffect.work LoadingAnalysis.exec].
  unfold LoadingAnalysis.animateProgress.
  destruct (nth_error LoadingAnalysis.analysisSteps i) as [step|].
  - cbv zeta.
    match goal with
    | |- context [if ?b then _ else _] => destruct b
    end; cbn [AnalysisEffect.setTimeouts AnalysisEffect.setTimeout fst snd].
    + rewrite IH.
      * unfold AnalysisEffect.completions. simpl.
        rewrite filter_app. simpl. now rewrite app_nil_r.
      * cbn [timers]. unfold register. simpl.
        apply forallb_forall. intros u Hu. apply insertTimer_In in Hu.
        destruct Hu as [-> | Hu]; [reflexivity|].
        rewrite forallb_forall in Hrest. now apply Hrest.
    + rewrite IH.
      * unfold AnalysisEffect.completions. simpl.
        rewrite filter_app. simpl. now rewrite app_nil_r.
      * exact Hrest.
  - cbn [AnalysisEffect.setTimeouts fst snd]. rewrite IH; [reflexivity | exact Hrest].
Qed.

Lemma cancellable_cleanup (l : Loop AnalysisEffect.State AnalysisEffect.Task) :
  AnalysisEffect.cancellable l = true ->
  AnalysisEffect.completions l = [] /\
  forallb AnalysisEffect.isFrame (timers (AnalysisEffect.cleanup l)) = true.
Proof.
  unfold AnalysisEffect.cancellable.
  destruct (AnalysisEffect.completions l); [|discriminate].
  intros H. split; [reflexivity|].
  unfold AnalysisEffect.cleanup. simpl.
  apply forallb_forall. intros t Ht. apply filter_In in Ht. destruct Ht as [Hin Hkept].
  rewrite forallb_forall in H. specialize (H t Hin).
  apply orb_true_iff in H. destruct H as [H|H]; [exact H|].
  apply andb_true_iff in H. destruct H as [_ H]. rewrite H in Hkept. discriminate.
Qed.

Lemma analysis_verdicts (img : string) (k : nat) :
  AnalysisEffect.verdict (AnalysisEffect.runFor k img) = true.
Proof.
  assert (Hall : forallb (fun b => b)
                   (AnalysisEffect.along AnalysisEffect.verdict 144
                      (AnalysisEffect.mount img)) = true)
    by (vm_compute; reflexivity).
  destruct (Nat.le_gt_cases k 144) as [Hk|Hk].
  - apply along_run with (fuel := 144%nat); assumption.
  - replace k with (144 + (k - 144))%nat by lia.
    unfold AnalysisEffect.runFor. rewrite run_add.
    rewrite (run_quiescent _ _ _ (k - 144)) by (vm_compute; reflexivity).
    apply along_run with (fuel := 144%nat); [exact Hall | lia].
Qed.

(** X20.  The cleanup of the effect cancels the analysis only before
    its last step has ended.  The cleanup clears the timer of the current
    step and the latest frame of the animation, but not the completion
    timer, whose handle is not kept.  Unmounted at any moment before the
    timers due at 7000 ms have begun to fire, the component never calls
    [onComplete], however long one waits.  Unmounted from then on, the
    timers that are left run dry within two of them and [onComplete] has
    been called exactly once, at 7500 ms, although the component is
    gone. *)
Theorem cleanup_cancels_only_before_the_last_step (img : string) (k : nat) :
  let l := AnalysisEffect.runFor k img in
  ((now l < 7000)%Z ->
   forall fuel,
     AnalysisEffect.completions
       (run _ _ AnalysisEffect.exec fuel (AnalysisEffect.cleanup l)) = []) /\
  ((7000 <= now l)%Z ->
   timers (run _ _ AnalysisEffect.exec 2 (AnalysisEffect.cleanup l)) = [] /\
   AnalysisEffect.completions
     (run _ _ AnalysisEffect.exec 2 (AnalysisEffect.cleanup l)) = [7500%Z]).
Proof.
  intros l. pose proof (analysis_verdicts img k) as Hv. fold l in Hv.
  unfold AnalysisEffect.verdict in Hv. split; intros Hnow.
  - destruct (Z.ltb_spec (now l) 7000) as [_|Hge]; [|lia].
    destruct (cancellable_cleanup l Hv) as [Hnone Hframes].
    intros fuel. rewrite frames_only by exact Hframes. exact Hnone.
  - destruct (Z.ltb_spec (now l) 7000) as [Hlt|_]; [lia|].
    cbv zeta in Hv. apply andb_true_iff in Hv. destruct Hv as [Hq Hc].
    split.
    + unfold quiescent in Hq.
      destruct (timers (run _ _ AnalysisEffect.exec 2 (AnalysisEffect.cleanup l)));
        [reflexivity | discriminate].
    + destruct (AnalysisEffect.completions
                  (run _ _ AnalysisEffect.exec 2 (AnalysisEffect.cleanup l)))
        as [|t [|t' rest]]; try discriminate.
      apply Z.eqb_eq in Hc. now subst t.
Qed.

(** Unmounted after 100 timers (at 4850 ms) the analysis is cancelled;
    unmounted after 143 of them (at 7000 ms) it still completes. *)
Lemma cleanup_cancels_only_before_the_last_step_witness :
  AnalysisEffect.completions
    (run _ _ AnalysisEffect.exec 50
         (AnalysisEffect.cleanup (AnalysisEffect.runFor 100 "blob:cow"))) = [] /\
  AnalysisEffect.completions
    (run _ _ AnalysisEffect.exec 2
         (AnalysisEffect.cleanup (AnalysisEffect.runFor 143 "blob:cow"))) = [7500%Z].
Proof.
  split.
  - apply (cleanup_cancels_only_before_the_last_step "blob:cow" 100).
    vm_compute. reflexivity.
  - apply (cleanup_cancels_only_before_the_last_step "blob:cow" 143).
    vm_compute. discriminate.
Defined.

(** X21.  At every moment of an analysis the render has what it
    needs: [currentStep] is the index of one of the three steps, so
    [analysisSteps[currentStep]] is defined, and the value of the progress
    bar lies between 0 and 100. *)
Theorem analysis_stays_within_bounds (img : string) (k : nat) :
  let st := state (LoadingAnalysis.runFor k img) in
  (exists step, nth_error LoadingAnalysis.analysisSteps (LoadingAnalysis.currentStep st) =
                Some step) /\
  0 <= LoadingAnalysis.progress st /\ LoadingAnalysis.progress st <= 100.
Proof.
  intros st.
  assert (Hb : AnalysisEffect.withinBounds (AnalysisEffect.runFor k img) = true).
  { assert (Hall : forallb (fun b => b)
                     (AnalysisEffect.along AnalysisEffect.withinBounds 144
                        (AnalysisEffect.mount img)) = true)
      by (vm_compute; reflexivity).
    destruct (Nat.le_gt_cases k 144) as [Hk|Hk].
    - apply along_run with (fuel := 144%nat); assumption.
    - replace k with (144 + (k - 144))%nat by lia.
      unfold AnalysisEffect.runFor. rewrite run_add.
      rewrite (run_quiescent _ _ _ (k - 144)) by (vm_compute; reflexivity).
      apply along_run with (fuel := 144%nat); [exact Hall | lia]. }
  unfold AnalysisEffect.withinBounds in Hb.
  change (AnalysisEffect.component (state (AnalysisEffect.runFor k img)))
    with (state (AnalysisEffect.erase (AnalysisEffect.runFor k img))) in Hb.
  rewrite runFor_erase in Hb. fold st in Hb.
  apply andb_true_iff in Hb. destruct Hb as [Hb Hhigh].
  apply andb_true_iff in Hb. destruct Hb as [Hstep Hlow].
  apply Nat.ltb_lt in Hstep. apply Qle_bool_iff in Hlow. apply Qle_bool_iff in Hhigh.
  split; [|split; assumption].
  destruct (nth_error LoadingAnalysis.analysisSteps (LoadingAnalysis.currentStep st))
    as [step|] eqn:E; [eauto|].
  apply nth_error_None in E. lia.
Qed.

(** X22.  Leaving the analysis screen in its last half second.  The
    page shows [LoadingAnalysis] for the captured image; the user presses
    "Back to Home", which unmounts it.  If that happens before the timers
    due at 7000 ms have begun to fire, the page stays at home however long
    one waits.  If it happens later and before [onComplete] was called,
    the completion timer that the cleanup left calls
    [handleAnalysisComplete] at 7500 ms and the page, left at home, shows
    the results screen for the captured image. *)
Theorem leaving_late_still_shows_the_results
        (img : string) (k : nat) (page : BreedAI.State) :
  BreedAI.capturedImage page = Some img ->
  img <> "" ->
  let l := AnalysisEffect.runFor k img in
  ((now l < 7000)%Z ->
   forall fuel,
     AnalysisEffect.leave fuel page l =
     BreedAI.step page (BreedAI.Click BreedAI.BackToHome)) /\
  ((7000 <= now l)%Z ->
   AnalysisEffect.completions l = [] ->
   BreedAI.currentState (AnalysisEffect.leave 2 page l) = "results" /\
   BreedAI.renderContent (AnalysisEffect.leave 2 page l) =
   BreedAI.ResultsScreen img BreedAI.mockPredictions).
Proof.
  intros Himg Hne l.
  pose proof (analysis_verdicts img k) as Hv. fold l in Hv.
  unfold AnalysisEffect.verdict in Hv. unfold AnalysisEffect.leave.
  split; intros Hnow.
  - destruct (Z.ltb_spec (now l) 7000) as [_|Hge]; [|lia].
    destruct (cancellable_cleanup l Hv) as [Hnone Hframes].
    intros fuel. rewrite frames_only by exact Hframes.
    change (AnalysisEffect.completions (AnalysisEffect.cleanup l))
      with (AnalysisEffect.completions l).
    rewrite Hnone. reflexivity.
  - destruct (Z.ltb_spec (now l) 7000) as [Hlt|_]; [lia|].
    intros Hnone. rewrite Hnone.
    cbv zeta in Hv. apply andb_true_iff in Hv. destruct Hv as [_ Hc].
    destruct (AnalysisEffect.completions
                (run _ _ AnalysisEffect.exec 2 (AnalysisEffect.cleanup l)))
      as [|t [|t' rest]]; try discriminate.
    simpl. split; [reflexivity|].
    unfold BreedAI.renderContent. simpl. rewrite Himg.
    destruct img; [congruence | reflexivity].
Qed.

Lemma leaving_late_still_shows_the_results_witness :
  AnalysisEffect.leave 50 Examples.analysing (AnalysisEffect.runFor 100 "blob:cow") =
  BreedAI.step Examples.analysing (BreedAI.Click BreedAI.BackToHome) /\
  BreedAI.renderContent
    (AnalysisEffect.leave 2 Examples.analysing (AnalysisEffect.runFor 143 "blob:cow")) =
  BreedAI.ResultsScreen "blob:cow" BreedAI.mockPredictions.
Proof.
  split.
  - apply (leaving_late_still_shows_the_results "blob:cow" 100 Examples.analysing);
      [reflexivity | discriminate | vm_compute; reflexivity].
  - apply (leaving_late_still_shows_the_results "blob:cow" 143 Examples.analysing);
      [reflexivity | discriminate | vm_compute; discriminate | vm_compute; reflexivity].
Defined.

(* ------------------------------------------------------------------ *)
(** ** BatchProcessing: the export *)

Section ExportFacts.

Variable random : nat -> Q.
Variable createObjectURL : nat -> JS.File -> string.
Variable numberToString : Q -> string.
Variable toISOString : Z -> string.

(** X23.  The export never writes "undefined".  Under any use of the
    component, [exportResults] makes one row for each completed item of
    the queue, in queue order, with the item's file name, and each row has
    the breed and the confidence of one of the five mock results and a
    timestamp; so its CSV line is made of these values. *)
Theorem export_rows_are_complete
        (l : Loop BatchProcessing.State BatchProcessing.Task)
        (farmName surveyorName : string) :
  BatchQueue.reaches random createObjectURL numberToString l ->
  let rows := BatchQueue.exportRows farmName surveyorName (state l) in
  map BatchQueue.rowFileName rows =
  map BatchProcessing.fileName (BatchQueue.completedItems (state l)) /\
  Forall (fun r =>
            exists m clock,
              In m BatchProcessing.mockBreedResults /\
              BatchQueue.rowBreed r = Some (BatchProcessing.mockBreed m) /\
              BatchQueue.rowConfidence r = Some (BatchProcessing.mockConfidence m) /\
              BatchQueue.rowTimestamp r = Some clock /\
              BatchQueue.csvLine numberToString toISOString r =
              (BatchQueue.quote ++ BatchQueue.rowFileName r ++ BatchQueue.quote ++ "," ++
               BatchQueue.quote ++ BatchProcessing.mockBreed m ++ BatchQueue.quote ++ "," ++
               numberToString (BatchProcessing.mockConfidence m) ++ "," ++
               BatchQueue.quote ++ toISOString clock ++ BatchQueue.quote ++ "," ++
               BatchQueue.quote ++ farmName ++ BatchQueue.quote ++ "," ++
               BatchQueue.quote ++ surveyorName ++ BatchQueue.quote)%string)
         rows.
Proof.
  intros Hreach rows.
  destruct (reaches_invariant random createObjectURL numberToString l Hreach)
    as [_ [_ Hitems]].
  unfold rows, BatchQueue.exportRows. split.
  - rewrite map_map. reflexivity.
  - apply Forall_forall. intros r Hr. apply in_map_iff in Hr.
    destruct Hr as [item [<- Hitem]].
    unfold BatchQueue.completedItems in Hitem. apply filter_In in Hitem.
    destruct Hitem as [Hin Hstatus]. apply String.eqb_eq in Hstatus.
    rewrite Forall_forall in Hitems. destruct (Hitems item Hin) as [_ [_ Hshape]].
    destruct Hshape as [[H _] | [H | [[_ [_ [res [Hres [m [Hm [Hb Hc]]]]]]] | [H _]]]];
      try (rewrite Hstatus in H; discriminate).
    exists m, (BatchProcessing.timestamp res).
    unfold BatchQueue.csvLine. simpl. rewrite Hres. simpl. rewrite Hb, Hc.
    repeat split. exact Hm.
Qed.

End ExportFacts.

Lemma export_rows_are_complete_witness :
  let rows := BatchQueue.exportRows "Farm" "Asha" (state Scenarios.drainedBatch) in
  map BatchQueue.rowFileName rows =
  map BatchProcessing.fileName (BatchQueue.completedItems (state Scenarios.drainedBatch)) /\
  Forall (fun r =>
            exists m clock,
              In m BatchProcessing.mockBreedResults /\
              BatchQueue.rowBreed r = Some (BatchProcessing.mockBreed m) /\
              BatchQueue.rowConfidence r = Some (BatchProcessing.mockConfidence m) /\
              BatchQueue.rowTimestamp r = Some clock /\
              BatchQueue.csvLine Examples.numberText Scenarios.isoText r =
              (BatchQueue.quote ++ BatchQueue.rowFileName r ++ BatchQueue.quote ++ "," ++
               BatchQueue.quote ++ BatchProcessing.mockBreed m ++ BatchQueue.quote ++ "," ++
               Examples.numberText (BatchProcessing.mockConfidence m) ++ "," ++
               BatchQueue.quote ++ Scenarios.isoText clock ++ BatchQueue.quote ++ "," ++
               BatchQueue.quote ++ "Farm" ++ BatchQueue.quote ++ "," ++
               BatchQueue.quote ++ "Asha" ++ BatchQueue.quote)%string)
         rows.
Proof.
  apply (export_rows_are_complete Examples.halves Examples.blobUrl Examples.numberText
           Scenarios.isoText Scenarios.drainedBatch "Farm" "Asha").
  unfold Scenarios.drainedBatch. apply reaches_run. exact pausedBatch_reaches.
Defined.

(* ------------------------------------------------------------------ *)
(** ** BatchProcessing: items are addressed by position *)

Lemma filter_keeps_all {A : Type} (p : A -> bool) (l : list A) :
  Forall (fun x => p x = true) l -> filter p l = l.
Proof.
  induction 1 as [|x l Hx _ IH]; simpl; [reflexivity|]. now rewrite Hx, IH.
Qed.

(** X24.  A call in flight writes to a position, not to an item.  When
    the user removes the item at the position of a call of
    [processNextItem] that is in flight (possible while processing is
    paused), the item that followed it moves into that position, and the
    end of the call writes its outcome, "completed" with a result or
    "error", to that item, which was never processed. *)
Theorem removal_redirects_the_outcome
        (random : nat -> Q) (st : BatchProcessing.State)
        (before after : list BatchProcessing.BatchItem)
        (removed next : BatchProcessing.BatchItem) (clock : Z) :
  (forall k, 0 <= random k /\ random k < 1) ->
  BatchProcessing.batchItems st = before ++ removed :: next :: after ->
  Forall (fun item => BatchProcessing.id item <> BatchProcessing.id removed) before ->
  BatchProcessing.id next <> BatchProcessing.id removed ->
  let index := length before in
  let st' := BatchProcessing.complete random index clock
               (BatchProcessing.removeItem (BatchProcessing.id removed) st) in
  nth_error (BatchProcessing.batchItems st) index = Some removed /\
  exists outcome,
    nth_error (BatchProcessing.batchItems st') index = Some outcome /\
    BatchQueue.identity outcome = BatchQueue.identity next /\
    (BatchProcessing.status outcome = "completed" \/
     BatchProcessing.status outcome = "error").
Proof.
  intros Hrandom Hitems Hbefore Hnext index st'. split.
  - rewrite Hitems, nth_error_app2 by (unfold index; lia).
    unfold index. rewrite Nat.sub_diag. reflexivity.
  - assert (Hfiltered :
              exists after',
                BatchProcessing.batchItems
                  (BatchProcessing.removeItem (BatchProcessing.id removed) st) =
                before ++ next :: after').
    { unfold BatchProcessing.removeItem. simpl. rewrite Hitems, filter_app. simpl.
      rewrite String.eqb_refl. simpl.
      apply String.eqb_neq in Hnext. rewrite Hnext. simpl.
      rewrite filter_keeps_all; [eauto|].
      eapply Forall_impl; [|exact Hbefore]. intros item Hne.
      apply String.eqb_neq in Hne. now rewrite Hne. }
    destruct Hfiltered as [after' Hfiltered].
    unfold st', BatchProcessing.complete.
    destruct (Hrandom (BatchProcessing.draws
                         (BatchProcessing.removeItem (BatchProcessing.id removed) st)))
      as [H0 H1].
    destruct (drawn_index_in_range _ H0 H1) as [m [Hm _]].
    rewrite Hm. simpl. rewrite updateAt_nth.
    change (filter _ (BatchProcessing.batchItems st))
      with (BatchProcessing.batchItems
              (BatchProcessing.removeItem (BatchProcessing.id removed) st)).
    rewrite Hfiltered, nth_error_app2 by (unfold index; lia).
    unfold index. rewrite Nat.sub_diag. simpl.
    eexists. split; [reflexivity|]. split; [reflexivity|].
    destruct (JS.gtb _ _); simpl; auto.
Qed.

Lemma tenths_in_range (k : nat) : 0 <= Scenarios.tenths k /\ Scenarios.tenths k < 1.
Proof.
  unfold Scenarios.tenths, Qle, Qlt. cbn [Qnum Qden].
  pose proof (Nat.mod_upper_bound k 10). lia.
Qed.

(** Two images are queued and the first is removed: the end of a call
    for position 0 marks the second as completed. *)
Lemma removal_redirects_the_outcome_witness :
  let st := BatchProcessing.addImagesToBatch Scenarios.tenths Examples.blobUrl
              Scenarios.tenthText (Some [Examples.photo; Examples.photo]) 0
              BatchProcessing.initial in
  let st' := BatchProcessing.complete Scenarios.tenths 0 1750
               (BatchProcessing.removeItem "batch-0-0" st) in
  map BatchProcessing.id (BatchProcessing.batchItems st) = ["batch-0-0"; "batch-0-1"] /\
  exists outcome,
    nth_error (BatchProcessing.batchItems st') 0 = Some outcome /\
    BatchProcessing.id outcome = "batch-0-1" /\
    BatchProcessing.status outcome = "completed".
Proof.
  intros st st'. split; [reflexivity|].
  destruct (removal_redirects_the_outcome Scenarios.tenths st [] []
              {| BatchProcessing.id := "batch-0-0"; BatchProcessing.fileName := "cow.jpg";
                 BatchProcessing.imageUrl := "blob:cow"; BatchProcessing.status := "pending";
                 BatchProcessing.progress := 0; BatchProcessing.result := None;
                 BatchProcessing.error := None |}
              {| BatchProcessing.id := "batch-0-1"; BatchProcessing.fileName := "cow.jpg";
                 BatchProcessing.imageUrl := "blob:cow"; BatchProcessing.status := "pending";
                 BatchProcessing.progress := 0; BatchProcessing.result := None;
                 BatchProcessing.error := None |}
              1750 tenths_in_range eq_refl (Forall_nil _))
    as [_ [outcome [Hnth [Hid _]]]].
  - discriminate.
  - exists outcome. fold st' in Hnth. split; [exact Hnth|].
    split; [injection Hid as H _ _; exact H|].
    vm_compute in Hnth. injection Hnth as <-. reflexivity.
Defined.

(* ------------------------------------------------------------------ *)
(** ** The page and the multi-angle capture *)

(** An effect of a session was performed in the state that a part of
    the session led to. *)
Lemma session_effects_prefix (es : list MultiAngleCapture.Event) :
  forall (st0 st : MultiAngleCapture.State) (eff : MultiAngleCapture.Effect),
    In (st, eff) (snd (MultiAngleCapture.session st0 es)) ->
    exists before e after,
      es = before ++ e :: after /\
      st = fst (MultiAngleCapture.session st0 before) /\
      In eff (snd (MultiAngleCapture.step st e)).
Proof.
  induction es as [|e es IH]; intros st0 st eff; simpl; [tauto|].
  destruct (MultiAngleCapture.step st0 e) as [st' effs] eqn:Estep.
  destruct (MultiAngleCapture.session st' es) as [final log] eqn:Esess. simpl.
  rewrite in_app_iff, in_map_iff. intros [[eff' [Heq Hin]]|Hin].
  - injection Heq as <- <-. exists [], e, es. simpl. rewrite Estep. auto.
  - specialize (IH st' st eff). rewrite Esess in IH.
    destruct (IH Hin) as [before [e' [after [-> [Hst Heff]]]]].
    exists (e :: before), e', after. simpl. rewrite Estep.
    destruct (MultiAngleCapture.session st' before). auto.
Qed.

(** X25.  The multi-angle analysis analyses the first captured image
    only.  Whenever a session of [MultiAngleCapture] (from its mount,
    with object URLs that are not empty) calls [onComplete], the images
    passed are at least two uploaded files, and the page stores the URL of
    the first of them, switches to "analyzing" and shows the loading
    screen for that URL; nothing of the other images reaches the page. *)
Theorem multi_angle_analyses_the_first_image
        (es : list MultiAngleCapture.Event) (st : MultiAngleCapture.State)
        (images : list MultiAngleCapture.CapturedImage) (page : BreedAI.State) :
  In (st, MultiAngleCapture.OnComplete images)
     (snd (MultiAngleCapture.session MultiAngleCapture.initial es)) ->
  (forall f u clock, In (MultiAngleCapture.HandleFileUpload (Some f) u clock) es -> u <> "") ->
  exists first second rest,
    images = first :: second :: rest /\
    BreedAI.step page (BreedAI.MultiAngleOnComplete images) =
    BreedAI.setCurrentState "analyzing"
      (BreedAI.setCapturedImage (Some (MultiAngleCapture.url first)) page) /\
    BreedAI.renderContent (BreedAI.step page (BreedAI.MultiAngleOnComplete images)) =
    BreedAI.LoadingScreen (MultiAngleCapture.url first).
Proof.
  intros Hin Hurls.
  destruct (session_effects_prefix es _ _ _ Hin) as [before [e [after [-> [Hst Heff]]]]].
  destruct e; simpl in Heff; try tauto; [|destruct Heff as [H|[]]; discriminate].
  unfold MultiAngleCapture.handleComplete in Heff.
  destruct (Nat.leb_spec 2 (length (MultiAngleCapture.capturedImages st))) as [Hlen|_];
    [|simpl in Heff; tauto].
  destruct Heff as [Heq|[]]. injection Heq as <-.
  destruct (MultiAngleCapture.capturedImages st) as [|first [|second rest]] eqn:Eimgs;
    simpl in Hlen; try lia.
  exists first, second, rest. split; [reflexivity|].
  assert (Hurl : MultiAngleCapture.url first <> "").
  { destruct (multi_session_idle before MultiAngleCapture.initial eq_refl eq_refl)
      as [_ [_ Himgs]].
    rewrite <- Hst, Eimgs in Himgs.
    destruct (Himgs first (or_introl eq_refl)) as [[]|[Hup _]].
    eapply Hurls. apply in_or_app. left. exact Hup. }
  assert (Htruthy : JS.truthy (Some (MultiAngleCapture.url first)) =
                    Some (MultiAngleCapture.url first)).
  { destruct (MultiAngleCapture.url first); [congruence | reflexivity]. }
  cbn [BreedAI.step]. unfold BreedAI.multiAngleOnComplete.
  cbn [hd_error option_map]. rewrite Htruthy.
  split; [reflexivity|].
  unfold BreedAI.renderContent.
  cbn [BreedAI.capturedImage BreedAI.setCurrentState BreedAI.setCapturedImage
       BreedAI.currentState].
  rewrite Htruthy. reflexivity.
Qed.

Lemma multi_angle_analyses_the_first_image_witness :
  exists first second rest,
    MultiAngleCapture.capturedImages Examples.afterTwoUploads = first :: second :: rest /\
    BreedAI.step BreedAI.initial
      (BreedAI.MultiAngleOnComplete
         (MultiAngleCapture.capturedImages Examples.afterTwoUploads)) =
    BreedAI.setCurrentState "analyzing"
      (BreedAI.setCapturedImage (Some (MultiAngleCapture.url first)) BreedAI.initial) /\
    BreedAI.renderContent
      (BreedAI.step BreedAI.initial
         (BreedAI.MultiAngleOnComplete
            (MultiAngleCapture.capturedImages Examples.afterTwoUploads))) =
    BreedAI.LoadingScreen (MultiAngleCapture.url first).
Proof.
  apply (multi_angle_analyses_the_first_image Examples.twoUploads Examples.afterTwoUploads
           (MultiAngleCapture.capturedImages Examples.afterTwoUploads) BreedAI.initial).
  - vm_compute. left. reflexivity.
  - intros f u clock Hup. vm_compute in Hup.
    destruct Hup as [H|[H|[H|[]]]]; try discriminate; injection H as _ <- _; discriminate.
Defined.
